(** * The mapper codebase scanner ([scan-codebase.py]) in Rocq

    A shallow embedding of the scanning and caching logic of
    [skills/mapper/scripts/scan-codebase.py]: the text classifier, the
    tokenizer fallback, the fingerprint cache (load, hit test, rewrite),
    the task runner and the scan aggregator (scan hash, module hashes,
    entrypoints, top files, module diff); and of what feeds the scan: the
    ignore patterns, the walk of the tree, the filters of the loop and
    the git helpers (pathspecs, changed files, churn).

    Conventions of the embedding.
    - A Python [str] that names something (a path, a label, a digest, a
      configuration value) is a Rocq [string]; the character with code [n]
      is the code point [n] (so the model covers code points below 256).
      [str] comparison is code point order, which is [String.compare].
    - A Python [bytes] is a [list byte]; the decoded text of a file is the
      list of its code points ([list Z]).
    - A Python [int] is a [Z]; a Python [float] is a primitive binary64
      [float] and [==] on floats is [PrimFloat.eqb].
    - A [dict] is an insertion-ordered association list with unique keys.
    - What the interpreter or a third-party package provides and the
      repository does not define ([str] of a float, the tiktoken encoder,
      the ignore matcher) is a variable of the section [Scanner]; the
      matcher [pathspec] compiles and the output of a [git] command are
      arguments of the functions that use them. *)

From Stdlib Require Import ZArith List String Ascii Bool Lia.
From Stdlib Require Import Strings.Byte Floats DecimalString Permutation Sorted.
Import ListNotations.
Set Warnings "-register-all".
Open Scope string_scope.
Open Scope list_scope.
Open Scope Z_scope.

(* ------------------------------------------------------------------ *)
(** ** Bytes, text and UTF-8 *)

Definition bytes := list byte.
Definition text := list Z.

Definition byte_val (b : byte) : Z := Z.of_N (Byte.to_N b).

Definition byte_of_Z (z : Z) : byte :=
  match Byte.of_N (Z.to_N z) with
  | Some b => b
  | None => x00
  end.

(** [len(text)] and [len(data)]. *)
Definition len {A : Type} (l : list A) : Z := Z.of_nat (List.length l).

(** [b"\x00" in data]. *)
Definition has_nul (data : bytes) : bool :=
  existsb (fun b => byte_val b =? 0) data.

(** The bytes of a [str] literal whose characters are all below 128, and
    of any [string] read as raw bytes. *)
Definition raw_bytes (s : string) : bytes := list_byte_of_string s.

(** [s.encode("utf-8")] for a [str] of code points below 256. *)
Definition utf8_encode_char (c : ascii) : bytes :=
  let n := Z.of_N (N_of_ascii c) in
  if n <? 128 then [byte_of_Z n]
  else [byte_of_Z (Z.lor 192 (Z.shiftr n 6)); byte_of_Z (Z.lor 128 (Z.land n 63))].

Definition utf8_encode (s : string) : bytes :=
  flat_map utf8_encode_char (list_ascii_of_string s).

(** The error handlers of [bytes.decode]: ["strict"] raises
    [UnicodeDecodeError] at the first ill-formed sequence, ["ignore"] drops
    the offending bytes and resumes after them. *)
Inductive error_handler := Strict | Ignore.

Definition is_continuation (c : Z) : bool := (128 <=? c) && (c <? 192).

(** Second byte of a three-byte sequence led by [b]: a continuation byte,
    not below [0xA0] after [0xE0] (overlong), below [0xA0] after [0xED]
    (surrogates). *)
Definition second_of_three_ok (b c : Z) : bool :=
  is_continuation c &&
  negb (if c <? 160 then b =? 224 else b =? 237).

(** Second byte of a four-byte sequence led by [b]: not below [0x90] after
    [0xF0] (overlong), below [0x90] after [0xF4] (beyond U+10FFFF). *)
Definition second_of_four_ok (b c : Z) : bool :=
  is_continuation c &&
  negb (if c <? 144 then b =? 240 else b =? 244).

Definition low6 (c : Z) : Z := Z.land c 63.

(** What the decoder does with an ill-formed sequence: [resume] is the
    input after the bytes the error covers. *)
Definition on_error (h : error_handler) (resume : option text) : option text :=
  match h with
  | Strict => None
  | Ignore => resume
  end.

Definition emit (cp : Z) (rest : option text) : option text :=
  match rest with
  | Some t => Some (cp :: t)
  | None => None
  end.

(** [data.decode("utf-8", errors=h)], after CPython's decoder: an invalid
    start byte is an error of one byte; an invalid continuation byte ends
    an error that covers the bytes read so far and decoding resumes at the
    offending byte; a sequence cut short by the end of the data is an
    error that covers the rest of the data. [None] is
    [UnicodeDecodeError]. *)
Fixpoint utf8_decode (h : error_handler) (data : bytes) : option text :=
  match data with
  | [] => Some []
  | b0 :: r0 =>
    let b := byte_val b0 in
    if b <? 128 then emit b (utf8_decode h r0)
    else if b <? 194 then on_error h (utf8_decode h r0)
    else if b <? 224 then
      match r0 with
      | [] => on_error h (Some [])
      | b1 :: r1 =>
        let c1 := byte_val b1 in
        if is_continuation c1
        then emit (Z.lor (Z.shiftl (Z.land b 31) 6) (low6 c1)) (utf8_decode h r1)
        else on_error h (utf8_decode h r0)
      end
    else if b <? 240 then
      match r0 with
      | [] => on_error h (Some [])
      | b1 :: r1 =>
        let c1 := byte_val b1 in
        if second_of_three_ok b c1 then
          match r1 with
          | [] => on_error h (Some [])
          | b2 :: r2 =>
            let c2 := byte_val b2 in
            if is_continuation c2
            then emit (Z.lor (Z.shiftl (Z.land b 15) 12)
                         (Z.lor (Z.shiftl (low6 c1) 6) (low6 c2)))
                      (utf8_decode h r2)
            else on_error h (utf8_decode h r1)
          end
        else on_error h (utf8_decode h r0)
      end
    else if b <? 245 then
      match r0 with
      | [] => on_error h (Some [])
      | b1 :: r1 =>
        let c1 := byte_val b1 in
        if second_of_four_ok b c1 then
          match r1 with
          | [] => on_error h (Some [])
          | b2 :: r2 =>
            let c2 := byte_val b2 in
            if is_continuation c2 then
              match r2 with
              | [] => on_error h (Some [])
              | b3 :: r3 =>
                let c3 := byte_val b3 in
                if is_continuation c3
                then emit (Z.lor (Z.shiftl (Z.land b 7) 18)
                             (Z.lor (Z.shiftl (low6 c1) 12)
                                (Z.lor (Z.shiftl (low6 c2) 6) (low6 c3))))
                          (utf8_decode h r3)
                else on_error h (utf8_decode h r2)
              end
            else on_error h (utf8_decode h r1)
          end
        else on_error h (utf8_decode h r0)
      end
    else on_error h (utf8_decode h r0)
  end.

(** [decode_text]: strict decoding, and on [UnicodeDecodeError] decoding
    again with [errors="ignore"]. *)
Definition decode_text (data : bytes) : option text :=
  match utf8_decode Strict data with
  | Some t => Some t
  | None => utf8_decode Ignore data
  end.

(* ------------------------------------------------------------------ *)
(** ** SHA-256 ([hashlib.sha256]) on 32-bit words held in [Z] *)

Module Sha256.

Definition w32 (x : Z) : Z := x mod 4294967296.
Definition add32 (x y : Z) : Z := w32 (x + y).
Definition not32 (x : Z) : Z := Z.lxor x 4294967295.
Definition rotr (n x : Z) : Z :=
  Z.lor (Z.shiftr x n) (w32 (Z.shiftl x (32 - n))).

Definition Ch (x y z : Z) : Z := Z.lxor (Z.land x y) (Z.land (not32 x) z).
Definition Maj (x y z : Z) : Z :=
  Z.lxor (Z.land x y) (Z.lxor (Z.land x z) (Z.land y z)).
Definition Sigma0 (x : Z) : Z := Z.lxor (rotr 2 x) (Z.lxor (rotr 13 x) (rotr 22 x)).
Definition Sigma1 (x : Z) : Z := Z.lxor (rotr 6 x) (Z.lxor (rotr 11 x) (rotr 25 x)).
Definition sigma0 (x : Z) : Z := Z.lxor (rotr 7 x) (Z.lxor (rotr 18 x) (Z.shiftr x 3)).
Definition sigma1 (x : Z) : Z := Z.lxor (rotr 17 x) (Z.lxor (rotr 19 x) (Z.shiftr x 10)).

(** The first 64 primes. *)
Definition is_prime (n : Z) : bool :=
  forallb (fun d => negb (n mod d =? 0) || (n <=? d))
          (map Z.of_nat (seq 2 17)).

Definition primes : list Z :=
  Eval vm_compute in filter is_prime (map Z.of_nat (seq 2 310)).

(** The largest [r] below [2 ^ bits] with [r ^ 3 <= n], bit by bit. *)
Fixpoint cube_root (bits : nat) (n r : Z) : Z :=
  match bits with
  | O => r
  | S b =>
    let r' := r + 2 ^ Z.of_nat b in
    cube_root b n (if r' * r' * r' <=? n then r' else r)
  end.

(** The round constants: the first 32 bits of the fractional parts of
    the cube roots of the first 64 primes. *)
Definition K : list Z :=
  Eval vm_compute in map (fun p => w32 (cube_root 36 (p * 2 ^ 96) 0)) primes.

(** The initial hash value: the same of the square roots of the first
    8 primes. *)
Definition H0 : list Z :=
  Eval vm_compute in map (fun p => w32 (Z.sqrt (p * 2 ^ 64))) (firstn 8 primes).

(** Big-endian bytes of [x], [n] of them. *)
Fixpoint be_bytes (n : nat) (x : Z) : list Z :=
  match n with
  | O => []
  | S n' => (Z.shiftr x (8 * Z.of_nat n')) mod 256 :: be_bytes n' x
  end.

(** The message, the byte [0x80], zeros up to 56 modulo 64, and the bit
    length on eight bytes. *)
Definition pad (msg : list Z) : list Z :=
  let l := Z.of_nat (List.length msg) in
  let zeros := Z.to_nat ((55 - l) mod 64) in
  msg ++ [128] ++ repeat 0 zeros ++ be_bytes 8 (8 * l).

Fixpoint words (n : nat) (bs : list Z) : list Z :=
  match n with
  | O => []
  | S n' =>
    match bs with
    | a :: b :: c :: d :: rest =>
      (a * 16777216 + b * 65536 + c * 256 + d) :: words n' rest
    | _ => []
    end
  end.

(** The message schedule, most recent word first. *)
Fixpoint schedule (n : nat) (w : list Z) : list Z :=
  match n with
  | O => w
  | S n' =>
    let x := add32 (add32 (sigma1 (nth 1 w 0)) (nth 6 w 0))
                   (add32 (sigma0 (nth 14 w 0)) (nth 15 w 0)) in
    schedule n' (x :: w)
  end.

Definition round (s : list Z) (kw : Z * Z) : list Z :=
  match s with
  | [a; b; c; d; e; f; g; h] =>
    let t1 := add32 (add32 (add32 h (Sigma1 e)) (add32 (Ch e f g) (fst kw))) (snd kw) in
    let t2 := add32 (Sigma0 a) (Maj a b c) in
    [add32 t1 t2; a; b; c; add32 d t1; e; f; g]
  | _ => s
  end.

Definition compress (h : list Z) (block : list Z) : list Z :=
  let w := rev (schedule 48 (rev (words 16 block))) in
  let s := fold_left round (combine K w) h in
  map (fun p => add32 (fst p) (snd p)) (combine h s).

Fixpoint blocks (n : nat) (h : list Z) (bs : list Z) : list Z :=
  match n with
  | O => h
  | S n' =>
    match bs with
    | [] => h
    | _ => blocks n' (compress h (firstn 64 bs)) (skipn 64 bs)
    end
  end.

Definition hex_digit (d : Z) : ascii :=
  ascii_of_N (Z.to_N (if d <? 10 then 48 + d else 87 + d)).

Fixpoint hex (n : nat) (x : Z) : string :=
  match n with
  | O => EmptyString
  | S n' => String (hex_digit ((Z.shiftr x (4 * Z.of_nat n')) mod 16)) (hex n' x)
  end.

Definition digest_words (msg : list Z) : list Z :=
  let p := pad msg in
  blocks (S (List.length p / 64)) H0 p.

End Sha256.

(** [hashlib.sha256(data).hexdigest()]; a hasher fed by successive
    [update] calls digests the concatenation of the pieces. *)
Definition sha256_hexdigest (data : bytes) : string :=
  String.concat "" (map (Sha256.hex 8) (Sha256.digest_words (map byte_val data))).

(** [str(n)] for an [int]. *)
Definition str_int (n : Z) : string := NilZero.string_of_int (Z.to_int n).

(* ------------------------------------------------------------------ *)
(** ** Dictionaries *)

(** A [dict] with [str] keys, in insertion order. *)
Definition dict (V : Type) : Type := list (string * V).

(** [d.get(k)]. *)
Fixpoint dict_get {V : Type} (d : dict V) (k : string) : option V :=
  match d with
  | [] => None
  | (k', v) :: d' => if (k' =? k)%string then Some v else dict_get d' k
  end.

(** [d[k] = v]: an existing key keeps its place, a new one goes last. *)
Fixpoint dict_set {V : Type} (d : dict V) (k : string) (v : V) : dict V :=
  match d with
  | [] => [(k, v)]
  | (k', v') :: d' =>
    if (k' =? k)%string then (k, v) :: d' else (k', v') :: dict_set d' k v
  end.

(** [k in d] and [d.keys()]. *)
Definition dict_mem {V : Type} (d : dict V) (k : string) : bool :=
  match dict_get d k with
  | Some _ => true
  | None => false
  end.

Definition dict_keys {V : Type} (d : dict V) : list string := map fst d.

(* ------------------------------------------------------------------ *)
(** ** Values read from JSON *)

(** What [json.load] returns. *)
Inductive pyval : Type :=
| PNone
| PBool (b : bool)
| PInt (n : Z)
| PFloat (f : float)
| PStr (s : string)
| PList (l : list pyval)
| PDict (d : list (string * pyval)).

(** [f == n] for a float and an int: Python compares the exact values. *)
Definition float_eq_int (f : float) (n : Z) : bool :=
  match Prim2SF f with
  | S754_zero _ => n =? 0
  | S754_finite s m e =>
    let v := if s then Z.neg m else Z.pos m in
    if 0 <=? e then v * 2 ^ e =? n else v =? n * 2 ^ (- e)
  | _ => false
  end.

(** [v == n] where [n] is an [int]: [bool] is a subclass of [int], and a
    float equals the int of the same value. *)
Definition py_eq_int (v : pyval) (n : Z) : bool :=
  match v with
  | PInt m => m =? n
  | PBool b => (if b then 1 else 0) =? n
  | PFloat f => float_eq_int f n
  | _ => false
  end.

(** [v == s] where [s] is a [str]. *)
Definition py_eq_str (v : pyval) (s : string) : bool :=
  match v with
  | PStr t => (t =? s)%string
  | _ => false
  end.

(** [v == b] where [b] is a [bool]. *)
Definition py_eq_bool (v : pyval) (b : bool) : bool :=
  py_eq_int v (if b then 1 else 0).

(** [data.get(k)] on a parsed object: [None] for a missing key. *)
Definition py_get (d : dict pyval) (k : string) : pyval :=
  match dict_get d k with
  | Some v => v
  | None => PNone
  end.

(* ------------------------------------------------------------------ *)
(** ** Loading the fingerprint cache *)

Definition CACHE_VERSION : Z := 1.

(** What opening and parsing the cache file gives: the file does not
    exist, [open] or [json.load] raises (unreadable, not gzip when gzip is
    expected, not JSON), or a value is parsed. *)
Inductive cache_file :=
| CacheMissing
| CacheUnreadable
| CacheParsed (data : pyval).

(** [{"version": CACHE_VERSION, "files": {}}]. *)
Definition empty_cache : pyval :=
  PDict [("version", PInt CACHE_VERSION); ("files", PDict [])].

Definition load_cache (file : cache_file) (encoding_name tokenizer : string)
    (max_file_tokens max_file_size : Z) (hash_mode : string)
    (cache_compress : bool) : pyval :=
  match file with
  | CacheMissing => empty_cache
  | CacheUnreadable => empty_cache
  | CacheParsed data =>
    match data with
    | PDict d =>
      if negb (py_eq_int (py_get d "version") CACHE_VERSION) then empty_cache
      else if negb (py_eq_str (py_get d "encoding") encoding_name) then empty_cache
      else if negb (py_eq_str (py_get d "tokenizer") tokenizer) then empty_cache
      else if negb (py_eq_int (py_get d "max_file_tokens") max_file_tokens) then empty_cache
      else if negb (py_eq_int (py_get d "max_file_size") max_file_size) then empty_cache
      else if negb (py_eq_str (py_get d "hash_mode") hash_mode) then empty_cache
      else if negb (py_eq_bool (py_get d "cache_compress") cache_compress) then empty_cache
      else if negb (dict_mem d "files") then empty_cache
      else data
    | _ => empty_cache  (* [data.get] raises AttributeError, caught *)
    end
  end.

(* ------------------------------------------------------------------ *)
(** ** Paths *)

Definition slash : ascii := "/"%char.
Definition dot : ascii := "."%char.

(** [s.split(sep)]. *)
Fixpoint split_on (sep : ascii) (s : string) : list string :=
  match s with
  | EmptyString => [EmptyString]
  | String c s' =>
    if (c =? sep)%char then EmptyString :: split_on sep s'
    else match split_on sep s' with
         | [] => [String c EmptyString]
         | h :: t => String c h :: t
         end
  end.

(** [Path(path).parts] of a relative path: the components between
    slashes, without the empty ones and the single dots. *)
Definition path_parts (path : string) : list string :=
  filter (fun p => negb ((p =? "")%string || (p =? ".")%string))
         (split_on slash path).

(** [Path(path).name]: the last component. *)
Definition path_name (path : string) : string := last (path_parts path) "".

(** The part of [s] from its last dot on, when it has one. *)
Fixpoint from_last_dot (s : string) : option string :=
  match s with
  | EmptyString => None
  | String c s' =>
    match from_last_dot s' with
    | Some t => Some t
    | None => if (c =? dot)%char then Some s else None
    end
  end.

(** [Path(path).suffix]: [name[i:]] for the last dot [i] of the name when
    [0 < i < len(name) - 1], else the empty string. *)
Definition path_suffix (path : string) : string :=
  match path_name path with
  | EmptyString => ""
  | String _ rest =>
    match from_last_dot rest with
    | Some t => if (String.length t =? 1)%nat then "" else t
    | None => ""
    end
  end.

(** [c.lower()] for a code point below 256. *)
Definition lower_char (c : ascii) : ascii :=
  let n := Z.of_N (N_of_ascii c) in
  if ((65 <=? n) && (n <=? 90)) || ((192 <=? n) && (n <=? 222) && negb (n =? 215))
  then ascii_of_N (Z.to_N (n + 32))
  else c.

Fixpoint lower (s : string) : string :=
  match s with
  | EmptyString => EmptyString
  | String c s' => String (lower_char c) (lower s')
  end.

(** [sep.join(parts)]. *)
Definition join (sep : string) (parts : list string) : string :=
  String.concat sep parts.

(** [l[:n]], also for a negative [n]. *)
Definition slice_to {A : Type} (n : Z) (l : list A) : list A :=
  if 0 <=? n then firstn (Z.to_nat n) l
  else firstn (Z.to_nat (len l + n)) l.

Definition group_label (path : string) (depth : Z) : string :=
  let parts := path_parts path in
  let key := if len parts <=? depth then join "/" parts
             else join "/" (slice_to depth parts) in
  if (key =? "")%string then "." else key.

(** [x in xs] for a collection of strings. *)
Definition str_in (x : string) (xs : list string) : bool :=
  existsb (String.eqb x) xs.

(* ------------------------------------------------------------------ *)
(** ** The text classifier *)

Definition TEXT_EXTENSIONS : list string :=
  [ ".py"; ".js"; ".ts"; ".jsx"; ".tsx"; ".vue"; ".svelte"; ".html";
    ".htm"; ".css"; ".scss"; ".sass"; ".less"; ".json"; ".yaml";
    ".yml"; ".toml"; ".xml"; ".md"; ".mdx"; ".txt"; ".rst"; ".sh";
    ".bash"; ".zsh"; ".fish"; ".ps1"; ".bat"; ".cmd"; ".sql";
    ".graphql"; ".gql"; ".proto"; ".go"; ".rs"; ".rb"; ".php";
    ".java"; ".kt"; ".kts"; ".scala"; ".clj"; ".cljs"; ".edn"; ".ex";
    ".exs"; ".erl"; ".hrl"; ".hs"; ".lhs"; ".ml"; ".mli"; ".fs";
    ".fsx"; ".fsi"; ".cs"; ".vb"; ".swift"; ".m"; ".mm"; ".h";
    ".hpp"; ".c"; ".cpp"; ".cc"; ".cxx"; ".r"; ".jl"; ".lua"; ".vim";
    ".el"; ".lisp"; ".scm"; ".rkt"; ".zig"; ".nim"; ".d"; ".dart";
    ".v"; ".sv"; ".vhd"; ".vhdl"; ".tf"; ".hcl"; ".dockerfile";
    ".containerfile"; ".makefile"; ".cmake"; ".gradle"; ".groovy";
    ".rake"; ".gemspec"; ".podspec"; ".cabal"; ".nix"; ".dhall";
    ".jsonc"; ".json5"; ".cson"; ".ini"; ".cfg"; ".conf"; ".config";
    ".env"; ".env.example"; ".env.local"; ".env.development";
    ".env.production"; ".gitignore"; ".gitattributes";
    ".editorconfig"; ".prettierrc"; ".eslintrc"; ".stylelintrc";
    ".babelrc"; ".nvmrc"; ".ruby-version"; ".python-version";
    ".node-version"; ".tool-versions" ]%string.

Definition TEXT_NAMES : list string :=
  [ "readme"; "license"; "licence"; "changelog"; "authors";
    "contributors"; "copying"; "dockerfile"; "containerfile";
    "makefile"; "rakefile"; "gemfile"; "procfile"; "brewfile";
    "vagrantfile"; "justfile"; "taskfile" ]%string.

(** What touches a file's content: the classifier's sniff ([open] and
    [f.read(8192)] in [is_text_file]), [read_bytes] in a task, and the
    token count of a task. *)
Inductive io_event :=
| EvSniff (path : string)
| EvRead (path : string)
| EvTokens (path : string).

(** What reading a file gives: an exception, or the bytes. *)
Inductive file_content :=
| ReadError (msg : string)
| Content (data : bytes).

(** [is_text_file(path)], with the reads it makes. *)
Definition is_text_file (path : string) (content : file_content)
    : bool * list io_event :=
  if str_in (lower (path_suffix path)) TEXT_EXTENSIONS then (true, [])
  else if str_in (lower (path_name path)) TEXT_NAMES then (true, [])
  else
    (match content with
     | ReadError _ => false
     | Content data =>
       let chunk := firstn (Z.to_nat 8192) data in
       if has_nul chunk then false
       else match utf8_decode Strict chunk with
            | Some _ => true
            | None => false
            end
     end, [EvSniff path]).

(* ------------------------------------------------------------------ *)
(** ** [fnmatch] *)

(** [fnmatch.fnmatch(name, pat)] for a pattern of literal characters, [?]
    (any one character) and [*] (any run of characters, slashes
    included); the whole name has to match. A [[] is read as a literal,
    which is Python's reading when no []] closes it: the model does not
    cover a pattern with a bracket expression, and
    [ENTRYPOINT_PATTERNS] has none. *)
Fixpoint glob (pat : list ascii) (name : list ascii) : bool :=
  match pat with
  | [] => match name with [] => true | _ => false end
  | p :: pat' =>
    if (p =? "*")%char then
      (fix star (n : list ascii) : bool :=
         glob pat' n || match n with
                        | [] => false
                        | _ :: n' => star n'
                        end) name
    else
      match name with
      | [] => false
      | c :: name' => ((p =? "?")%char || (p =? c)%char) && glob pat' name'
      end
  end.

Definition fnmatch (name pat : string) : bool :=
  glob (list_ascii_of_string pat) (list_ascii_of_string name).

Definition ENTRYPOINT_PATTERNS : list string :=
  [ "main.*"; "index.*"; "app.*"; "server.*"; "cli.*";
    "cmd/*/main.go"; "cmd/*/main.rs"; "cmd/*/main.py"; "bin/*";
    "src/main.*"; "src/index.*"; "src/app.*"; "src/server.*" ]%string.

(* ------------------------------------------------------------------ *)
(** ** [sorted] *)

(** [sorted] is stable: insertion from the right, where [x] goes before
    the first [y] it may precede, keeps elements of equal key in their
    order. [before x y] is [key(x) <= key(y)], and [key(x) >= key(y)]
    under [reverse=True]. *)
Fixpoint insert_by {A : Type} (before : A -> A -> bool) (x : A) (l : list A)
    : list A :=
  match l with
  | [] => [x]
  | y :: l' => if before x y then x :: l else y :: insert_by before x l'
  end.

Definition sorted_by {A : Type} (before : A -> A -> bool) (l : list A) : list A :=
  fold_right (insert_by before) [] l.

(* ------------------------------------------------------------------ *)
(** ** Records *)

(** An entry of [files]: [{path, tokens, size_bytes, mtime}] and
    [content_hash] when there is one. *)
Record FileRecord := {
  fr_path : string;
  fr_tokens : Z;
  fr_size_bytes : Z;
  fr_mtime : float;
  fr_content_hash : option string
}.

(** An entry of [skipped]: [{path, reason}], with [size_bytes] for
    [too_large] and [tokens] for [too_many_tokens]. *)
Record SkipRecord := {
  sk_path : string;
  sk_reason : string;
  sk_size_bytes : option Z;
  sk_tokens : option Z
}.

(** An entry of the cache's [files]; every key is read with [.get]. *)
Record CacheEntry := {
  ce_mtime : option float;
  ce_size : option Z;
  ce_tokens : option Z;
  ce_content_hash : option string
}.

(** An entry of [entrypoints]. *)
Record Entrypoint := {
  ep_path : string;
  ep_tokens : Z;
  ep_reason : string
}.

(** The truth value of an optional [str]: [None] and [""] are false. *)
Definition truthy (h : option string) : bool :=
  match h with
  | Some s => negb (s =? "")%string
  | None => false
  end.

(** [h if h else None]: what [if content_hash: entry["content_hash"] =
    content_hash] leaves in the entry. *)
Definition keep_truthy (h : option string) : option string :=
  if truthy h then h else None.

Definition path_le (a b : FileRecord) : bool := (fr_path a <=? fr_path b)%string.
Definition tokens_ge (a b : FileRecord) : bool := fr_tokens b <=? fr_tokens a.
Definition ep_tokens_ge (a b : Entrypoint) : bool := ep_tokens b <=? ep_tokens a.

(* ------------------------------------------------------------------ *)
(** ** The scanner *)

Section Scanner.

(** [str(x)] for a float [x] (its shortest [repr]). *)
Variable float_repr : float -> string.

(** [len(get_encoding(name).encode(text))], or [None] when tiktoken is
    not installed, the encoding is unknown or the encoder raises. *)
Variable tiktoken_encode : string -> text -> option Z.

(** The filters a candidate passes before it is looked at: the ignore
    patterns ([should_ignore]), the changed-files or changed-modules scope
    and the include and exclude globs. *)
Variable passes_filters : string -> bool.

(** *** Tokenizer *)

Definition heuristic_tokens (t : text) : Z := Z.max 1 (len t / 4).

(** The [try] of [count_tokens] catches every exception, so the function
    always returns. *)
Definition count_tokens (t : text) (tokenizer encoding_name : string) : Z :=
  if negb (tokenizer =? "tiktoken")%string then heuristic_tokens t
  else match tiktoken_encode encoding_name t with
       | Some n => n
       | None => heuristic_tokens t
       end.

(** *** Content hashes *)

Definition hash_bytes (data : bytes) : string := sha256_hexdigest data.

Definition hash_data_fast (data : bytes) : string :=
  let size := len data in
  let head := firstn (Z.to_nat 4096) data in
  let tail := if size >? 8192 then skipn (Z.to_nat (size - 4096)) data else [] in
  sha256_hexdigest (utf8_encode (str_int size) ++ head ++ tail).

(** *** Tasks *)

(** A task [(rel_path, abs_path, encoding_name, tokenizer, hash_mode,
    max_file_tokens)]; [abs_path] is the same file as [rel_path], seen
    from the root, and files are named here by their relative path. *)
Record Task := {
  t_rel_path : string;
  t_encoding_name : string;
  t_tokenizer : string;
  t_hash_mode : string;
  t_max_file_tokens : Z
}.

(** The dict a task returns: [{path, error}], [{path, skip}] with
    [tokens] for [too_many_tokens], or [{path, tokens, content_hash}]. *)
Inductive task_result :=
| TaskError (path : string) (error : string)
| TaskSkip (path : string) (skip : string) (tokens : option Z)
| TaskOk (path : string) (tokens : Z) (content_hash : option string).

(** What is on disk at a path: [path.stat()] ([None] when it raises) as
    [(st_size, st_mtime)], [path.is_symlink()], and what reading gives.
    The tree does not change during a scan. *)
Record FileInfo := {
  fi_stat : option (Z * float);
  fi_is_symlink : bool;
  fi_content : file_content
}.

Definition filesystem := string -> FileInfo.

(** [process_file_task(args)] with the reads it makes; [None] is an
    exception that leaves the function. The [except] around
    [count_tokens] is dead code, [count_tokens] raising nothing. *)
Definition process_file_task (fs : filesystem) (t : Task)
    : list io_event * option task_result :=
  let rel_path := t_rel_path t in
  match fi_content (fs rel_path) with
  | ReadError e => ([EvRead rel_path], Some (TaskError rel_path ("read_error: " ++ e)))
  | Content data =>
    if has_nul data then ([EvRead rel_path], Some (TaskSkip rel_path "binary" None))
    else
      match decode_text data with
      | None => ([EvRead rel_path], None)
      | Some txt =>
        let tokens := count_tokens txt (t_tokenizer t) (t_encoding_name t) in
        ([EvRead rel_path; EvTokens rel_path],
         if tokens >? t_max_file_tokens t
         then Some (TaskSkip rel_path "too_many_tokens" (Some tokens))
         else
           let content_hash :=
             if (t_hash_mode t =? "full")%string then Some (hash_bytes data)
             else if (t_hash_mode t =? "fast")%string then Some (hash_data_fast data)
             else None in
           Some (TaskOk rel_path tokens content_hash))
      end
  end.

(** *** Scan hash and module hashes *)

(** What [compute_scan_hash] feeds the hasher for one entry. *)
Definition scan_hash_update (e : FileRecord) : bytes :=
  utf8_encode (fr_path e)
  ++ utf8_encode (str_int (fr_size_bytes e))
  ++ utf8_encode (float_repr (fr_mtime e))
  ++ utf8_encode (str_int (fr_tokens e))
  ++ (if truthy (fr_content_hash e)
      then match fr_content_hash e with Some h => utf8_encode h | None => [] end
      else []).

Definition compute_scan_hash (files : list FileRecord) : string :=
  sha256_hexdigest (flat_map scan_hash_update (sorted_by path_le files)).

(** What [compute_module_hashes] feeds the hasher for one entry. *)
Definition module_hash_update (e : FileRecord) : bytes :=
  utf8_encode (fr_path e)
  ++ (if truthy (fr_content_hash e)
      then match fr_content_hash e with Some h => utf8_encode h | None => [] end
      else utf8_encode (str_int (fr_size_bytes e))
           ++ utf8_encode (float_repr (fr_mtime e))
           ++ utf8_encode (str_int (fr_tokens e))).

(** [groups.setdefault(label, []).append(entry)]. *)
Definition add_to_group (depth : Z) (groups : dict (list FileRecord))
    (e : FileRecord) : dict (list FileRecord) :=
  let label := group_label (fr_path e) depth in
  match dict_get groups label with
  | Some entries => dict_set groups label (entries ++ [e])
  | None => dict_set groups label [e]
  end.

Definition module_groups (files : list FileRecord) (depth : Z)
    : dict (list FileRecord) :=
  fold_left (add_to_group depth) files [].

Definition module_digest (entries : list FileRecord) : string :=
  sha256_hexdigest (flat_map module_hash_update (sorted_by path_le entries)).

Definition compute_module_hashes (files : list FileRecord) (depth : Z)
    : dict string :=
  map (fun g => (fst g, module_digest (snd g))) (module_groups files depth).

(** *** Entrypoints and top files *)

(** [fnmatch(path, pattern) or fnmatch(path, f"**/{pattern}")]. *)
Definition entry_pattern_matches (path pattern : string) : bool :=
  fnmatch path pattern || fnmatch path ("**/" ++ pattern).

(** The inner loop of [detect_entrypoints]: the first pattern that
    matches gives the entry, and [break]. *)
Definition entrypoint_of (f : FileRecord) : list Entrypoint :=
  match find (entry_pattern_matches (fr_path f)) ENTRYPOINT_PATTERNS with
  | Some pattern =>
    [ {| ep_path := fr_path f; ep_tokens := fr_tokens f;
         ep_reason := "pattern:" ++ pattern |} ]
  | None => []
  end.

Definition detect_entrypoints (files : list FileRecord) (limit : Z)
    : list Entrypoint :=
  let entrypoints := sorted_by ep_tokens_ge (flat_map entrypoint_of files) in
  if limit >? 0 then firstn (Z.to_nat limit) entrypoints else entrypoints.

Definition top_files_by_tokens (files : list FileRecord) (limit : Z)
    : list FileRecord :=
  if limit <=? 0 then []
  else firstn (Z.to_nat limit) (sorted_by tokens_ge files).

(** *** Changed and removed modules *)

(** The two loops under [if isinstance(prev_hashes, dict)]: the labels of
    [module_hashes] whose previous value is not their digest, and the
    previous labels that [module_hashes] lacks. *)
Definition diff_modules (prev_hashes : pyval) (module_hashes : dict string)
    : list string * list string :=
  match prev_hashes with
  | PDict ph =>
    (map fst (filter (fun ld => negb (py_eq_str (py_get ph (fst ld)) (snd ld)))
                     module_hashes),
     filter (fun label => negb (dict_mem module_hashes label)) (dict_keys ph))
  | _ => ([], [])
  end.

(** *** The fingerprint cache: hit test *)

(** The arguments of [scan_directory] the model reads. [cache_enabled]
    stands for [cache_enabled and cache_path is not None]. *)
Record Config := {
  encoding_name : string;
  tokenizer : string;
  max_file_tokens : Z;
  max_file_size : Z;
  follow_symlinks : bool;
  hash_mode : string;
  entrypoints_limit : Z;
  top_files_limit : Z;
  module_depth : Z;
  cache_enabled : bool
}.

(** [cache_entry.get("mtime") == stat.st_mtime]: a missing key gives
    [None], which equals no float. *)
Definition mtime_eq (stored : option float) (st_mtime : float) : bool :=
  match stored with
  | Some m => PrimFloat.eqb m st_mtime
  | None => false
  end.

Definition size_eq (stored : option Z) (st_size : Z) : bool :=
  match stored with
  | Some n => n =? st_size
  | None => false
  end.

(** [cache_entry and cache_entry.get("mtime") == stat.st_mtime and
    cache_entry.get("size") == stat.st_size], as a truth value. *)
Definition cache_hit (cache_entry : option CacheEntry) (st_size : Z)
    (st_mtime : float) : bool :=
  match cache_entry with
  | Some e => mtime_eq (ce_mtime e) st_mtime && size_eq (ce_size e) st_size
  | None => false
  end.

(** [not cache_hit or hash_mode == "full" or (hash_mode != "mtime" and
    cache_entry and not cache_entry.get("content_hash"))]. *)
Definition needs_read (mode : string) (cache_entry : option CacheEntry)
    (hit : bool) : bool :=
  negb hit
  || (mode =? "full")%string
  || (negb (mode =? "mtime")%string
      && match cache_entry with
         | Some e => negb (truthy (ce_content_hash e))
         | None => false
         end).

(** *** The scan loop *)

(** The collections [scan_directory] fills, and the reads made so far. *)
Record ScanState := {
  files : list FileRecord;
  skipped : list SkipRecord;
  total_tokens : Z;
  cache_hits : Z;
  cache_misses : Z;
  tasks : list Task;
  task_meta : dict (Z * float);
  new_cache_files : dict CacheEntry;
  io_log : list io_event
}.

Definition initial_state : ScanState :=
  {| files := []; skipped := []; total_tokens := 0; cache_hits := 0;
     cache_misses := 0; tasks := []; task_meta := []; new_cache_files := [];
     io_log := [] |}.

Definition skip (st : ScanState) (r : SkipRecord) : ScanState :=
  {| files := files st; skipped := skipped st ++ [r];
     total_tokens := total_tokens st; cache_hits := cache_hits st;
     cache_misses := cache_misses st; tasks := tasks st;
     task_meta := task_meta st; new_cache_files := new_cache_files st;
     io_log := io_log st |}.

Definition log (st : ScanState) (evs : list io_event) : ScanState :=
  {| files := files st; skipped := skipped st;
     total_tokens := total_tokens st; cache_hits := cache_hits st;
     cache_misses := cache_misses st; tasks := tasks st;
     task_meta := task_meta st; new_cache_files := new_cache_files st;
     io_log := io_log st ++ evs |}.

(** [files.append(entry)], [total_tokens += tokens] and, when the cache
    is on, [new_cache_files[rel_path] = {mtime, size, tokens}] with
    [content_hash] when there is one. *)
Definition record_file (c : Config) (st : ScanState) (e : FileRecord)
    : ScanState :=
  {| files := files st ++ [e]; skipped := skipped st;
     total_tokens := total_tokens st + fr_tokens e;
     cache_hits := cache_hits st; cache_misses := cache_misses st;
     tasks := tasks st; task_meta := task_meta st;
     new_cache_files :=
       if cache_enabled c
       then dict_set (new_cache_files st) (fr_path e)
              {| ce_mtime := Some (fr_mtime e); ce_size := Some (fr_size_bytes e);
                 ce_tokens := Some (fr_tokens e);
                 ce_content_hash := fr_content_hash e |}
       else new_cache_files st;
     io_log := io_log st |}.

Definition count_hit (st : ScanState) : ScanState :=
  {| files := files st; skipped := skipped st;
     total_tokens := total_tokens st; cache_hits := cache_hits st + 1;
     cache_misses := cache_misses st; tasks := tasks st;
     task_meta := task_meta st; new_cache_files := new_cache_files st;
     io_log := io_log st |}.

Definition count_miss (st : ScanState) : ScanState :=
  {| files := files st; skipped := skipped st;
     total_tokens := total_tokens st; cache_hits := cache_hits st;
     cache_misses := cache_misses st + 1; tasks := tasks st;
     task_meta := task_meta st; new_cache_files := new_cache_files st;
     io_log := io_log st |}.

(** [task_meta[rel_path] = {size, mtime}] and [tasks.append(...)]. *)
Definition dispatch (c : Config) (st : ScanState) (rel_path : string)
    (st_size : Z) (st_mtime : float) : ScanState :=
  {| files := files st; skipped := skipped st;
     total_tokens := total_tokens st; cache_hits := cache_hits st;
     cache_misses := cache_misses st;
     tasks := tasks st ++ [ {| t_rel_path := rel_path;
                              t_encoding_name := encoding_name c;
                              t_tokenizer := tokenizer c;
                              t_hash_mode := hash_mode c;
                              t_max_file_tokens := max_file_tokens c |} ];
     task_meta := dict_set (task_meta st) rel_path (st_size, st_mtime);
     new_cache_files := new_cache_files st;
     io_log := io_log st |}.

(** The entry of a file served from the cache. *)
Definition hit_record (c : Config) (rel_path : string) (e : CacheEntry)
    (st_size : Z) (st_mtime : float) : FileRecord :=
  let tokens := match ce_tokens e with Some n => n | None => 0 end in
  let content_hash :=
    if negb (hash_mode c =? "mtime")%string then ce_content_hash e else None in
  {| fr_path := rel_path; fr_tokens := tokens; fr_size_bytes := st_size;
     fr_mtime := st_mtime; fr_content_hash := keep_truthy content_hash |}.

(** The body of [for path in file_iter], for a candidate given by its
    path relative to the root (a candidate outside the root is dropped
    before this). The name and the suffix the classifier looks at are
    those of the last component, the same for the relative path. *)
Definition scan_file (c : Config) (fs : filesystem)
    (cache_files : dict CacheEntry) (st : ScanState) (rel_path : string)
    : ScanState :=
  if negb (passes_filters rel_path) then st
  else
    match fi_stat (fs rel_path) with
    | None =>
      skip st {| sk_path := rel_path; sk_reason := "stat_error";
                 sk_size_bytes := None; sk_tokens := None |}
    | Some (st_size, st_mtime) =>
      if negb (follow_symlinks c) && fi_is_symlink (fs rel_path) then
        skip st {| sk_path := rel_path; sk_reason := "symlink";
                   sk_size_bytes := None; sk_tokens := None |}
      else if st_size >? max_file_size c then
        skip st {| sk_path := rel_path; sk_reason := "too_large";
                   sk_size_bytes := Some st_size; sk_tokens := None |}
      else
        let (is_text, reads) := is_text_file rel_path (fi_content (fs rel_path)) in
        let st := log st reads in
        if negb is_text then
          skip st {| sk_path := rel_path; sk_reason := "binary";
                     sk_size_bytes := None; sk_tokens := None |}
        else
          let cache_entry := dict_get cache_files rel_path in
          let hit := cache_hit cache_entry st_size st_mtime in
          match (if needs_read (hash_mode c) cache_entry hit then None
                 else cache_entry) with
          | Some e =>
            record_file c (count_hit st) (hit_record c rel_path e st_size st_mtime)
          | None => dispatch c st rel_path st_size st_mtime
          end
    end.

Definition scan_files (c : Config) (fs : filesystem)
    (cache_files : dict CacheEntry) (candidates : list string) : ScanState :=
  fold_left (scan_file c fs cache_files) candidates initial_state.

(** *** Running the tasks *)

(** What the loop over the results does with one result. With one worker
    or several the results come in the order of [tasks]
    ([executor.map]) and are merged by the same code. [task_meta] has an
    entry for the path of every task, so the defaults of [meta.get] are
    not used. *)
Definition merge_result (c : Config) (st : ScanState) (r : task_result)
    : ScanState :=
  let st := count_miss st in
  let rel_path := match r with
                  | TaskError p _ | TaskSkip p _ _ | TaskOk p _ _ => p
                  end in
  if (rel_path =? "")%string then st
  else
    let meta := match dict_get (task_meta st) rel_path with
                | Some m => m
                | None => (0, 0%float)
                end in
    match r with
    | TaskError _ error =>
      skip st {| sk_path := rel_path; sk_reason := error;
                 sk_size_bytes := None; sk_tokens := None |}
    | TaskSkip _ reason tokens =>
      skip st {| sk_path := rel_path; sk_reason := reason;
                 sk_size_bytes := None;
                 sk_tokens :=
                   if (reason =? "too_many_tokens")%string
                   then Some (match tokens with Some n => n | None => 0 end)
                   else None |}
    | TaskOk _ tokens content_hash =>
      record_file c st
        {| fr_path := rel_path; fr_tokens := tokens;
           fr_size_bytes := fst meta; fr_mtime := snd meta;
           fr_content_hash := keep_truthy content_hash |}
    end.

Fixpoint run_tasks (c : Config) (fs : filesystem) (ts : list Task)
    (st : ScanState) : option ScanState :=
  match ts with
  | [] => Some st
  | t :: ts' =>
    let (reads, result) := process_file_task fs t in
    match result with
    | None => None
    | Some r => run_tasks c fs ts' (merge_result c (log st reads) r)
    end
  end.

(** *** The scan result *)

(** The fields of the result the model keeps, the cache file written at
    the end ([None] when the cache is off) and the reads made. *)
Record ScanResult := {
  r_files : list FileRecord;
  r_total_tokens : Z;
  r_total_files : Z;
  r_skipped : list SkipRecord;
  r_cache_hits : Z;
  r_cache_misses : Z;
  r_scan_hash : string;
  r_entrypoints : list Entrypoint;
  r_top_files : list FileRecord;
  r_module_hashes : dict string;
  r_changed_modules : option (list string);
  r_removed_modules : option (list string);
  r_saved_cache : option (dict CacheEntry);
  r_reads : list io_event
}.

(** [prev_data.get("module_hashes", {})] for the previous result read by
    [load_json]; [None] when [prev_data] has no [get]. *)
Definition prev_module_hashes (prev_data : pyval) : option pyval :=
  match prev_data with
  | PDict d => Some (match dict_get d "module_hashes" with
                     | Some v => v
                     | None => PDict []
                     end)
  | _ => None
  end.

(** [scan_directory], from the candidates the enumerator yields, the
    entries of the loaded cache and the previous result when
    [prev_scan_path] is given. [None] is an exception that leaves the
    function. *)
Definition scan_directory (c : Config) (fs : filesystem)
    (cache_files : dict CacheEntry) (candidates : list string)
    (prev_scan : option pyval) : option ScanResult :=
  let st0 := scan_files c fs cache_files candidates in
  match run_tasks c fs (tasks st0) st0 with
  | None => None
  | Some st =>
    let module_hashes := compute_module_hashes (files st) (module_depth c) in
    let diff :=
      match prev_scan with
      | None => Some (None, None)
      | Some prev_data =>
        match prev_module_hashes prev_data with
        | None => None
        | Some prev_hashes =>
          let d := diff_modules prev_hashes module_hashes in
          Some (Some (fst d), Some (snd d))
        end
      end in
    match diff with
    | None => None
    | Some (changed, removed) =>
      Some {| r_files := files st;
              r_total_tokens := total_tokens st;
              r_total_files := len (files st);
              r_skipped := skipped st;
              r_cache_hits := cache_hits st;
              r_cache_misses := cache_misses st;
              r_scan_hash := compute_scan_hash (files st);
              r_entrypoints := detect_entrypoints (files st) (entrypoints_limit c);
              r_top_files := top_files_by_tokens (files st) (top_files_limit c);
              r_module_hashes := module_hashes;
              r_changed_modules := changed;
              r_removed_modules := removed;
              r_saved_cache :=
                if cache_enabled c then Some (new_cache_files st) else None;
              r_reads := io_log st |}
    end
  end.

(** *** The classifier as the specification words it *)

(** The words of the specification, said without the functions of the
    classifier: case-insensitive, a NUL byte, strict UTF-8. *)

(** The code point of a character. *)
Definition code (c : ascii) : Z := Z.of_N (N_of_ascii c).

(** [c] is the character [d], or the capital of the letter [d]. *)
Definition same_letter (c d : ascii) : Prop :=
  c = d \/ (97 <= code d <= 122 /\ code c = code d - 32).

(** [s] is [t] but for the case of its letters: [t] is in lower case and
    [s] has, place by place, the character of [t] or its capital. *)
Fixpoint spells (s t : string) : Prop :=
  match s, t with
  | EmptyString, EmptyString => True
  | String c s', String d t' => same_letter c d /\ spells s' t'
  | _, _ => False
  end.

(** The extension of the path is a known-text extension, or its bare name
    a known-text name, case-insensitively. *)
Definition known_text (path : string) : Prop :=
  (exists ext, In ext TEXT_EXTENSIONS /\ spells (path_suffix path) ext)
  \/ (exists name, In name TEXT_NAMES /\ spells (path_name path) name).

(** The byte [b] lies between [lo] and [hi]. *)
Definition in_range (lo hi : Z) (b : byte) : Prop := lo <= byte_val b <= hi.

(** The byte sequence of one character, after the table of well-formed
    UTF-8 byte sequences of the Unicode Standard (table 3-7): one byte
    below [0x80]; a lead byte [0xC2..0xDF] and one continuation byte
    [0x80..0xBF]; a lead byte [0xE0..0xEF] and two, the first not below
    [0xA0] after [0xE0] (overlong) and below [0xA0] after [0xED]
    (surrogates); a lead byte [0xF0..0xF4] and three, the first not
    below [0x90] after [0xF0] (overlong) and below [0x90] after [0xF4]
    (beyond U+10FFFF). *)
Inductive utf8_sequence : bytes -> Prop :=
| seq_1 b : in_range 0 127 b -> utf8_sequence [b]
| seq_2 b b1 : in_range 194 223 b -> in_range 128 191 b1 -> utf8_sequence [b; b1]
| seq_3_e0 b b1 b2 :
    in_range 224 224 b -> in_range 160 191 b1 -> in_range 128 191 b2 ->
    utf8_sequence [b; b1; b2]
| seq_3 b b1 b2 :
    in_range 225 236 b \/ in_range 238 239 b ->
    in_range 128 191 b1 -> in_range 128 191 b2 ->
    utf8_sequence [b; b1; b2]
| seq_3_ed b b1 b2 :
    in_range 237 237 b -> in_range 128 159 b1 -> in_range 128 191 b2 ->
    utf8_sequence [b; b1; b2]
| seq_4_f0 b b1 b2 b3 :
    in_range 240 240 b -> in_range 144 191 b1 -> in_range 128 191 b2 ->
    in_range 128 191 b3 -> utf8_sequence [b; b1; b2; b3]
| seq_4 b b1 b2 b3 :
    in_range 241 243 b -> in_range 128 191 b1 -> in_range 128 191 b2 ->
    in_range 128 191 b3 -> utf8_sequence [b; b1; b2; b3]
| seq_4_f4 b b1 b2 b3 :
    in_range 244 244 b -> in_range 128 143 b1 -> in_range 128 191 b2 ->
    in_range 128 191 b3 -> utf8_sequence [b; b1; b2; b3].

(** Well-formed UTF-8: such sequences, one after the other. *)
Inductive well_formed_utf8 : bytes -> Prop :=
| wf_empty : well_formed_utf8 []
| wf_sequence s rest :
    utf8_sequence s -> well_formed_utf8 rest -> well_formed_utf8 (s ++ rest).

(** A character that [lower] leaves alone and that is the lower case of
    no character above 127. *)
Definition plain (d : ascii) : bool :=
  (code d <? 128) && negb ((65 <=? code d) && (code d <=? 90)).

(** *** Vocabulary of the properties *)

(** What one candidate adds to the collections: the body of the loop run
    on the empty state. *)
Definition step (c : Config) (fs : filesystem) (cache_files : dict CacheEntry)
    (rel_path : string) : ScanState :=
  scan_file c fs cache_files initial_state rel_path.

(** The task [dispatch] appends for a candidate. *)
Definition task_of (c : Config) (rel_path : string) : Task :=
  {| t_rel_path := rel_path; t_encoding_name := encoding_name c;
     t_tokenizer := tokenizer c; t_hash_mode := hash_mode c;
     t_max_file_tokens := max_file_tokens c |}.

(** The file a read or a result is about. *)
Definition event_path (ev : io_event) : string :=
  match ev with
  | EvSniff p | EvRead p | EvTokens p => p
  end.

Definition result_path (r : task_result) : string :=
  match r with
  | TaskError p _ | TaskSkip p _ _ | TaskOk p _ _ => p
  end.

(** The candidates that get as far as the cache lookup: they pass the
    filters, [stat] succeeds, they are not unfollowed symlinks, they are
    within the size ceiling and the classifier takes them for text. *)
Definition reaches_cache (c : Config) (fs : filesystem) (p : string)
    (st_size : Z) (st_mtime : float) : Prop :=
  passes_filters p = true
  /\ fi_stat (fs p) = Some (st_size, st_mtime)
  /\ negb (follow_symlinks c) && fi_is_symlink (fs p) = false
  /\ st_size <= max_file_size c
  /\ fst (is_text_file p (fi_content (fs p))) = true.

(** The skip record of a candidate over the size ceiling. *)
Definition oversize_record (c : Config) (fs : filesystem) (p : string)
    (st_size : Z) : SkipRecord :=
  if negb (follow_symlinks c) && fi_is_symlink (fs p)
  then {| sk_path := p; sk_reason := "symlink";
          sk_size_bytes := None; sk_tokens := None |}
  else {| sk_path := p; sk_reason := "too_large";
          sk_size_bytes := Some st_size; sk_tokens := None |}.

(** No file record and no entry of the new cache holds a content hash. *)
Definition hashless (st : ScanState) : Prop :=
  (forall e, In e (files st) -> fr_content_hash e = None)
  /\ (forall p e, In (p, e) (new_cache_files st) -> ce_content_hash e = None).

(** The files under a module label. *)
Definition in_module (depth : Z) (label : string) (e : FileRecord) : bool :=
  (group_label (fr_path e) depth =? label)%string.

(** Records that share a path are the same record. *)
Definition paths_identify (fl : list FileRecord) : Prop :=
  forall x y, In x fl -> In y fl -> fr_path x = fr_path y -> x = y.

(** The entry of a file at [cmd/worker/main.go]. *)
Definition worker_main_entry (tokens : Z) : Entrypoint :=
  {| ep_path := "cmd/worker/main.go"; ep_tokens := tokens;
     ep_reason := "pattern:main.*" |}.

(** The previous result, when one is given, is a JSON object (so that
    [prev_data.get] does not raise). *)
Definition prev_is_object (prev : option pyval) : Prop :=
  forall v, prev = Some v -> exists d, v = PDict d.

(** The fields of a result the examples look at: the paths of [files],
    the paths and reasons of [skipped], the two cache counters and the
    reads. *)
Definition outcome (r : option ScanResult)
    : option (list string * list (string * string) * Z * Z * list io_event) :=
  match r with
  | Some r => Some (map fr_path (r_files r),
                    map (fun s => (sk_path s, sk_reason s)) (r_skipped r),
                    r_cache_hits r, r_cache_misses r, r_reads r)
  | None => None
  end.

End Scanner.

(** Sorted for [before]: every element may precede all the later ones. *)
Definition ordered {A : Type} (before : A -> A -> bool) : list A -> Prop :=
  StronglySorted (fun x y => before x y = true).

(* ------------------------------------------------------------------ *)
(** ** Sample runs *)

(** [str] of a float on the float of the examples, [0.0]. *)
Definition repr_of_zero : float -> string := fun _ => "0.0".

(** tiktoken is not installed: [get_encoding] raises. *)
Definition no_encoder : string -> text -> option Z := fun _ _ => None.

(** No ignore pattern and no include, exclude or changed filter. *)
Definition all_pass : string -> bool := fun _ => true.

(** A run with the heuristic tokenizer, a size ceiling of 16 bytes, the
    cache on and symlinks not followed. *)
Definition sample_config (mode : string) (token_ceiling limit : Z) : Config :=
  {| encoding_name := "cl100k_base"; tokenizer := "heuristic";
     max_file_tokens := token_ceiling; max_file_size := 16;
     follow_symlinks := false; hash_mode := mode;
     entrypoints_limit := limit; top_files_limit := 20; module_depth := 1;
     cache_enabled := true |}.

(** [b"\xff\xfehello!!!"]: no NUL byte, and not UTF-8. *)
Definition undecodable : bytes :=
  map byte_of_Z [255; 254; 104; 101; 108; 108; 111; 33; 33; 33].

(** A tree: [a.py] (8 bytes), [big.py] (24 bytes), [link.py] (a symlink
    to a file of 24 bytes) and [notes.txt] (10 bytes, not UTF-8). *)
Definition sample_tree : filesystem := fun p =>
  if (p =? "a.py")%string then
    {| fi_stat := Some (8, 0%float); fi_is_symlink := false;
       fi_content := Content (raw_bytes "print(1)") |}
  else if (p =? "big.py")%string then
    {| fi_stat := Some (24, 0%float); fi_is_symlink := false;
       fi_content := Content (raw_bytes "print(1);print(2);print(") |}
  else if (p =? "link.py")%string then
    {| fi_stat := Some (24, 0%float); fi_is_symlink := true;
       fi_content := Content (raw_bytes "print(1);print(2);print(") |}
  else if (p =? "notes.txt")%string then
    {| fi_stat := Some (10, 0%float); fi_is_symlink := false;
       fi_content := Content undecodable |}
  else
    {| fi_stat := None; fi_is_symlink := false;
       fi_content := ReadError "No such file or directory" |}.

(** The cache a run under [full] left for [a.py]. *)
Definition a_py_entry : CacheEntry :=
  {| ce_mtime := Some 0%float; ce_size := Some 8; ce_tokens := Some 2;
     ce_content_hash :=
       Some "d287bb7f9d15abdc5b6e98536263815744b6ef21c8f3c839fc434ca70d8efe99" |}.

Definition sample_cache : dict CacheEntry := [("a.py", a_py_entry)].

(** One path listed twice, with two token counts. *)
Definition twice_listed : list FileRecord :=
  [ {| fr_path := "a.py"; fr_tokens := 1; fr_size_bytes := 8;
       fr_mtime := 0%float; fr_content_hash := None |};
    {| fr_path := "a.py"; fr_tokens := 2; fr_size_bytes := 8;
       fr_mtime := 0%float; fr_content_hash := None |} ].

(** Two files under two modules. *)
Definition two_files : list FileRecord :=
  [ {| fr_path := "lib/b.py"; fr_tokens := 5; fr_size_bytes := 20;
       fr_mtime := 0%float; fr_content_hash := None |};
    {| fr_path := "main.py"; fr_tokens := 2; fr_size_bytes := 8;
       fr_mtime := 0%float; fr_content_hash := None |} ].

(** Eight times U+00E9 in UTF-8: sixteen bytes, eight characters. *)
Definition accented : bytes :=
  map byte_of_Z [195; 169; 195; 169; 195; 169; 195; 169;
                 195; 169; 195; 169; 195; 169; 195; 169].

(** A file at [cmd/worker/main.go]. *)
Definition worker_main : FileRecord :=
  {| fr_path := "cmd/worker/main.go"; fr_tokens := 7; fr_size_bytes := 28;
     fr_mtime := 0%float; fr_content_hash := None |}.

(** A previous result whose [module_hashes] is empty. *)
Definition first_scan : pyval := PDict [("module_hashes", PDict [])].

(** A cache file written by a run under [mtime]. *)
Definition mtime_cache_file : dict pyval :=
  [ ("version", PInt 1); ("encoding", PStr "cl100k_base");
    ("tokenizer", PStr "heuristic"); ("max_file_tokens", PInt 50000);
    ("max_file_size", PInt 16); ("hash_mode", PStr "mtime");
    ("cache_compress", PBool false);
    ("files", PDict [("a.py", PDict [("mtime", PFloat 0%float);
                                     ("size", PInt 8); ("tokens", PInt 2)])]) ].

(* ------------------------------------------------------------------ *)
(** ** What a scan leaves *)

(** The records, the skip records and the cache entries that the loop
    and the tasks add, candidate by candidate: the vocabulary of the
    properties of the scan as a whole. *)

(** [sum(f["tokens"] for f in files)]. *)
Definition sum_tokens (l : list FileRecord) : Z :=
  fold_right (fun e acc => fr_tokens e + acc) 0 l.

(** The cache entry written for a record. *)
Definition entry_of (e : FileRecord) : CacheEntry :=
  {| ce_mtime := Some (fr_mtime e); ce_size := Some (fr_size_bytes e);
     ce_tokens := Some (fr_tokens e); ce_content_hash := fr_content_hash e |}.

Definition cache_set (d : dict CacheEntry) (e : FileRecord) : dict CacheEntry :=
  dict_set d (fr_path e) (entry_of e).

(** The record and the skip record that merging a result adds. *)
Definition merged_files (meta : dict (Z * float)) (r : task_result) : list FileRecord :=
  match r with
  | TaskOk p tokens h =>
    if (p =? "")%string then []
    else let m := match dict_get meta p with Some m => m | None => (0, 0%float) end in
         [ {| fr_path := p; fr_tokens := tokens; fr_size_bytes := fst m;
              fr_mtime := snd m; fr_content_hash := keep_truthy h |} ]
  | _ => []
  end.

Definition merged_skips (r : task_result) : list SkipRecord :=
  match r with
  | TaskError p error =>
    if (p =? "")%string then []
    else [ {| sk_path := p; sk_reason := error; sk_size_bytes := None; sk_tokens := None |} ]
  | TaskSkip p reason tokens =>
    if (p =? "")%string then []
    else [ {| sk_path := p; sk_reason := reason; sk_size_bytes := None;
              sk_tokens := if (reason =? "too_many_tokens")%string
                           then Some (match tokens with Some n => n | None => 0 end)
                           else None |} ]
  | TaskOk _ _ _ => []
  end.

(** [d.update(kvs)]. *)
Definition dict_update {V : Type} (d : dict V) (kvs : list (string * V)) : dict V :=
  fold_left (fun d kv => dict_set d (fst kv) (snd kv)) kvs d.

(** [sum(f(x) for x in l)]. *)
Definition sum_of {A : Type} (f : A -> Z) (l : list A) : Z :=
  fold_right (fun x acc => f x + acc) 0 l.

Section ClosedFormsDefs.

Variable tiktoken_encode : string -> text -> option Z.
Variable fs : filesystem.

(** What the tasks add, in closed form. *)
Definition task_files (meta : dict (Z * float)) (t : Task) : list FileRecord :=
  match snd (process_file_task tiktoken_encode fs t) with
  | Some r => merged_files meta r
  | None => []
  end.

Definition task_skips (t : Task) : list SkipRecord :=
  match snd (process_file_task tiktoken_encode fs t) with
  | Some r => merged_skips r
  | None => []
  end.

End ClosedFormsDefs.

Section CandidatesDefs.

Variable tiktoken_encode : string -> text -> option Z.
Variable passes_filters : string -> bool.
Variable c : Config.
Variable fs : filesystem.
Variable cache_files : dict CacheEntry.

Abbreviation step1 := (step passes_filters c fs cache_files).

(** The records a candidate leaves in [files]: the one served from the
    cache, and the one its task returns. *)
Definition served (p : string) : list FileRecord := files (step1 p).

Definition measured (p : string) : list FileRecord :=
  flat_map (task_files tiktoken_encode fs (task_meta (step1 p))) (tasks (step1 p)).

(** The skip records a candidate leaves: in the loop, and from its task. *)
Definition refused (p : string) : list SkipRecord :=
  skipped (step1 p) ++ flat_map (task_skips tiktoken_encode fs) (tasks (step1 p)).

(** The content hash a task computes under a hash mode. *)
Definition hash_under (mode : string) (data : bytes) : option string :=
  if (mode =? "full")%string then Some (hash_bytes data)
  else if (mode =? "fast")%string then Some (hash_data_fast data)
  else None.

(** A record measured from the content of the file. *)
Definition measured_from (p : string) (st_size : Z) (st_mtime : float)
    (data : bytes) (txt : text) : FileRecord :=
  {| fr_path := p;
     fr_tokens := count_tokens tiktoken_encode txt (tokenizer c) (encoding_name c);
     fr_size_bytes := st_size; fr_mtime := st_mtime;
     fr_content_hash := keep_truthy (hash_under (hash_mode c) data) |}.

End CandidatesDefs.

(** The skip record of a file over the token ceiling. *)
Definition too_many_tokens_record (p : string) (tokens : Z) : SkipRecord :=
  {| sk_path := p; sk_reason := "too_many_tokens"; sk_size_bytes := None;
     sk_tokens := Some tokens |}.

(** The cache file written for a list of records: one entry a record,
    in the order of the records. *)
Definition cache_of (files : list FileRecord) : dict CacheEntry :=
  fold_left cache_set files [].

(* ------------------------------------------------------------------ *)
(** ** [str] methods *)

(** [c.isspace()] for a code point below 256. *)
Definition is_space (c : ascii) : bool :=
  let n := Z.of_N (N_of_ascii c) in
  ((9 <=? n) && (n <=? 13)) || ((28 <=? n) && (n <=? 32)) || (n =? 133) || (n =? 160).

(** [s.lstrip(...)] and [s.rstrip(...)], for the characters to drop. *)
Fixpoint lstrip_by (drop : ascii -> bool) (s : string) : string :=
  match s with
  | EmptyString => EmptyString
  | String c s' => if drop c then lstrip_by drop s' else s
  end.

Fixpoint rstrip_by (drop : ascii -> bool) (s : string) : string :=
  match s with
  | EmptyString => EmptyString
  | String c s' =>
    match rstrip_by drop s' with
    | EmptyString => if drop c then EmptyString else String c EmptyString
    | rest => String c rest
    end
  end.

(** [s.strip()]. *)
Definition strip (s : string) : string := rstrip_by is_space (lstrip_by is_space s).

(** [c in chars]. *)
Definition char_in (chars : string) (c : ascii) : bool :=
  existsb (Ascii.eqb c) (list_ascii_of_string chars).

(** [s.lstrip(chars)]. *)
Definition lstrip_chars (chars s : string) : string := lstrip_by (char_in chars) s.

(** [s.startswith(t)] and [s.endswith(t)]. *)
Definition startswith (s t : string) : bool := String.prefix t s.

Fixpoint endswith (s t : string) : bool :=
  (s =? t)%string
  || match s with
     | EmptyString => false
     | String _ s' => endswith s' t
     end.

(** [s[1:]] and [s[:-1]]. *)
Definition drop_first (s : string) : string :=
  match s with
  | EmptyString => EmptyString
  | String _ s' => s'
  end.

Definition drop_last (s : string) : string :=
  substring 0 (String.length s - 1) s.

(** The line boundaries of [str.splitlines] below 256. *)
Definition is_line_break (c : ascii) : bool :=
  let n := Z.of_N (N_of_ascii c) in
  ((10 <=? n) && (n <=? 13)) || ((28 <=? n) && (n <=? 30)) || (n =? 133).

(** [s.splitlines()]: the lines without their ends; a carriage return
    followed by a line feed is one end. *)
Fixpoint splitlines (s : string) : list string :=
  match s with
  | EmptyString => []
  | String c s' =>
    if is_line_break c then
      EmptyString ::
      match s' with
      | String c' s'' =>
        if (c =? "013")%char && (c' =? "010")%char then splitlines s''
        else splitlines s'
      | EmptyString => []
      end
    else
      match splitlines s' with
      | [] => [String c EmptyString]
      | line :: rest => String c line :: rest
      end
  end.

(** [f.readlines()], and the lines of [for line in f], for the text of a
    file as [open] gives it in text mode, every line end a line feed:
    each line with its line feed. *)
Fixpoint readlines (s : string) : list string :=
  match s with
  | EmptyString => []
  | String c s' =>
    if (c =? "010")%char then String c EmptyString :: readlines s'
    else
      match readlines s' with
      | [] => [String c EmptyString]
      | line :: rest => String c line :: rest
      end
  end.

(* ------------------------------------------------------------------ *)
(** ** Ignore patterns *)

Definition DEFAULT_IGNORE_PATTERNS : list string :=
  [ "**/.git/"; "**/.svn/"; "**/.hg/"; "**/.idea/"; "**/.vscode/";
    "**/.cache/"; "**/node_modules/"; "**/__pycache__/";
    "**/.pytest_cache/"; "**/.mypy_cache/"; "**/.ruff_cache/";
    "**/venv/"; "**/.venv/"; "**/env/"; "**/.env/"; "**/dist/";
    "**/build/"; "**/.next/"; "**/.nuxt/"; "**/.output/"; "**/coverage/";
    "**/.nyc_output/"; "**/target/"; "**/vendor/"; "**/.bundle/";
    "**/.cargo/"; "**/.gradle/"; "**/.turbo/"; "**/.parcel-cache/";
    "**/.vercel/"; "**/.svelte-kit/"; "**/.serverless/";
    "**/.terraform/"; "**/Pods/"; "**/*.pyc"; "**/*.pyo"; "**/*.so";
    "**/*.dylib"; "**/*.dll"; "**/*.exe"; "**/*.o"; "**/*.a"; "**/*.lib";
    "**/*.class"; "**/*.jar"; "**/*.war"; "**/*.egg"; "**/*.whl";
    "**/*.lock"; "**/package-lock.json"; "**/yarn.lock";
    "**/pnpm-lock.yaml"; "**/bun.lockb"; "**/Cargo.lock";
    "**/poetry.lock"; "**/Gemfile.lock"; "**/composer.lock";
    "**/*.min.js"; "**/*.min.css"; "**/*.map"; "**/*.chunk.js";
    "**/*.bundle.js"; "**/*.bundle.css"; "**/*.log"; "**/*.tmp";
    "**/*.temp"; "**/*.bak"; "**/*.swp"; "**/*.png"; "**/*.jpg";
    "**/*.jpeg"; "**/*.gif"; "**/*.ico"; "**/*.svg"; "**/*.webp";
    "**/*.mp3"; "**/*.mp4"; "**/*.wav"; "**/*.avi"; "**/*.mov";
    "**/*.pdf"; "**/*.zip"; "**/*.tar"; "**/*.gz"; "**/*.rar"; "**/*.7z";
    "**/*.woff"; "**/*.woff2"; "**/*.ttf"; "**/*.eot"; "**/*.otf" ]%string.

(** The truth value of a [str]. *)
Definition nonempty (s : string) : bool := negb (s =? "")%string.

(** [read_ignore_file(path)], from the text of the file: [None] when the
    file does not exist or reading it raises. *)
Definition read_ignore_file (file : option string) : list string :=
  match file with
  | None => []
  | Some txt =>
    filter (fun line => nonempty line && negb (startswith line "#"))
           (map strip (readlines txt))
  end.

(** [matches_simple_pattern(rel_path, pattern)]. *)
Definition matches_simple_pattern (rel_path pattern : string) : bool :=
  if startswith pattern "!" then false
  else if endswith pattern "/" && negb (endswith rel_path "/") then false
  else
    let pattern := if endswith pattern "/" then drop_last pattern else pattern in
    let pattern := if startswith pattern "/" then drop_first pattern else pattern in
    fnmatch rel_path pattern || fnmatch rel_path ("**/" ++ pattern).

(** [should_ignore(rel_path, spec, extra_patterns)]; [spec] is the
    matcher [pathspec] compiles, [None] when the package is missing. *)
Definition should_ignore (rel_path : string) (spec : option (string -> bool))
    (extra_patterns : list string) : bool :=
  match spec with
  | Some match_file => match_file rel_path
  | None =>
    existsb (matches_simple_pattern rel_path)
            (DEFAULT_IGNORE_PATTERNS ++ extra_patterns)
  end.

(** [build_ignore_spec(root, include_gitignore)], from the texts of
    [.gitignore] and [.git/info/exclude]; [from_lines] is
    [pathspec.PathSpec.from_lines("gitwildmatch", _)], [None] when the
    package is missing. *)
Definition build_ignore_spec
    (from_lines : option (list string -> string -> bool))
    (gitignore info_exclude : option string) (include_gitignore : bool)
    : option (string -> bool) * list string :=
  let patterns :=
    DEFAULT_IGNORE_PATTERNS
    ++ (if include_gitignore
        then read_ignore_file gitignore ++ read_ignore_file info_exclude
        else []) in
  match from_lines with
  | None => (None, patterns)
  | Some compile => (Some (compile patterns), patterns)
  end.

(* ------------------------------------------------------------------ *)
(** ** Walking the tree *)

(** A directory as [os.walk] sees it: its entries by name, each a
    directory ([is_dir()], which follows symlinks; [is_link] tells a
    symlink to a directory) or anything else. *)
Inductive node :=
| File
| Dir (is_link : bool) (entries : list (string * node)).

(** [f"{rel_dir}/{name}" if rel_dir else name]. *)
Definition child_path (rel_dir name : string) : string :=
  if (rel_dir =? "")%string then name else rel_dir ++ "/" ++ name.

(** [iter_files_fs], from the directory at [rel_dir]: the files of the
    directory that are not ignored, then the same for every directory
    entry that is not ignored, symlinks to directories being entered
    under [follow_symlinks] only. The paths are given relative to the
    root, as the caller reads them. *)
Fixpoint iter_files_from (spec : option (string -> bool))
    (ignore_patterns : list string) (follow_symlinks : bool)
    (rel_dir : string) (n : node) : list string :=
  match n with
  | File => []
  | Dir _ entries =>
    flat_map (fun e =>
                match snd e with
                | File =>
                  let rel_path := child_path rel_dir (fst e) in
                  if should_ignore rel_path spec ignore_patterns then []
                  else [rel_path]
                | Dir _ _ => []
                end) entries
    ++ flat_map (fun e =>
                   match snd e with
                   | File => []
                   | Dir is_link _ =>
                     let rel_path := (child_path rel_dir (fst e) ++ "/")%string in
                     if should_ignore rel_path spec ignore_patterns then []
                     else if follow_symlinks || negb is_link
                          then iter_files_from spec ignore_patterns follow_symlinks
                                 (child_path rel_dir (fst e)) (snd e)
                          else []
                   end) entries
  end.

Definition iter_files_fs (root : list (string * node))
    (spec : option (string -> bool)) (ignore_patterns : list string)
    (follow_symlinks : bool) : list string :=
  iter_files_from spec ignore_patterns follow_symlinks "" (Dir false root).

(* ------------------------------------------------------------------ *)
(** ** The filters of the scan loop *)

(** The arguments of [scan_directory] that select candidates; the two
    sets are lists without repetition. *)
Record Filters := {
  spec : option (string -> bool);
  ignore_patterns : list string;
  changed_paths : list string;
  changed_scope : string;
  changed_labels : list string;
  changed_depth : Z;
  include_patterns : list string;
  exclude_patterns : list string
}.

(** The tests of the loop before [path.stat()]: [true] when none of them
    reaches [continue]. *)
Definition passes (f : Filters) (rel_path : string) : bool :=
  if should_ignore rel_path (spec f) (ignore_patterns f) then false
  else if match changed_paths f with
          | [] => false
          | _ =>
            if (changed_scope f =? "files")%string
            then negb (str_in rel_path (changed_paths f))
            else negb (str_in (group_label rel_path (changed_depth f))
                              (changed_labels f))
          end then false
  else if match include_patterns f with
          | [] => false
          | _ => negb (existsb (fnmatch rel_path) (include_patterns f))
          end then false
  else if match exclude_patterns f with
          | [] => false
          | _ => existsb (fnmatch rel_path) (exclude_patterns f)
          end then false
  else true.

(** The wildcards of [fnmatch]. *)
Definition star : ascii := "*"%char.

Definition question : ascii := "?"%char.

(** The pattern [matches_simple_pattern] hands to [fnmatch]. *)
Definition fnmatch_pattern (pattern : string) : string :=
  let pattern := if endswith pattern "/" then drop_last pattern else pattern in
  if startswith pattern "/" then drop_first pattern else pattern.

(** The last character of a pattern is a literal one, and no slash. *)
Definition ends_in_name_char (pattern : string) : bool :=
  match rev (list_ascii_of_string pattern) with
  | ch :: _ => negb (ch =? star)%char && negb (ch =? question)%char
               && negb (ch =? slash)%char
  | [] => false
  end.

(** A [.gitignore] of three lines. *)
Definition sample_gitignore : string :=
  "# build output" ++ String "010" ("out/" ++ String "010" ("/notes.txt" ++ String "010" "")).

(** A file name: not empty, and without a slash. *)
Definition is_name (s : string) : bool := nonempty s && negb (char_in s slash).

(** Every entry of the tree has a name. *)
Fixpoint well_named (n : node) : bool :=
  match n with
  | File => true
  | Dir _ entries => forallb (fun e => is_name (fst e) && well_named (snd e)) entries
  end.

Section WalkDefs.

Variable spec : option (string -> bool).
Variable ignore_patterns : list string.

Abbreviation kept p := (should_ignore p spec ignore_patterns = false).

(** The directories above [rel_dir], and [rel_dir] itself, are kept. *)
Definition entered (rel_dir : string) : Prop :=
  rel_dir <> "" ->
  forall d, (d = rel_dir \/ exists rest, rel_dir = (d ++ "/" ++ rest)%string) ->
            kept (d ++ "/")%string.

End WalkDefs.

(** A matcher that ignores nothing. *)
Definition ignore_nothing : option (string -> bool) := Some (fun _ => false).

(** Every file below the root, by its relative path: what the walk
    yields when nothing is ignored and every symlink is followed. *)
Definition all_files (root : list (string * node)) : list string :=
  iter_files_fs root ignore_nothing [] true.

(** [load_changed_list(path)], from the text of the file: [None] when no
    path is given or reading raises. The set is a list without
    repetition. *)
Definition load_changed_list (file : option string) : list string :=
  match file with
  | None => []
  | Some txt =>
    nodup string_dec
      (map (lstrip_chars "./") (filter nonempty (map strip (readlines txt))))
  end.

(** [changed_paths] as [main] builds it: the changed list, the
    [--changed] arguments and what [git_changed_files] returns. *)
Definition changed_paths_of (changed_list : option string) (changed : list string)
    (from_git : list string) : list string :=
  nodup string_dec
    (load_changed_list changed_list
     ++ map (lstrip_chars "./") (filter nonempty changed)
     ++ from_git).

(** A path the scan touches: it has a record in [files] or in
    [skipped], or something reads it. *)
Definition touched (r : ScanResult) (p : string) : Prop :=
  (exists e, In e (r_files r) /\ fr_path e = p)
  \/ (exists x, In x (r_skipped r) /\ sk_path x = p)
  \/ (exists ev, In ev (r_reads r) /\ event_path ev = p).

(* ------------------------------------------------------------------ *)
(** ** Git pathspecs *)

(** [normalize_git_pattern(pattern, exclude)]. *)
Definition normalize_git_pattern (pattern : string) (exclude : bool) : string :=
  let pattern := strip pattern in
  if (pattern =? "")%string then ""
  else
    let pattern := if startswith pattern "!" then drop_first pattern else pattern in
    if startswith pattern ":" then pattern
    else if exclude then ":(exclude,glob)" ++ pattern
    else ":(glob)" ++ pattern.

(** [build_git_pathspec(include_patterns, exclude_patterns)]. *)
Definition build_git_pathspec (include_patterns exclude_patterns : list string)
    : list string :=
  filter nonempty (map (fun pattern => normalize_git_pattern pattern false) include_patterns)
  ++ filter nonempty (map (fun pattern => normalize_git_pattern pattern true) exclude_patterns).

(* ------------------------------------------------------------------ *)
(** ** Changed files and churn from git *)

(** [[line.strip() for line in out.splitlines() if line.strip()]]. *)
Definition output_lines (out : string) : list string :=
  filter nonempty (map strip (splitlines out)).

(** The loop that drops repetitions: [seen] holds the paths met so
    far. *)
Fixpoint dedupe (seen : list string) (paths : list string) : list string :=
  match paths with
  | [] => []
  | path :: rest =>
    if str_in path seen then dedupe seen rest
    else path :: dedupe (path :: seen) rest
  end.

(** The value of an optional argument that is given. *)
Definition given (arg : option string) : string :=
  match arg with
  | Some s => s
  | None => ""
  end.

Section GitDefs.

(** [is_git_repo(root)] and [git_available()]. *)
Variable is_git_repo : bool.
Variable git_available : bool.

(** [subprocess.run(["git", "-C", str(root)] + args, check=True,
    text=True).stdout], [None] when [run] raises. *)
Variable run_git : list string -> option string.

(** The command [git_changed_files] runs for its arguments, after
    [git -C root]: the first of the range, the commit and the date that
    is given, [None] when none is. *)
Definition changed_command (range_spec since_commit since_date : option string)
    : option (list string) :=
  if truthy range_spec
  then Some ["diff"; "--name-only"; given range_spec]
  else if truthy since_commit
  then Some ["diff"; "--name-only"; (given since_commit ++ "..HEAD")%string]
  else if truthy since_date
  then Some ["log"; ("--since=" ++ given since_date)%string;
             "--name-only"; "--pretty=format:"]
  else None.

Definition untracked_command : list string :=
  ["ls-files"; "--others"; "--exclude-standard"].

(** The lines a command prints, none when it fails. *)
Definition lines_of (cmd : list string) : list string :=
  match run_git cmd with
  | Some out => output_lines out
  | None => []
  end.

Definition git_changed_files (range_spec since_commit since_date : option string)
    (include_untracked : bool) : list string :=
  if negb is_git_repo then []
  else
    match changed_command range_spec since_commit since_date with
    | None => []
    | Some cmd =>
      let files := lines_of cmd in
      let files :=
        if include_untracked then files ++ lines_of untracked_command else files in
      dedupe [] files
    end.

(** The body of the counting loop of [git_churn]. *)
Definition count_line (file_set : list string) (counts : dict Z) (line : string)
    : dict Z :=
  let path := strip line in
  if (path =? "")%string then counts
  else if match file_set with [] => false | _ => negb (str_in path file_set) end
       then counts
  else dict_set counts path
         (match dict_get counts path with Some n => n | None => 0 end + 1).

(** [git_churn(root, commits, file_set)], as [(path, commits)] pairs. *)
Definition git_churn (commits : Z) (file_set : list string) : list (string * Z) :=
  if (commits <=? 0) || negb is_git_repo || negb git_available then []
  else
    match run_git ["log"; "-n"; str_int commits; "--name-only"; "--pretty=format:"] with
    | None => []
    | Some out =>
      sorted_by (fun a b => snd b <=? snd a)
                (fold_left (count_line file_set) (splitlines out) [])
    end.

End GitDefs.

(** The lines of the log that name [path]. *)
Definition mentions (path : string) (lines : list string) : Z :=
  len (filter (fun line => (strip line =? path)%string) lines).

(** The order of [churn]: most commits first. *)
Definition commits_ge (a b : string * Z) : bool := snd b <=? snd a.

(** A path that [git_churn] counts: not empty, and in [file_set] when
    [file_set] is not empty. *)
Definition counted (file_set : list string) (path : string) : bool :=
  nonempty path
  && match file_set with
     | [] => true
     | _ => str_in path file_set
     end.

(** The code points of a string. *)
Definition code_points (s : string) : text :=
  map (fun ch => Z.of_N (N_of_ascii ch)) (list_ascii_of_string s).

(** [data[-4096:]]. *)
Definition last_4096 (data : bytes) : bytes :=
  skipn (Z.to_nat (len data - 4096)) data.

(** [module_hashes] as [json.load] gives it back from a saved result. *)
Definition hashes_json (module_hashes : dict string) : pyval :=
  PDict (map (fun ld => (fst ld, PStr (snd ld))) module_hashes).

(** The settings [load_cache] compares, and the update of the loaded
    cache before it is saved: [cache.update({...})]. [None] when the
    cache is no object. *)
Definition cache_header (enc tok : string) (mft mfs : Z) (mode : string)
    (compress : bool) (new_files : pyval) : list (string * pyval) :=
  [ ("encoding", PStr enc); ("tokenizer", PStr tok);
    ("max_file_tokens", PInt mft); ("max_file_size", PInt mfs);
    ("hash_mode", PStr mode); ("cache_compress", PBool compress);
    ("files", new_files) ].

Definition updated_cache (cache : pyval) (enc tok : string) (mft mfs : Z)
    (mode : string) (compress : bool) (new_files : pyval) : option pyval :=
  match cache with
  | PDict d => Some (PDict (dict_update d (cache_header enc tok mft mfs mode compress new_files)))
  | _ => None
  end.

(** ** More sample data *)

(** A directory: [README.md], [src] with [main.py] and [old.pyc], and
    [node_modules] with [pkg.js]. *)
Definition sample_dir : list (string * node) :=
  [ ("README.md", File);
    ("src", Dir false [("main.py", File); ("old.pyc", File)]);
    ("node_modules", Dir false [("pkg.js", File)]) ].

(** A matcher that ignores what lies under [node_modules/]. *)
Definition skip_node_modules : option (string -> bool) :=
  Some (fun rel_path => startswith rel_path "node_modules/").

(** The filters of a run with [--changed ./a.py --changed .env.py] and
    [--include *.py], the changed scope being [files]. *)
Definition sample_filters : Filters :=
  {| spec := None; ignore_patterns := DEFAULT_IGNORE_PATTERNS;
     changed_paths := changed_paths_of None ["./a.py"; ".env.py"] [];
     changed_scope := "files"; changed_labels := []; changed_depth := 1;
     include_patterns := ["*.py"]; exclude_patterns := [] |}.

(** What [git log -n 5 --name-only --pretty=format:] prints for two
    commits, the first on [a.py] and [big.py], the second on [a.py]. *)
Definition sample_log : list string -> option string := fun _ =>
  Some ("a.py" ++ String "010" ("big.py" ++ String "010"
        (String "010" ("a.py" ++ String "010" ""))))%string.

(** Two contents of 8193 bytes that differ in their 4097th byte. *)
Definition padded (middle : Z) : bytes :=
  repeat (byte_of_Z 97) (Z.to_nat 4096) ++ [byte_of_Z middle]
  ++ repeat (byte_of_Z 98) (Z.to_nat 4096).

(** 8191 times the letter [a]. *)
Definition letters : bytes := repeat (byte_of_Z 97) (Z.to_nat 8191).

(** The result of a run over [a.py], as a later run reads its module
    hashes. *)
Definition own_result : dict pyval :=
  match scan_directory repr_of_zero no_encoder all_pass
          (sample_config "fast" 50000 20) sample_tree [] ["a.py"] None with
  | Some r => [("module_hashes", hashes_json (r_module_hashes r))]
  | None => []
  end.

(** A cache that holds, for [notes.txt] as it is, a token count over a
    ceiling of one token. *)
Definition stale_cache : dict CacheEntry :=
  [("notes.txt", {| ce_mtime := Some 0%float; ce_size := Some 10;
                    ce_tokens := Some 99; ce_content_hash := None |})].

(** A file under a directory named [main.d]. *)
Definition main_d_notes : FileRecord :=
  {| fr_path := "src/main.d/notes"; fr_tokens := 3; fr_size_bytes := 12;
     fr_mtime := 0%float; fr_content_hash := None |}.

(* ================================================================== *)
(** * Properties *)

(** ** The runtime functions on known values *)

Example sha256_test_vectors :
  sha256_hexdigest (raw_bytes "abc")
  = "ba7816bf8f01cfea414140de5dae2223b00361a396177a9cb410ff61f20015ad"
  /\ sha256_hexdigest []
     = "e3b0c44298fc1c149afbf4c8996fb92427ae41e4649b934ca495991b7852b855".
Proof. vm_compute. split; reflexivity. Qed.

Example decode_examples :
  utf8_decode Strict (raw_bytes "print(1)") = Some [112; 114; 105; 110; 116; 40; 49; 41]
  /\ utf8_decode Strict accented = Some [233; 233; 233; 233; 233; 233; 233; 233]
  /\ utf8_decode Strict undecodable = None
  /\ utf8_decode Ignore undecodable = Some [104; 101; 108; 108; 111; 33; 33; 33].
Proof. vm_compute. repeat split; reflexivity. Qed.

Example path_examples :
  path_suffix "src/app.PY" = ".PY"
  /\ path_suffix ".gitignore" = ""
  /\ path_name "docs/README" = "README"
  /\ lower "README" = "readme"
  /\ group_label "lib/util/x.py" 1 = "lib"
  /\ group_label "x.py" 2 = "x.py"
  /\ group_label "" 1 = ".".
Proof. vm_compute. repeat split; reflexivity. Qed.

Example fnmatch_examples :
  fnmatch "main.py" "main.*" = true
  /\ fnmatch "src/main.py" "main.*" = false
  /\ fnmatch "a/b/bin/tool" "**/bin/*" = true
  /\ fnmatch "cmdx/main.go" "cmd/*/main.go" = false.
Proof. vm_compute. repeat split; reflexivity. Qed.

Example python_equality_examples :
  py_eq_int (PBool true) 1 = true
  /\ py_eq_int (PFloat 50000%float) 50000 = true
  /\ py_eq_int (PStr "1") 1 = false
  /\ py_eq_bool (PInt 0) false = true
  /\ py_eq_str PNone "mtime" = false.
Proof. vm_compute. repeat split; reflexivity. Qed.

(** ** Order on strings *)

Lemma string_compare_refl s : String.compare s s = Eq.
Proof.
  induction s as [|c s IH]; simpl; auto.
  unfold Ascii.compare. rewrite N.compare_refl. exact IH.
Qed.

Lemma string_compare_lt_trans a : forall b c,
  String.compare a b = Lt -> String.compare b c = Lt -> String.compare a c = Lt.
Proof.
  induction a as [|x a IH]; intros [|y b] [|z c]; simpl; try discriminate; auto.
  unfold Ascii.compare.
  destruct (N.compare_spec (N_of_ascii x) (N_of_ascii y)) as [Exy|Lxy|Gxy];
  destruct (N.compare_spec (N_of_ascii y) (N_of_ascii z)) as [Eyz|Lyz|Gyz];
  try discriminate; intros Hab Hbc.
  - rewrite Exy, Eyz, N.compare_refl. eauto.
  - rewrite Exy. apply N.compare_lt_iff in Lyz. rewrite Lyz. reflexivity.
  - rewrite <- Eyz. apply N.compare_lt_iff in Lxy. rewrite Lxy. reflexivity.
  - assert (H : (N_of_ascii x < N_of_ascii z)%N) by lia.
    apply N.compare_lt_iff in H. rewrite H. reflexivity.
Qed.

Lemma string_leb_trans a b c :
  (a <=? b)%string = true -> (b <=? c)%string = true -> (a <=? c)%string = true.
Proof.
  unfold String.leb.
  destruct (String.compare a b) eqn:Hab; try discriminate;
  destruct (String.compare b c) eqn:Hbc; try discriminate; intros _ _.
  - apply String.compare_eq_iff in Hab, Hbc. subst. now rewrite string_compare_refl.
  - apply String.compare_eq_iff in Hab. subst. now rewrite Hbc.
  - apply String.compare_eq_iff in Hbc. subst. now rewrite Hab.
  - now rewrite (string_compare_lt_trans _ _ _ Hab Hbc).
Qed.

(** ** [sorted] sorts, permutes, and is determined by the elements when
    ties are between equal elements only *)

Section Sorting.
Context {A : Type} (before : A -> A -> bool).
Hypothesis before_total : forall x y, before x y = true \/ before y x = true.
Hypothesis before_trans : forall x y z, before x y = true -> before y z = true -> before x z = true.

Lemma insert_by_perm x l : Permutation (x :: l) (insert_by before x l).
Proof.
  induction l as [|y l IH]; simpl; auto.
  destruct (before x y); auto.
  rewrite perm_swap. constructor. exact IH.
Qed.

Lemma sorted_by_perm l : Permutation l (sorted_by before l).
Proof.
  induction l as [|x l IH]; simpl; auto.
  etransitivity; [|apply insert_by_perm]. now constructor.
Qed.

Lemma insert_by_ordered x l :
  ordered before l -> ordered before (insert_by before x l).
Proof.
  induction 1 as [|y l Hl IH Hy]; simpl.
  - repeat constructor.
  - destruct (before x y) eqn:E.
    + constructor; [constructor; assumption|].
      constructor; [exact E|].
      eapply Forall_impl; [|exact Hy]. intros z Hz. eapply before_trans; eauto.
    + constructor; [exact IH|].
      assert (Hyx : before y x = true) by (destruct (before_total x y); congruence).
      eapply Permutation_Forall; [apply insert_by_perm|].
      constructor; assumption.
Qed.

Lemma sorted_by_ordered l : ordered before (sorted_by before l).
Proof.
  induction l as [|x l IH]; simpl; [constructor|]. now apply insert_by_ordered.
Qed.

(** The sort is stable: elements that tie with each other keep their
    order. *)
Lemma insert_by_stable (tie : A -> bool) x l :
  (forall a b, tie a = true -> tie b = true -> before a b = true) ->
  filter tie (insert_by before x l) = filter tie (x :: l).
Proof.
  intros Htie. induction l as [|y l IH]; [reflexivity|].
  cbn [insert_by]. destruct (before x y) eqn:E; [reflexivity|].
  cbn [filter] in *. rewrite IH.
  destruct (tie x) eqn:Tx, (tie y) eqn:Ty; try reflexivity.
  rewrite (Htie x y Tx Ty) in E. discriminate.
Qed.

Lemma sorted_by_stable (tie : A -> bool) l :
  (forall a b, tie a = true -> tie b = true -> before a b = true) ->
  filter tie (sorted_by before l) = filter tie l.
Proof.
  intros Htie. induction l as [|x l IH]; [reflexivity|].
  cbn [sorted_by fold_right]. fold (sorted_by before l).
  rewrite (insert_by_stable tie x _ Htie). cbn [filter]. now rewrite IH.
Qed.

(** Inserting two elements commutes unless they tie without being equal. *)
Lemma insert_by_comm x y l :
  (before x y = true -> before y x = true -> x = y) ->
  insert_by before x (insert_by before y l) = insert_by before y (insert_by before x l).
Proof.
  intros Hanti. induction l as [|z l IH]; simpl.
  - destruct (before x y) eqn:Exy, (before y x) eqn:Eyx; auto.
    + now rewrite (Hanti eq_refl eq_refl).
    + destruct (before_total x y); congruence.
  - destruct (before y z) eqn:Eyz, (before x z) eqn:Exz; simpl;
      rewrite ?Eyz, ?Exz.
    + destruct (before x y) eqn:Exy, (before y x) eqn:Eyx; auto.
      * now rewrite (Hanti eq_refl eq_refl).
      * destruct (before_total x y); congruence.
    + destruct (before x y) eqn:Exy; auto.
      rewrite (before_trans _ _ _ Exy Eyz) in Exz. discriminate.
    + destruct (before y x) eqn:Eyx; auto.
      rewrite (before_trans _ _ _ Eyx Exz) in Eyz. discriminate.
    + now rewrite IH.
Qed.

Lemma sorted_by_permutation l l' :
  Permutation l l' ->
  (forall x y, In x l -> In y l -> before x y = true -> before y x = true -> x = y) ->
  sorted_by before l = sorted_by before l'.
Proof.
  induction 1 as [|x l l' HP IH|x y l|l l' l'' HP1 IH1 HP2 IH2]; intros Hanti; simpl.
  - reflexivity.
  - rewrite IH; auto. intros; apply Hanti; simpl; auto.
  - apply insert_by_comm. intros. apply Hanti; simpl; auto.
  - rewrite IH1 by assumption. apply IH2.
    intros a b Ha Hb. apply Hanti; eapply Permutation_in; try apply Permutation_sym; eauto.
Qed.
End Sorting.

(** ** Dictionaries *)

Lemma dict_get_set_same {V} (d : dict V) k v : dict_get (dict_set d k v) k = Some v.
Proof.
  induction d as [|[k' v'] d IH]; simpl.
  - now rewrite String.eqb_refl.
  - destruct (k' =? k)%string eqn:E; simpl.
    + now rewrite String.eqb_refl.
    + now rewrite E.
Qed.

Lemma dict_get_set_other {V} (d : dict V) k k' v :
  k <> k' -> dict_get (dict_set d k v) k' = dict_get d k'.
Proof.
  intros Hne. induction d as [|[k0 v0] d IH]; simpl.
  - apply String.eqb_neq in Hne. now rewrite Hne.
  - destruct (k0 =? k)%string eqn:E; simpl.
    + apply String.eqb_eq in E. subst k0.
      apply String.eqb_neq in Hne. now rewrite Hne.
    + now rewrite IH.
Qed.

Lemma dict_get_map {V W} (f : V -> W) (d : dict V) k :
  dict_get (map (fun g => (fst g, f (snd g))) d) k = option_map f (dict_get d k).
Proof.
  induction d as [|[k' v] d IH]; simpl; auto.
  destruct (k' =? k)%string; auto.
Qed.

Lemma dict_get_In {V} (d : dict V) k v : dict_get d k = Some v -> In (k, v) d.
Proof.
  induction d as [|[k' v'] d IH]; simpl; [discriminate|].
  destruct (k' =? k)%string eqn:E.
  - apply String.eqb_eq in E. intros [= ->]. subst. now left.
  - intros H. right. auto.
Qed.

Lemma dict_set_In {V} (d : dict V) k v kv :
  In kv (dict_set d k v) -> kv = (k, v) \/ In kv d.
Proof.
  induction d as [|[k' v'] d IH]; simpl.
  - intros [H|[]]; auto.
  - destruct (k' =? k)%string; simpl; intros [H|H]; auto.
    destruct (IH H); auto.
Qed.

Lemma Permutation_filter {A} (f : A -> bool) l l' :
  Permutation l l' -> Permutation (filter f l) (filter f l').
Proof.
  induction 1 as [|x l l' HP IH|x y l|l l' l'' HP1 IH1 HP2 IH2]; simpl.
  - constructor.
  - destruct (f x); auto.
  - destruct (f x), (f y); auto. constructor.
  - etransitivity; eauto.
Qed.

Lemma dict_set_keys_NoDup {V} (d : dict V) k v :
  NoDup (dict_keys d) -> NoDup (dict_keys (dict_set d k v)).
Proof.
  unfold dict_keys. induction d as [|[k' v'] d IH]; simpl; intros Hnd.
  - constructor; [tauto|constructor].
  - inversion Hnd as [|? ? Hnotin Hnd']; subst.
    destruct (String.eqb_spec k' k) as [->|Hne]; simpl.
    + constructor; assumption.
    + constructor; [|now apply IH].
      intros Hin. apply in_map_iff in Hin as ([k0 v0] & Hk & Hin). simpl in Hk. subst k0.
      apply dict_set_In in Hin as [Heq|Hin]; [injection Heq as Hk _; now apply Hne|].
      apply Hnotin. apply in_map_iff. now exists (k', v0).
Qed.

Lemma dict_get_NoDup {V} (d : dict V) k v :
  NoDup (dict_keys d) -> In (k, v) d -> dict_get d k = Some v.
Proof.
  unfold dict_keys. induction d as [|[k' v'] d IH]; simpl; intros Hnd Hin; [tauto|].
  destruct Hin as [H|H].
  - injection H as -> ->. now rewrite String.eqb_refl.
  - inversion Hnd as [|? ? Hnotin Hnd']; subst.
    destruct (String.eqb_spec k' k) as [->|Hne]; [|now apply IH].
    exfalso. apply Hnotin. apply in_map_iff. now exists (k, v).
Qed.

(** ** Lists *)

Lemma firstn_In {A} (x : A) n : forall l, In x (firstn n l) -> In x l.
Proof.
  induction n as [|n IH]; intros [|y l]; simpl; try tauto.
  intros [H|H]; auto.
Qed.

Lemma StronglySorted_firstn {A} (R : A -> A -> Prop) n : forall l,
  StronglySorted R l -> StronglySorted R (firstn n l).
Proof.
  induction n as [|n IH]; intros l Hl; simpl; [constructor|].
  destruct Hl as [|x l Hl Hx]; constructor; auto.
  apply Forall_forall. intros y Hy.
  apply (proj1 (Forall_forall _ _) Hx). eapply firstn_In. exact Hy.
Qed.

Lemma StronglySorted_weaken {A} (R R' : A -> A -> Prop) l :
  (forall a b, R a b -> R' a b) -> StronglySorted R l -> StronglySorted R' l.
Proof.
  intros HR. induction 1 as [|x l Hl IH Hx]; constructor; auto.
  eapply Forall_impl; [|exact Hx]. auto.
Qed.

(** ** The UTF-8 decoder *)

(** One step of the case analysis the decoder makes on its input. *)
Ltac decoder_case :=
  match goal with
  | |- context [if ?c then _ else _] => destruct c eqn:?
  | |- context [match ?r with [] => _ | _ :: _ => _ end] =>
    is_var r; destruct r
  end; cbv beta iota zeta.

Lemma emit_some cp r : (exists t, r = Some t) -> exists t, emit cp r = Some t.
Proof. intros [t ->]. simpl. eauto. Qed.

(** With [errors="ignore"] the decoder raises on no input. *)
Lemma utf8_decode_ignore_total_upto (n : nat) : forall data,
  (List.length data <= n)%nat -> exists t, utf8_decode Ignore data = Some t.
Proof.
  induction n as [|n IH]; intros data Hlen.
  - destruct data; [simpl; eauto | simpl in Hlen; lia].
  - destruct data as [|b0 r0]; [simpl; eauto|].
    simpl in Hlen.
    cbn [utf8_decode]. cbv zeta.
    repeat decoder_case; unfold on_error;
      try (apply emit_some); eauto;
      apply IH; simpl in *; lia.
Qed.

Lemma utf8_decode_ignore_total data : exists t, utf8_decode Ignore data = Some t.
Proof. apply (utf8_decode_ignore_total_upto (List.length data)). lia. Qed.

Lemma emit_length cp r t (n : nat) :
  emit cp r = Some t ->
  (forall t', r = Some t' -> (List.length t' <= n)%nat) ->
  (List.length t <= S n)%nat.
Proof.
  destruct r as [t'|]; simpl; [|discriminate].
  intros [= <-] H. simpl. specialize (H t' eq_refl). lia.
Qed.

(** The decoded text has at most one code point per byte. *)
Lemma utf8_decode_length_upto (h : error_handler) (n : nat) : forall data t,
  (List.length data <= n)%nat ->
  utf8_decode h data = Some t -> (List.length t <= List.length data)%nat.
Proof.
  induction n as [|n IH]; intros data t Hlen.
  - destruct data; [simpl; intros [= <-]; simpl; lia | simpl in Hlen; lia].
  - destruct data as [|b0 r0]; [simpl; intros [= <-]; simpl; lia|].
    simpl in Hlen.
    cbn [utf8_decode]. cbv zeta.
    repeat decoder_case; unfold on_error; destruct h; try discriminate;
      intros Hd;
      try (injection Hd as <-; simpl; lia);
      first
        [ eapply Nat.le_trans;
          [ eapply emit_length; [exact Hd|]; intros t' Ht'; eapply IH; [|exact Ht']; simpl in *; lia
          | simpl; lia ]
        | eapply Nat.le_trans; [eapply IH; [|exact Hd]; simpl in *; lia | simpl; lia] ].
Qed.

Lemma utf8_decode_length (h : error_handler) data t :
  utf8_decode h data = Some t -> len t <= len data.
Proof.
  intros H. unfold len.
  apply (utf8_decode_length_upto h (List.length data)) in H; lia.
Qed.

(** Bytes below 128 decode to themselves. *)
Lemma utf8_decode_ascii (h : error_handler) data :
  forallb (fun b => byte_val b <? 128) data = true ->
  utf8_decode h data = Some (map byte_val data).
Proof.
  induction data as [|b0 r0 IH]; [reflexivity|].
  cbn [forallb utf8_decode]. cbv zeta.
  intros H. apply andb_true_iff in H as [Hb Hr].
  rewrite Hb, (IH Hr). reflexivity.
Qed.

(** [decode_text] returns a string on every input. *)
Lemma decode_text_total data : exists t, decode_text data = Some t.
Proof.
  unfold decode_text. destruct (utf8_decode Strict data); eauto.
  apply utf8_decode_ignore_total.
Qed.

Lemma decode_text_length data t : decode_text data = Some t -> len t <= len data.
Proof.
  unfold decode_text. destruct (utf8_decode Strict data) eqn:E.
  - intros [= <-]. eapply utf8_decode_length; eauto.
  - apply utf8_decode_length.
Qed.

(** ** The tokenizer fallback *)

(** C4, as amended. In heuristic mode, or when the exact encoder raises,
    the token count is [max(1, n // 4)] where [n] is the number of
    characters of the decoded text. [n] is at most the byte length of
    the content and equals it when every byte is ASCII. *)
Theorem heuristic_fallback_counts_code_points
    (tiktoken_encode : string -> text -> option Z)
    (data : bytes) (txt : text) (tokenizer encoding_name : string) :
  decode_text data = Some txt ->
  tokenizer <> "tiktoken" \/ tiktoken_encode encoding_name txt = None ->
  count_tokens tiktoken_encode txt tokenizer encoding_name = Z.max 1 (len txt / 4)
  /\ len txt <= len data
  /\ (forallb (fun b => byte_val b <? 128) data = true -> len txt = len data).
Proof.
  intros Hdec Hmode. split; [|split].
  - unfold count_tokens, heuristic_tokens.
    destruct Hmode as [Hne|Hraise].
    + apply String.eqb_neq in Hne. now rewrite Hne.
    + destruct (negb (tokenizer =? "tiktoken")%string); auto. now rewrite Hraise.
  - now apply decode_text_length.
  - intros Hascii. unfold decode_text in Hdec.
    rewrite (utf8_decode_ascii Strict data Hascii) in Hdec.
    injection Hdec as <-. unfold len. now rewrite length_map.
Qed.

(** C4, witness: the exact tokenizer is asked for and tiktoken is not
    installed. *)
Lemma heuristic_fallback_counts_code_points_witness :
  decode_text accented = Some [233; 233; 233; 233; 233; 233; 233; 233]
  /\ ("tiktoken" <> "tiktoken"
      \/ no_encoder "cl100k_base" [233; 233; 233; 233; 233; 233; 233; 233] = None)
  /\ count_tokens no_encoder [233; 233; 233; 233; 233; 233; 233; 233]
       "tiktoken" "cl100k_base"
     = Z.max 1 (len [233; 233; 233; 233; 233; 233; 233; 233] / 4).
Proof.
  assert (Hd : decode_text accented = Some [233; 233; 233; 233; 233; 233; 233; 233])
    by (vm_compute; reflexivity).
  split; [exact Hd|]. split; [right; reflexivity|].
  exact (proj1 (heuristic_fallback_counts_code_points no_encoder accented _
                  "tiktoken" "cl100k_base" Hd (or_intror eq_refl))).
Defined.

(** C4, counterexample: sixteen bytes that are eight characters count
    for two tokens, where a quarter of the byte length is four. *)
Lemma heuristic_counts_characters_not_bytes :
  decode_text accented = Some [233; 233; 233; 233; 233; 233; 233; 233]
  /\ count_tokens no_encoder [233; 233; 233; 233; 233; 233; 233; 233]
       "heuristic" "cl100k_base" = 2
  /\ Z.max 1 (len accented / 4) = 4.
Proof. vm_compute. repeat split; reflexivity. Qed.

(** ** Loading the cache *)

(** A cache that passes every check is returned as it is. *)
Lemma load_cache_accepts_match d enc tok mft mfs mode compress :
  py_eq_int (py_get d "version") CACHE_VERSION = true ->
  py_eq_str (py_get d "encoding") enc = true ->
  py_eq_str (py_get d "tokenizer") tok = true ->
  py_eq_int (py_get d "max_file_tokens") mft = true ->
  py_eq_int (py_get d "max_file_size") mfs = true ->
  py_eq_str (py_get d "hash_mode") mode = true ->
  py_eq_bool (py_get d "cache_compress") compress = true ->
  dict_mem d "files" = true ->
  load_cache (CacheParsed (PDict d)) enc tok mft mfs mode compress = PDict d.
Proof.
  intros H1 H2 H3 H4 H5 H6 H7 H8. unfold load_cache.
  now rewrite H1, H2, H3, H4, H5, H6, H7, H8.
Qed.

(** Otherwise the cache loads as the empty cache. *)
Lemma load_cache_cases file enc tok mft mfs mode compress :
  load_cache file enc tok mft mfs mode compress = empty_cache
  \/ exists d,
       file = CacheParsed (PDict d)
       /\ load_cache file enc tok mft mfs mode compress = PDict d
       /\ py_eq_int (py_get d "version") CACHE_VERSION = true
       /\ py_eq_str (py_get d "encoding") enc = true
       /\ py_eq_str (py_get d "tokenizer") tok = true
       /\ py_eq_int (py_get d "max_file_tokens") mft = true
       /\ py_eq_int (py_get d "max_file_size") mfs = true
       /\ py_eq_str (py_get d "hash_mode") mode = true
       /\ py_eq_bool (py_get d "cache_compress") compress = true
       /\ dict_mem d "files" = true.
Proof.
  destruct file as [| |data]; [now left|now left|].
  destruct data; try (left; reflexivity).
  cbn [load_cache].
  repeat match goal with
  | |- context [negb ?b] => destruct b eqn:?; cbn [negb]; [|left; reflexivity]
  end.
  right. eexists. repeat split; eassumption.
Qed.

(** C3. A cache file that is missing, unreadable, not an object, whose
    version, encoding, tokenizer, max_file_tokens, max_file_size,
    hash_mode or cache_compress is not equal ([==]) to the run's value,
    or that has no [files] key, loads as the empty cache. *)
Theorem load_cache_rejects_mismatch
    (file : cache_file) (enc tok : string) (mft mfs : Z) (mode : string)
    (compress : bool) :
  file = CacheMissing
  \/ file = CacheUnreadable
  \/ (exists data, file = CacheParsed data /\ forall d, data <> PDict d)
  \/ (exists d, file = CacheParsed (PDict d)
        /\ (py_eq_int (py_get d "version") CACHE_VERSION = false
            \/ py_eq_str (py_get d "encoding") enc = false
            \/ py_eq_str (py_get d "tokenizer") tok = false
            \/ py_eq_int (py_get d "max_file_tokens") mft = false
            \/ py_eq_int (py_get d "max_file_size") mfs = false
            \/ py_eq_str (py_get d "hash_mode") mode = false
            \/ py_eq_bool (py_get d "cache_compress") compress = false
            \/ dict_mem d "files" = false)) ->
  load_cache file enc tok mft mfs mode compress = empty_cache.
Proof.
  intros [->|[->|[(data & -> & Hnd)|(d & -> & Hbad)]]]; try reflexivity.
  - destruct data; try reflexivity. destruct (Hnd d eq_refl).
  - unfold load_cache.
    destruct (py_eq_int (py_get d "version") CACHE_VERSION); [|reflexivity].
    destruct (py_eq_str (py_get d "encoding") enc); [|reflexivity].
    destruct (py_eq_str (py_get d "tokenizer") tok); [|reflexivity].
    destruct (py_eq_int (py_get d "max_file_tokens") mft); [|reflexivity].
    destruct (py_eq_int (py_get d "max_file_size") mfs); [|reflexivity].
    destruct (py_eq_str (py_get d "hash_mode") mode); [|reflexivity].
    destruct (py_eq_bool (py_get d "cache_compress") compress); [|reflexivity].
    destruct (dict_mem d "files"); [|reflexivity].
    intuition discriminate.
Qed.

(** C3, witness: a cache written under [mtime], loaded by a run under
    [full]. *)
Lemma load_cache_rejects_mismatch_witness :
  py_eq_str (py_get mtime_cache_file "hash_mode") "full" = false
  /\ load_cache (CacheParsed (PDict mtime_cache_file))
       "cl100k_base" "heuristic" 50000 16 "full" false
     = empty_cache.
Proof.
  split; [reflexivity|].
  apply load_cache_rejects_mismatch.
  right. right. right. exists mtime_cache_file. split; [reflexivity|].
  do 5 right. left. reflexivity.
Defined.

(** The same file is returned whole by a run under [mtime]. *)
Lemma load_cache_accepts_mtime_cache_file :
  load_cache (CacheParsed (PDict mtime_cache_file))
    "cl100k_base" "heuristic" 50000 16 "mtime" false
  = PDict mtime_cache_file.
Proof. apply load_cache_accepts_match; reflexivity. Qed.

(** ** The text classifier *)

(** *** Lower case *)

Lemma code_range c : 0 <= code c < 256.
Proof.
  unfold code. pose proof (N_ascii_bounded c). lia.
Qed.

Lemma code_inj c d : code c = code d -> c = d.
Proof.
  unfold code. intros H.
  rewrite <- (ascii_N_embedding c), <- (ascii_N_embedding d).
  f_equal. lia.
Qed.

Lemma code_ascii_of n : 0 <= n < 256 -> code (ascii_of_N (Z.to_N n)) = n.
Proof.
  intros H. unfold code. rewrite N_ascii_embedding by lia. lia.
Qed.

Lemma lower_char_same_letter c d :
  plain d = true -> (lower_char c = d <-> same_letter c d).
Proof.
  unfold plain, same_letter, lower_char. fold (code c). intros Hd.
  pose proof (code_range c) as Hc. pose proof (code_range d) as Hd'.
  destruct ((65 <=? code c) && (code c <=? 90)
            || (192 <=? code c) && (code c <=? 222) && negb (code c =? 215)) eqn:E.
  - split.
    + intros H. right.
      assert (Hcode : code d = code c + 32).
      { rewrite <- H. apply code_ascii_of. lia. }
      lia.
    + intros [->|[H1 H2]]; [exfalso; lia|].
      apply code_inj. rewrite code_ascii_of by lia. lia.
  - split.
    + intros ->. now left.
    + intros [->|[H1 H2]]; [reflexivity|exfalso; lia].
Qed.

Lemma lower_spells s : forall t,
  forallb plain (list_ascii_of_string t) = true ->
  (lower s = t <-> spells s t).
Proof.
  induction s as [|c s IH]; intros [|d t] Ht; cbn [lower spells];
    try (split; [discriminate|contradiction]); [tauto|].
  cbn [list_ascii_of_string forallb] in Ht. apply andb_true_iff in Ht as (Hd & Ht).
  rewrite <- (IH t Ht), <- (lower_char_same_letter c d Hd). split.
  - intros [= -> ->]. auto.
  - intros (-> & ->). reflexivity.
Qed.

Lemma str_in_spells s names :
  forallb (fun t => forallb plain (list_ascii_of_string t)) names = true ->
  (str_in (lower s) names = true <-> exists t, In t names /\ spells s t).
Proof.
  intros Hall. unfold str_in. rewrite existsb_exists. rewrite forallb_forall in Hall.
  split.
  - intros (t & Hin & E). apply String.eqb_eq in E. exists t. split; [exact Hin|].
    apply lower_spells; auto.
  - intros (t & Hin & Hs). exists t. split; [exact Hin|].
    apply String.eqb_eq. apply lower_spells; auto.
Qed.

Lemma known_names_are_plain :
  forallb (fun t => forallb plain (list_ascii_of_string t)) TEXT_EXTENSIONS = true
  /\ forallb (fun t => forallb plain (list_ascii_of_string t)) TEXT_NAMES = true.
Proof. split; vm_compute; reflexivity. Qed.

(** The test of [is_text_file] on the lowered suffix and name is the
    case-insensitive one. *)
Lemma known_text_test path :
  str_in (lower (path_suffix path)) TEXT_EXTENSIONS
  || str_in (lower (path_name path)) TEXT_NAMES = true
  <-> known_text path.
Proof.
  unfold known_text. destruct known_names_are_plain as (He & Hn).
  rewrite orb_true_iff, (str_in_spells _ _ He), (str_in_spells _ _ Hn). tauto.
Qed.

(** *** NUL bytes *)

Lemma byte_val_zero b : byte_val b = 0 <-> b = x00.
Proof.
  unfold byte_val. split; [|intros ->; reflexivity].
  intros H. assert (E : Byte.to_N b = Byte.to_N x00) by (cbn; lia).
  apply (f_equal Byte.of_N) in E. rewrite !Byte.of_to_N in E. now injection E.
Qed.

Lemma has_nul_In data : has_nul data = true <-> In x00 data.
Proof.
  unfold has_nul. rewrite existsb_exists. split.
  - intros (b & Hb & E). apply Z.eqb_eq, byte_val_zero in E. now subst b.
  - intros H. exists x00. split; [exact H|reflexivity].
Qed.

(** *** Strict decoding accepts the well-formed sequences, and no other *)

Ltac range_tests :=
  unfold in_range in *;
  repeat match goal with
         | |- context [?a <? ?b] => destruct (Z.ltb_spec a b); try lia
         | |- context [?a <=? ?b] => destruct (Z.leb_spec a b); try lia
         | |- context [?a =? ?b] => destruct (Z.eqb_spec a b); try lia
         end.

Lemma decode_sequence s : forall rest,
  utf8_sequence s ->
  exists cp, utf8_decode Strict (s ++ rest) = emit cp (utf8_decode Strict rest).
Proof.
  intros rest Hs. destruct Hs; cbn [app utf8_decode]; cbv zeta;
    unfold second_of_three_ok, second_of_four_ok, is_continuation;
    range_tests; cbn [andb negb]; eexists; reflexivity.
Qed.

Lemma well_formed_decodes data :
  well_formed_utf8 data -> exists txt, utf8_decode Strict data = Some txt.
Proof.
  induction 1 as [|s rest Hs _ (txt & IH)]; [exists []; reflexivity|].
  destruct (decode_sequence s rest Hs) as (cp & ->). rewrite IH. cbn. eauto.
Qed.

Lemma emit_inv cp rest txt : emit cp rest = Some txt -> exists t, rest = Some t.
Proof. destruct rest; [eauto|discriminate]. Qed.

Lemma decoded_is_well_formed n : forall data txt,
  (List.length data <= n)%nat ->
  utf8_decode Strict data = Some txt -> well_formed_utf8 data.
Proof.
  induction n as [|n IH]; intros data txt Hlen H.
  - destruct data; [constructor|cbn in Hlen; lia].
  - destruct data as [|b0 r0]; [constructor|].
    cbn [List.length] in Hlen.
    cbn [utf8_decode] in H. cbv zeta in H.
    pose proof (fun d t (L : (List.length d <= n)%nat) => IH d t L) as IH'.
    destruct (byte_val b0 <? 128) eqn:E1.
    { apply emit_inv in H as (t & Ht).
      apply (wf_sequence [b0] r0); [|apply (IH' r0 t); [lia|exact Ht]].
      apply seq_1. unfold in_range. unfold byte_val in *. lia. }
    destruct (byte_val b0 <? 194) eqn:E2; [discriminate H|].
    destruct (byte_val b0 <? 224) eqn:E3.
    { destruct r0 as [|b1 r1]; [discriminate H|].
      destruct (is_continuation (byte_val b1)) eqn:C1; [|discriminate H].
      apply emit_inv in H as (t & Ht). cbn [List.length] in Hlen.
      apply (wf_sequence [b0; b1] r1); [|apply (IH' r1 t); [lia|exact Ht]].
      unfold is_continuation in C1. apply seq_2; unfold in_range; lia. }
    destruct (byte_val b0 <? 240) eqn:E4.
    { destruct r0 as [|b1 r1]; [discriminate H|].
      destruct (second_of_three_ok (byte_val b0) (byte_val b1)) eqn:C1; [|discriminate H].
      destruct r1 as [|b2 r2]; [discriminate H|].
      destruct (is_continuation (byte_val b2)) eqn:C2; [|discriminate H].
      apply emit_inv in H as (t & Ht). cbn [List.length] in Hlen.
      apply (wf_sequence [b0; b1; b2] r2); [|apply (IH' r2 t); [lia|exact Ht]].
      unfold second_of_three_ok, is_continuation in *.
      apply andb_true_iff in C1 as (C1 & C1'). apply negb_true_iff in C1'.
      destruct (Z.eq_dec (byte_val b0) 224) as [E|E].
      - apply seq_3_e0; unfold in_range; try lia.
        destruct (byte_val b1 <? 160) eqn:L; lia.
      - destruct (Z.eq_dec (byte_val b0) 237) as [E'|E'].
        + apply seq_3_ed; unfold in_range; try lia.
          destruct (byte_val b1 <? 160) eqn:L; lia.
        + apply seq_3; unfold in_range; lia. }
    destruct (byte_val b0 <? 245) eqn:E5; [|discriminate H].
    destruct r0 as [|b1 r1]; [discriminate H|].
    destruct (second_of_four_ok (byte_val b0) (byte_val b1)) eqn:C1; [|discriminate H].
    destruct r1 as [|b2 r2]; [discriminate H|].
    destruct (is_continuation (byte_val b2)) eqn:C2; [|discriminate H].
    destruct r2 as [|b3 r3]; [discriminate H|].
    destruct (is_continuation (byte_val b3)) eqn:C3; [|discriminate H].
    apply emit_inv in H as (t & Ht). cbn [List.length] in Hlen.
    apply (wf_sequence [b0; b1; b2; b3] r3); [|apply (IH' r3 t); [lia|exact Ht]].
    unfold second_of_four_ok, is_continuation in *.
    apply andb_true_iff in C1 as (C1 & C1'). apply negb_true_iff in C1'.
    destruct (Z.eq_dec (byte_val b0) 240) as [E|E].
    + apply seq_4_f0; unfold in_range; try lia.
      destruct (byte_val b1 <? 144) eqn:L; lia.
    + destruct (Z.eq_dec (byte_val b0) 244) as [E'|E'].
      * apply seq_4_f4; unfold in_range; try lia.
        destruct (byte_val b1 <? 144) eqn:L; lia.
      * apply seq_4; unfold in_range; lia.
Qed.

(** [data.decode("utf-8")] raises no [UnicodeDecodeError] exactly when
    [data] is well-formed UTF-8. *)
Lemma strict_decoding_is_well_formedness data :
  (exists txt, utf8_decode Strict data = Some txt) <-> well_formed_utf8 data.
Proof.
  split; [|apply well_formed_decodes].
  intros (txt & H). exact (decoded_is_well_formed _ data txt (Nat.le_refl _) H).
Qed.

(** *** The decision *)

(** C7. The classifier decides in this order. A known-text extension or
    bare name, in whatever case, gives text with no read, whatever the
    content. Otherwise the file is opened once: an I/O error gives
    binary; a NUL byte among the first 8192 bytes gives binary; and
    without one the file is text exactly when these bytes are
    well-formed UTF-8. *)
Theorem is_text_file_decision_order (path : string) (content : file_content) :
  (known_text path -> is_text_file path content = (true, []))
  /\ (~ known_text path ->
      (forall msg, content = ReadError msg ->
         is_text_file path content = (false, [EvSniff path]))
      /\ (forall data, content = Content data ->
            let prefix := firstn (Z.to_nat 8192) data in
            snd (is_text_file path content) = [EvSniff path]
            /\ (In x00 prefix -> fst (is_text_file path content) = false)
            /\ (~ In x00 prefix ->
                (fst (is_text_file path content) = true <-> well_formed_utf8 prefix)))).
Proof.
  pose proof (known_text_test path) as Hknown.
  unfold is_text_file.
  destruct (str_in (lower (path_suffix path)) TEXT_EXTENSIONS) eqn:Hext.
  { split; [reflexivity|]. intros Hn. exfalso. apply Hn, Hknown. reflexivity. }
  destruct (str_in (lower (path_name path)) TEXT_NAMES) eqn:Hname.
  { split; [reflexivity|]. intros Hn. exfalso. apply Hn, Hknown. reflexivity. }
  split.
  { intros Hk. apply Hknown in Hk. discriminate Hk. }
  intros _. split.
  - intros msg ->. reflexivity.
  - intros data ->. cbv zeta. cbn [fst snd].
    split; [reflexivity|]. split.
    + intros Hnul. apply has_nul_In in Hnul. now rewrite Hnul.
    + intros Hnul. destruct (has_nul (firstn (Z.to_nat 8192) data)) eqn:E.
      { exfalso. apply Hnul, has_nul_In. exact E. }
      rewrite <- strict_decoding_is_well_formedness.
      destruct (utf8_decode Strict (firstn (Z.to_nat 8192) data)) as [txt|]; split; eauto.
      * discriminate.
      * intros (t & Ht). discriminate Ht.
Qed.

(** The order on known values: a known extension or name in capitals is
    text whatever the content; else an error, a NUL byte and a byte
    that is no UTF-8 give binary, and UTF-8 gives text. *)
Example classifier_examples :
  is_text_file "src/Main.PY" (ReadError "Permission denied") = (true, [])
  /\ is_text_file "README" (Content (map byte_of_Z [0; 255])) = (true, [])
  /\ is_text_file "blob" (ReadError "Permission denied") = (false, [EvSniff "blob"])
  /\ is_text_file "blob" (Content (map byte_of_Z [104; 0; 105]))
     = (false, [EvSniff "blob"])
  /\ is_text_file "blob" (Content (map byte_of_Z [104; 255]))
     = (false, [EvSniff "blob"])
  /\ is_text_file "blob" (Content (map byte_of_Z [104; 195; 169]))
     = (true, [EvSniff "blob"]).
Proof. vm_compute. repeat split; reflexivity. Qed.

(** ** Scan hash and module hashes *)

Section Hashes.
Variable float_repr : float -> string.

Lemma path_le_total x y : path_le x y = true \/ path_le y x = true.
Proof. apply String.leb_total. Qed.

Lemma path_le_trans x y z :
  path_le x y = true -> path_le y z = true -> path_le x z = true.
Proof. apply string_leb_trans. Qed.

Lemma sorted_by_path_permutation l l' :
  Permutation l l' -> paths_identify l ->
  sorted_by path_le l = sorted_by path_le l'.
Proof.
  intros HP Hid.
  apply (sorted_by_permutation path_le path_le_total path_le_trans l l' HP).
  intros x y Hx Hy Hxy Hyx. apply Hid; auto.
  now apply String.leb_antisym.
Qed.

Lemma fold_add_to_group_get depth label l : forall acc,
  dict_get (fold_left (add_to_group depth) l acc) label =
  match dict_get acc label with
  | Some es => Some (es ++ filter (in_module depth label) l)
  | None => match filter (in_module depth label) l with
            | [] => None
            | es => Some es
            end
  end.
Proof.
  induction l as [|e l IH]; intros acc; simpl.
  - destruct (dict_get acc label); auto. now rewrite app_nil_r.
  - rewrite IH. unfold add_to_group.
    destruct (in_module depth label e) eqn:E; unfold in_module in E.
    + apply String.eqb_eq in E. rewrite E.
      destruct (dict_get acc label) as [es|] eqn:G;
        rewrite dict_get_set_same; [now rewrite <- app_assoc | reflexivity].
    + apply String.eqb_neq in E.
      destruct (dict_get acc (group_label (fr_path e) depth));
        rewrite dict_get_set_other by assumption; reflexivity.
Qed.

Lemma module_groups_get files depth label :
  dict_get (module_groups files depth) label =
  match filter (in_module depth label) files with
  | [] => None
  | es => Some es
  end.
Proof. unfold module_groups. now rewrite fold_add_to_group_get. Qed.

(** The digest of a label is the digest of the files under it, and a
    label has a digest exactly when some file is under it. *)
Lemma compute_module_hashes_get files depth label :
  dict_get (compute_module_hashes float_repr files depth) label =
  match filter (in_module depth label) files with
  | [] => None
  | es => Some (module_digest float_repr es)
  end.
Proof.
  unfold compute_module_hashes. rewrite dict_get_map, module_groups_get.
  destruct (filter _ files); reflexivity.
Qed.

(** A list without two records of one path is such a list. *)
Lemma distinct_paths_identify (files : list FileRecord) :
  NoDup (map fr_path files) -> paths_identify files.
Proof.
  induction files as [|e l IH]; intros Hnd x y Hx Hy E; [destruct Hx|].
  cbn [map] in Hnd. inversion Hnd as [|? ? Hnot Hnd']; subst.
  destruct Hx as [<-|Hx], Hy as [<-|Hy].
  - reflexivity.
  - exfalso. apply Hnot. rewrite E. now apply in_map.
  - exfalso. apply Hnot. rewrite <- E. now apply in_map.
  - now apply IH.
Qed.

(** C2. A list of FileRecords holds one record for a scanned file:
    records that share a path are one record, which is so when no two
    share a path and for the [files] of every scan. Every permutation
    of such a list has the same scan hash and the same digest, or none,
    under every module label. *)
Theorem hashes_independent_of_order (files files' : list FileRecord) (depth : Z) :
  Permutation files files' ->
  paths_identify files ->
  compute_scan_hash float_repr files = compute_scan_hash float_repr files' /\
  forall label,
    dict_get (compute_module_hashes float_repr files depth) label =
    dict_get (compute_module_hashes float_repr files' depth) label.
Proof.
  intros HP Hid. split.
  - unfold compute_scan_hash. now rewrite (sorted_by_path_permutation _ _ HP Hid).
  - intros label. rewrite !compute_module_hashes_get.
    pose proof (Permutation_filter (in_module depth label) _ _ HP) as HPf.
    assert (Hidf : paths_identify (filter (in_module depth label) files)).
    { intros x y Hx Hy. apply Hid; eapply filter_In; eauto. }
    destruct (filter (in_module depth label) files) as [|e es] eqn:Ef.
    + apply Permutation_nil in HPf. now rewrite HPf.
    + destruct (filter (in_module depth label) files') as [|e' es'] eqn:Ef'.
      * apply Permutation_sym, Permutation_nil in HPf. discriminate.
      * unfold module_digest.
        now rewrite (sorted_by_path_permutation _ _ HPf Hidf).
Qed.
End Hashes.


Lemma two_files_paths_identify : paths_identify two_files.
Proof.
  intros x y [<-|[<-|[]]] [<-|[<-|[]]] H; try reflexivity; discriminate H.
Defined.

(** C2, witness: two files, in the two orders. *)
Lemma hashes_independent_of_order_witness :
  Permutation two_files (rev two_files)
  /\ paths_identify two_files
  /\ compute_scan_hash repr_of_zero two_files
     = compute_scan_hash repr_of_zero (rev two_files).
Proof.
  split; [apply Permutation_rev|]. split; [exact two_files_paths_identify|].
  exact (proj1 (hashes_independent_of_order repr_of_zero two_files (rev two_files) 1
                  (Permutation_rev two_files) two_files_paths_identify)).
Defined.

(** The two functions taken alone, on a list that no scan produces: a
    path listed twice with two token counts. Both sort by path and the
    sort is stable, so the order of the two records changes the scan
    hash and the digest of their module. *)
Lemma duplicate_paths_make_hashes_order_dependent :
  Permutation twice_listed (rev twice_listed)
  /\ compute_scan_hash repr_of_zero twice_listed
     <> compute_scan_hash repr_of_zero (rev twice_listed)
  /\ dict_get (compute_module_hashes repr_of_zero twice_listed 1) "a.py"
     <> dict_get (compute_module_hashes repr_of_zero (rev twice_listed) 1) "a.py".
Proof.
  split; [apply Permutation_rev|].
  split; vm_compute; discriminate.
Qed.

(** ** Changed and removed modules *)

Section ModuleDiff.
Variable float_repr : float -> string.

Lemma module_groups_NoDup files depth : NoDup (dict_keys (module_groups files depth)).
Proof.
  unfold module_groups.
  assert (H : forall acc, NoDup (dict_keys acc) ->
                          NoDup (dict_keys (fold_left (add_to_group depth) files acc))).
  { induction files as [|e l IH]; intros acc Hacc; simpl; auto.
    apply IH. unfold add_to_group.
    destruct (dict_get acc _); now apply dict_set_keys_NoDup. }
  apply H. constructor.
Qed.

Lemma compute_module_hashes_NoDup files depth :
  NoDup (dict_keys (compute_module_hashes float_repr files depth)).
Proof.
  unfold compute_module_hashes, dict_keys. rewrite map_map. simpl.
  apply module_groups_NoDup.
Qed.

(** What the two lists hold, label by label. *)
Lemma diff_modules_membership
    (files : list FileRecord) (depth : Z) (prev : dict pyval) (label : string) :
  let module_hashes := compute_module_hashes float_repr files depth in
  let changed := fst (diff_modules (PDict prev) module_hashes) in
  let removed := snd (diff_modules (PDict prev) module_hashes) in
  (In label changed <->
   exists digest, dict_get module_hashes label = Some digest
                  /\ py_eq_str (py_get prev label) digest = false)
  /\ (In label removed <->
      In label (dict_keys prev) /\ dict_get module_hashes label = None)
  /\ (dict_get module_hashes label <> None -> dict_get prev label = None ->
      In label changed /\ ~ In label removed).
Proof.
  intros module_hashes changed removed.
  pose proof (compute_module_hashes_NoDup files depth) as Hnd.
  fold module_hashes in Hnd.
  assert (Hchanged :
            In label changed <->
            exists digest, dict_get module_hashes label = Some digest
                           /\ py_eq_str (py_get prev label) digest = false).
  { unfold changed. simpl. rewrite in_map_iff. split.
    - intros ([l dg] & Hl & Hin). simpl in Hl. subst l.
      apply filter_In in Hin as [Hin Hne]. simpl in Hne.
      exists dg. split; [now apply dict_get_NoDup|now apply negb_true_iff].
    - intros (dg & Hget & Hne). exists (label, dg). split; [reflexivity|].
      apply filter_In. split; [now apply dict_get_In|].
      simpl. now rewrite Hne. }
  assert (Hremoved :
            In label removed <->
            In label (dict_keys prev) /\ dict_get module_hashes label = None).
  { unfold removed. simpl. rewrite filter_In. unfold dict_mem.
    destruct (dict_get module_hashes label); simpl; intuition congruence. }
  split; [exact Hchanged|split; [exact Hremoved|]].
  intros Hnow Hprev. split.
  - apply Hchanged. destruct (dict_get module_hashes label) as [dg|]; [|congruence].
    exists dg. split; [reflexivity|]. unfold py_get. now rewrite Hprev.
  - rewrite Hremoved. tauto.
Qed.
End ModuleDiff.

(** ** Entrypoints *)

Lemma ep_tokens_ge_total x y : ep_tokens_ge x y = true \/ ep_tokens_ge y x = true.
Proof. unfold ep_tokens_ge. lia. Qed.

Lemma ep_tokens_ge_trans x y z :
  ep_tokens_ge x y = true -> ep_tokens_ge y z = true -> ep_tokens_ge x z = true.
Proof. unfold ep_tokens_ge. lia. Qed.

(** The patterns have no bracket expression, so [fnmatch] reads them as
    Python does. *)
Lemma entrypoint_patterns_have_no_bracket :
  forallb (fun pat => negb (existsb (fun ch => (ch =? "[")%char)
                              (list_ascii_of_string pat)))
          ENTRYPOINT_PATTERNS = true.
Proof. vm_compute. reflexivity. Qed.

(** [cmd/worker/main.go] matches [cmd/*/main.go]; the loop over the
    patterns stops earlier, at [main.*], which it matches as
    [**/main.*]. *)
Lemma worker_main_patterns :
  fnmatch "cmd/worker/main.go" "cmd/*/main.go" = true
  /\ fnmatch "cmd/worker/main.go" "main.*" = false
  /\ fnmatch "cmd/worker/main.go" "**/main.*" = true
  /\ find (entry_pattern_matches "cmd/worker/main.go") ENTRYPOINT_PATTERNS
     = Some "main.*".
Proof. vm_compute. repeat split; reflexivity. Qed.

Lemma entrypoint_of_worker_main f :
  fr_path f = "cmd/worker/main.go" ->
  entrypoint_of f = [worker_main_entry (fr_tokens f)].
Proof.
  intros Hp. unfold entrypoint_of. rewrite Hp.
  destruct worker_main_patterns as (_ & _ & _ & ->). reflexivity.
Qed.

(** What [detect_entrypoints] does. [cmd/worker/main.go] matches
    [cmd/*/main.go]; a file at that path has an entry among the
    entrypoints found, under the first pattern that matches it,
    [main.*], and the entry is returned when the limit is not positive
    or at least the number found. The entrypoints returned are sorted
    by token count, descending; they are the first [limit] found when
    the limit is positive, and all of them when it is not. *)
Theorem entrypoints_sorted_and_limited (files : list FileRecord) (limit : Z) :
  let found := sorted_by ep_tokens_ge (flat_map entrypoint_of files) in
  let entrypoints := detect_entrypoints files limit in
  fnmatch "cmd/worker/main.go" "cmd/*/main.go" = true
  /\ StronglySorted (fun a b => ep_tokens b <= ep_tokens a) entrypoints
  /\ (0 < limit -> entrypoints = firstn (Z.to_nat limit) found
                   /\ len entrypoints <= limit)
  /\ (limit <= 0 -> entrypoints = found)
  /\ (forall f, In f files -> fr_path f = "cmd/worker/main.go" ->
        In (worker_main_entry (fr_tokens f)) found
        /\ (limit <= 0 \/ len found <= limit ->
            In (worker_main_entry (fr_tokens f)) entrypoints)).
Proof.
  intros found entrypoints.
  assert (Hsorted : StronglySorted (fun a b => ep_tokens b <= ep_tokens a) found).
  { pose proof (sorted_by_ordered ep_tokens_ge ep_tokens_ge_total ep_tokens_ge_trans
                  (flat_map entrypoint_of files)) as H.
    unfold ordered in H. fold found in H.
    eapply StronglySorted_weaken; [|exact H].
    intros a b Hab. unfold ep_tokens_ge in Hab. lia. }
  assert (Hpos : 0 < limit -> entrypoints = firstn (Z.to_nat limit) found).
  { intros Hl. unfold entrypoints, detect_entrypoints.
    assert (E : (limit >? 0) = true) by lia. now rewrite E. }
  assert (Hnonpos : limit <= 0 -> entrypoints = found).
  { intros Hl. unfold entrypoints, detect_entrypoints.
    assert (E : (limit >? 0) = false) by lia. now rewrite E. }
  split; [apply worker_main_patterns|].
  split; [|split; [|split; [exact Hnonpos|]]].
  - destruct (Z.ltb_spec 0 limit) as [Hl|Hl].
    + rewrite (Hpos Hl). now apply StronglySorted_firstn.
    + now rewrite (Hnonpos Hl).
  - intros Hl. split; [now apply Hpos|].
    rewrite (Hpos Hl). unfold len. rewrite length_firstn. lia.
  - intros f Hf Hp.
    assert (Hfound : In (worker_main_entry (fr_tokens f)) found).
    { unfold found.
      eapply Permutation_in; [apply sorted_by_perm|].
      apply in_flat_map. exists f. split; [exact Hf|].
      rewrite (entrypoint_of_worker_main f Hp). now left. }
    split; [exact Hfound|].
    intros [Hl|Hl].
    + now rewrite (Hnonpos Hl).
    + destruct (Z.ltb_spec 0 limit) as [Hl0|Hl0]; [|now rewrite (Hnonpos Hl0)].
      rewrite (Hpos Hl0). rewrite firstn_all2; [exact Hfound|].
      unfold len in Hl. lia.
Qed.

(** C8, the failing input: with a limit of zero [detect_entrypoints]
    truncates nothing and returns the entry of [cmd/worker/main.go],
    where [top_files_by_tokens], under the same words of the help
    ([0 disables]), returns nothing. *)
Lemma zero_limit_does_not_truncate :
  detect_entrypoints [worker_main] 0 = [worker_main_entry 7]
  /\ ~ len (detect_entrypoints [worker_main] 0) <= 0
  /\ top_files_by_tokens [worker_main] 0 = [].
Proof.
  vm_compute. split; [reflexivity|]. split; [|reflexivity].
  intros H. apply H. reflexivity.
Qed.

(** ** The scan loop *)

Section ScanLoop.
Variable passes_filters : string -> bool.
Variable c : Config.
Variable fs : filesystem.
Variable cache_files : dict CacheEntry.

Abbreviation scan_file' := (scan_file passes_filters c fs cache_files).
Abbreviation scan_files' := (scan_files passes_filters c fs cache_files).
Abbreviation step' := (step passes_filters c fs cache_files).
Abbreviation reaches' := (reaches_cache passes_filters c fs).

(** Case analysis on the body of the loop. *)
Ltac loop_cases :=
  unfold scan_file;
  repeat match goal with
         | |- context [match ?x with _ => _ end] => destruct x eqn:?
         end.

Lemma scan_file_files st p : files (scan_file' st p) = files st ++ files (step' p).
Proof. unfold step. loop_cases; simpl; now rewrite ?app_nil_r. Qed.

Lemma scan_file_skipped st p : skipped (scan_file' st p) = skipped st ++ skipped (step' p).
Proof. unfold step. loop_cases; simpl; now rewrite ?app_nil_r. Qed.

Lemma scan_file_tasks st p : tasks (scan_file' st p) = tasks st ++ tasks (step' p).
Proof. unfold step. loop_cases; simpl; now rewrite ?app_nil_r. Qed.

Lemma scan_file_io_log st p : io_log (scan_file' st p) = io_log st ++ io_log (step' p).
Proof. unfold step. loop_cases; simpl; now rewrite ?app_nil_r. Qed.

Section Folded.
Context {A : Type} (field : ScanState -> list A).
Hypothesis field_step : forall st p, field (scan_file' st p) = field st ++ field (step' p).

Lemma fold_field candidates : forall st,
  field (fold_left scan_file' candidates st) =
  field st ++ flat_map (fun p => field (step' p)) candidates.
Proof.
  induction candidates as [|p ps IH]; intros st; simpl.
  - now rewrite app_nil_r.
  - now rewrite IH, field_step, app_assoc.
Qed.
End Folded.

Lemma scan_files_files candidates :
  files (scan_files' candidates) = flat_map (fun p => files (step' p)) candidates.
Proof. unfold scan_files. now rewrite (fold_field files scan_file_files). Qed.

Lemma scan_files_skipped candidates :
  skipped (scan_files' candidates) = flat_map (fun p => skipped (step' p)) candidates.
Proof. unfold scan_files. now rewrite (fold_field skipped scan_file_skipped). Qed.

Lemma scan_files_tasks candidates :
  tasks (scan_files' candidates) = flat_map (fun p => tasks (step' p)) candidates.
Proof. unfold scan_files. now rewrite (fold_field tasks scan_file_tasks). Qed.

Lemma scan_files_io_log candidates :
  io_log (scan_files' candidates) = flat_map (fun p => io_log (step' p)) candidates.
Proof. unfold scan_files. now rewrite (fold_field io_log scan_file_io_log). Qed.

(** The classifier's only read is its sniff. *)
Lemma is_text_file_reads p content ev :
  In ev (snd (is_text_file p content)) -> ev = EvSniff p.
Proof.
  unfold is_text_file.
  destruct (str_in _ TEXT_EXTENSIONS); [intros []|].
  destruct (str_in _ TEXT_NAMES); [intros []|].
  simpl. intros [H|[]]. now symmetry.
Qed.

(** What a candidate adds is about that candidate. *)
Lemma step_files_path p e : In e (files (step' p)) -> fr_path e = p.
Proof.
  unfold step. loop_cases; simpl; try tauto.
  intros [<-|[]]. reflexivity.
Qed.

Lemma step_tasks p t : In t (tasks (step' p)) -> t = task_of c p.
Proof.
  unfold step. loop_cases; simpl; try tauto.
  intros [<-|[]]. reflexivity.
Qed.

Lemma step_skipped_path p r : In r (skipped (step' p)) -> sk_path r = p.
Proof.
  unfold step. loop_cases; simpl; try tauto;
    intros [<-|[]]; reflexivity.
Qed.

Lemma step_io_log p ev : In ev (io_log (step' p)) -> ev = EvSniff p.
Proof.
  unfold step. loop_cases; simpl; try tauto;
    match goal with
    | H : is_text_file ?p ?x = (_, ?l) |- _ =>
      intros Hin; apply (is_text_file_reads p x); rewrite H; exact Hin
    end.
Qed.

(** The body of the loop for a candidate that reaches the cache lookup:
    served from the cache when [needs_read] is false, a task otherwise. *)
Lemma scan_file_reaches_cache st p st_size st_mtime :
  reaches' p st_size st_mtime ->
  let st1 := log st (snd (is_text_file p (fi_content (fs p)))) in
  let entry := dict_get cache_files p in
  scan_file' st p =
  if needs_read (hash_mode c) entry (cache_hit entry st_size st_mtime)
  then dispatch c st1 p st_size st_mtime
  else match entry with
       | Some e => record_file c (count_hit st1) (hit_record c p e st_size st_mtime)
       | None => dispatch c st1 p st_size st_mtime
       end.
Proof.
  intros (Hf & Hs & Hl & Hsz & Ht). unfold scan_file.
  rewrite Hf, Hs, Hl. cbn [negb].
  assert (Hgt : (st_size >? max_file_size c) = false) by lia.
  rewrite Hgt.
  destruct (is_text_file p (fi_content (fs p))) as [is_text reads].
  simpl in Ht. subst is_text. cbn [negb fst snd].
  destruct (needs_read _ _ _); reflexivity.
Qed.

End ScanLoop.

(** ** Running the tasks *)

Section TaskRunner.
Variable tiktoken_encode : string -> text -> option Z.
Variable c : Config.
Variable fs : filesystem.

Abbreviation process' := (process_file_task tiktoken_encode fs).
Abbreviation run_tasks' := (run_tasks tiktoken_encode c fs).

(** A task returns: no exception leaves [process_file_task]. *)
Lemma process_file_task_returns t : exists r, snd (process' t) = Some r.
Proof.
  unfold process_file_task.
  destruct (fi_content (fs (t_rel_path t))) as [msg|data]; simpl; eauto.
  destruct (has_nul data); simpl; eauto.
  destruct (decode_text_total data) as [txt ->]. simpl.
  destruct (_ >? _); eauto.
Qed.

(** Its result and its reads are about its own file. *)
Lemma process_file_task_path t reads r :
  process' t = (reads, Some r) ->
  result_path r = t_rel_path t /\ forall ev, In ev reads -> event_path ev = t_rel_path t.
Proof.
  unfold process_file_task.
  destruct (fi_content (fs (t_rel_path t))) as [msg|data].
  - intros [= <- <-]. simpl. intuition (subst; auto).
  - destruct (has_nul data).
    + intros [= <- <-]. simpl. intuition (subst; auto).
    + destruct (decode_text data); [|discriminate].
      destruct (_ >? _); intros [= <- <-]; simpl; intuition (subst; auto).
Qed.

Lemma run_tasks_returns ts : forall st, exists st', run_tasks' ts st = Some st'.
Proof.
  induction ts as [|t ts IH]; intros st; simpl; eauto.
  destruct (process_file_task_returns t) as [r Hr].
  destruct (process' t) as [reads res]. simpl in Hr. subst res. apply IH.
Qed.

(** A property that every merge keeps holds when the tasks are done. *)
Lemma run_tasks_invariant (P : ScanState -> Prop) ts : forall st st',
  (forall s t reads r, In t ts -> process' t = (reads, Some r) ->
                       P s -> P (merge_result c (log s reads) r)) ->
  P st -> run_tasks' ts st = Some st' -> P st'.
Proof.
  induction ts as [|t ts IH]; intros st st' Hstep HP; simpl.
  - now intros [= <-].
  - destruct (process' t) as [reads [r|]] eqn:E; [|discriminate].
    apply IH.
    + intros s t' reads' r' Hin. apply Hstep. now right.
    + apply (Hstep st t reads r); auto. now left.
Qed.

(** What merging one result changes. *)
Lemma merge_result_files s r e :
  In e (files (merge_result c s r)) ->
  In e (files s) \/ (fr_path e = result_path r /\ result_path r <> ""
                     /\ exists tokens h, r = TaskOk (result_path r) tokens h
                          /\ fr_tokens e = tokens /\ fr_content_hash e = keep_truthy h).
Proof.
  unfold merge_result.
  destruct (String.eqb_spec (result_path r) "") as [E|E].
  - destruct r; simpl in *; rewrite E; simpl; auto.
  - destruct r as [p err|p reason tok|p tokens h]; simpl in E |- *;
      apply String.eqb_neq in E; rewrite E; simpl; auto.
    rewrite in_app_iff. simpl. intros [H|[<-|[]]]; auto.
    right. simpl. apply String.eqb_neq in E. repeat split; eauto.
Qed.

Lemma merge_result_files_incl s r : incl (files s) (files (merge_result c s r)).
Proof.
  unfold merge_result. intros e He.
  destruct r; simpl; destruct (_ =? "")%string; simpl; auto.
  apply in_or_app. now left.
Qed.

Lemma merge_result_skipped s r x :
  In x (skipped (merge_result c s r)) ->
  In x (skipped s) \/ (sk_path x = result_path r /\ result_path r <> ""
                       /\ forall tokens h, r <> TaskOk (result_path r) tokens h).
Proof.
  unfold merge_result.
  destruct (String.eqb_spec (result_path r) "") as [E|E].
  - destruct r; simpl in *; rewrite E; simpl; auto.
  - destruct r as [p err|p reason tok|p tokens h]; simpl in E |- *;
      apply String.eqb_neq in E; rewrite E; simpl; auto;
      rewrite in_app_iff; simpl; intros [H|[<-|[]]]; auto;
      right; simpl; apply String.eqb_neq in E; repeat split; auto; discriminate.
Qed.

Lemma merge_result_skipped_incl s r : incl (skipped s) (skipped (merge_result c s r)).
Proof.
  unfold merge_result. intros e He.
  destruct r; simpl; destruct (_ =? "")%string; simpl; auto;
  apply in_or_app; now left.
Qed.

Lemma merge_result_io_log s r : io_log (merge_result c s r) = io_log s.
Proof.
  unfold merge_result. destruct r; simpl; destruct (_ =? "")%string; reflexivity.
Qed.

(** The tasks only add to [files] and [skipped]. *)
Lemma run_tasks_incl ts st st' :
  run_tasks' ts st = Some st' ->
  incl (files st) (files st') /\ incl (skipped st) (skipped st')
  /\ incl (io_log st) (io_log st').
Proof.
  intros H.
  apply (run_tasks_invariant
           (fun s => incl (files st) (files s) /\ incl (skipped st) (skipped s)
                     /\ incl (io_log st) (io_log s)) ts st st'); auto.
  - intros s t reads r _ _ (Hf & Hs & Hl). repeat split.
    + exact (incl_tran Hf (merge_result_files_incl (log s reads) r)).
    + exact (incl_tran Hs (merge_result_skipped_incl (log s reads) r)).
    + rewrite merge_result_io_log. simpl. apply incl_appl. exact Hl.
  - repeat split; apply incl_refl.
Qed.

(** Every file, skip record and read the tasks add is about the file of
    one of the tasks; a skip record comes from a result that is no
    [TaskOk]. *)
Lemma run_tasks_origin ts st st' :
  run_tasks' ts st = Some st' ->
  (forall e, In e (files st') ->
     In e (files st) \/ exists t, In t ts /\ fr_path e = t_rel_path t)
  /\ (forall x, In x (skipped st') ->
     In x (skipped st) \/
     exists t reads r, In t ts /\ process' t = (reads, Some r)
                       /\ sk_path x = t_rel_path t
                       /\ forall tokens h, r <> TaskOk (t_rel_path t) tokens h)
  /\ (forall ev, In ev (io_log st') ->
     In ev (io_log st) \/ exists t, In t ts /\ event_path ev = t_rel_path t).
Proof.
  intros H.
  apply (run_tasks_invariant
           (fun s =>
              (forall e, In e (files s) ->
                 In e (files st) \/ exists t, In t ts /\ fr_path e = t_rel_path t)
              /\ (forall x, In x (skipped s) ->
                 In x (skipped st) \/
                 exists t reads r, In t ts /\ process' t = (reads, Some r)
                                   /\ sk_path x = t_rel_path t
                                   /\ forall tokens h, r <> TaskOk (t_rel_path t) tokens h)
              /\ (forall ev, In ev (io_log s) ->
                 In ev (io_log st) \/ exists t, In t ts /\ event_path ev = t_rel_path t))
           ts st st'); auto.
  intros s t reads r Hin Hp (Hf & Hs & Hl).
  destruct (process_file_task_path t reads r Hp) as [Hpath Hreads].
  repeat split.
  - intros e He. apply merge_result_files in He as [He|(He & _)]; [now apply Hf|].
    right. exists t. split; auto. congruence.
  - intros x Hx. apply merge_result_skipped in Hx as [Hx|(Hx & _ & Hno)]; [now apply Hs|].
    right. exists t, reads, r. repeat split; auto; congruence.
  - intros ev Hev. rewrite merge_result_io_log in Hev. simpl in Hev.
    apply in_app_or in Hev as [Hev|Hev]; [auto|].
    right. exists t. split; auto.
Qed.

(** A task that returns a token count leaves a file record. *)
Lemma run_tasks_records ts : forall st st' t reads tokens h,
  In t ts ->
  process' t = (reads, Some (TaskOk (t_rel_path t) tokens h)) ->
  t_rel_path t <> "" ->
  run_tasks' ts st = Some st' ->
  exists e, In e (files st') /\ fr_path e = t_rel_path t /\ fr_tokens e = tokens
            /\ fr_content_hash e = keep_truthy h.
Proof.
  induction ts as [|t0 ts IH]; intros st st' t reads tokens h Hin Hp Hne; [destruct Hin|].
  simpl. destruct Hin as [->|Hin].
  - rewrite Hp. intros Hrun.
    apply run_tasks_incl in Hrun as (Hincl & _).
    eexists. split.
    + apply Hincl. unfold merge_result. simpl.
      apply String.eqb_neq in Hne. rewrite Hne. simpl.
      apply in_or_app. right. left. reflexivity.
    + simpl. auto.
  - destruct (process' t0) as [reads0 [r0|]]; [|discriminate].
    apply (IH _ _ _ _ _ _ Hin Hp Hne).
Qed.

(** Every task reads its file. *)
Lemma process_file_task_reads t : In (EvRead (t_rel_path t)) (fst (process' t)).
Proof.
  unfold process_file_task.
  destruct (fi_content (fs (t_rel_path t))) as [msg|data]; [now left|].
  destruct (has_nul data); [now left|].
  destruct (decode_text data); now left.
Qed.

Lemma run_tasks_reads ts : forall st st' t,
  In t ts -> run_tasks' ts st = Some st' ->
  In (EvRead (t_rel_path t)) (io_log st').
Proof.
  induction ts as [|t0 ts IH]; intros st st' t Hin; [destruct Hin|].
  simpl. pose proof (process_file_task_reads t0) as Hread.
  destruct (process' t0) as [reads [r0|]]; [|discriminate].
  destruct Hin as [->|Hin]; [|now apply IH].
  intros Hrun. apply run_tasks_incl in Hrun as (_ & _ & Hincl).
  apply Hincl. rewrite merge_result_io_log. simpl.
  apply in_or_app. now right.
Qed.

End TaskRunner.

(** ** The whole scan *)

Section WholeScan.
Variable float_repr : float -> string.
Variable tiktoken_encode : string -> text -> option Z.
Variable passes_filters : string -> bool.
Variable c : Config.
Variable fs : filesystem.
Variable cache_files : dict CacheEntry.

Abbreviation scan :=
  (scan_directory float_repr tiktoken_encode passes_filters c fs cache_files).
Abbreviation loop := (scan_files passes_filters c fs cache_files).
Abbreviation body := (scan_file passes_filters c fs cache_files).
Abbreviation step' := (step passes_filters c fs cache_files).
Abbreviation reaches := (reaches_cache passes_filters c fs).

(** The result's collections are those of the state the tasks leave. *)
Lemma scan_directory_state candidates prev r :
  scan candidates prev = Some r ->
  exists st,
    run_tasks tiktoken_encode c fs (tasks (loop candidates)) (loop candidates) = Some st
    /\ r_files r = files st /\ r_skipped r = skipped st /\ r_reads r = io_log st
    /\ r_saved_cache r = (if cache_enabled c then Some (new_cache_files st) else None)
    /\ r_module_hashes r = compute_module_hashes float_repr (files st) (module_depth c)
    /\ r_scan_hash r = compute_scan_hash float_repr (files st)
    /\ r_entrypoints r = detect_entrypoints (files st) (entrypoints_limit c).
Proof.
  unfold scan_directory.
  destruct (run_tasks _ _ _ _ _) as [st|]; [|discriminate].
  intros H. exists st. split; [reflexivity|].
  destruct prev as [prev_data|].
  - destruct (prev_module_hashes prev_data); [|discriminate].
    injection H as <-. simpl. repeat split; reflexivity.
  - injection H as <-. simpl. repeat split; reflexivity.
Qed.

(** The scan returns when the previous result, if one is given, is an
    object. *)
Lemma scan_directory_returns candidates prev :
  prev_is_object prev -> exists r, scan candidates prev = Some r.
Proof.
  intros Hprev. unfold scan_directory.
  destruct (run_tasks_returns tiktoken_encode c fs (tasks (loop candidates))
              (loop candidates)) as [st ->].
  destruct prev as [v|]; [|eauto].
  destruct (Hprev v eq_refl) as [d ->]. simpl. eauto.
Qed.

(** Where the files, skip records and reads of a result come from: a
    candidate of the loop, or a task the loop dispatched. *)
Lemma loop_origin candidates :
  (forall e, In e (files (loop candidates)) ->
     exists p, In p candidates /\ In e (files (step' p)))
  /\ (forall t, In t (tasks (loop candidates)) ->
     exists p, In p candidates /\ In t (tasks (step' p)))
  /\ (forall x, In x (skipped (loop candidates)) ->
     exists p, In p candidates /\ In x (skipped (step' p)))
  /\ (forall ev, In ev (io_log (loop candidates)) ->
     exists p, In p candidates /\ In ev (io_log (step' p))).
Proof.
  rewrite scan_files_files, scan_files_tasks, scan_files_skipped, scan_files_io_log.
  repeat split; intros x Hx; apply in_flat_map in Hx; exact Hx.
Qed.

Lemma loop_keeps candidates p :
  In p candidates ->
  incl (files (step' p)) (files (loop candidates))
  /\ incl (tasks (step' p)) (tasks (loop candidates))
  /\ incl (skipped (step' p)) (skipped (loop candidates)).
Proof.
  intros Hp.
  rewrite scan_files_files, scan_files_tasks, scan_files_skipped.
  repeat split; intros x Hx; apply in_flat_map; eauto.
Qed.

(** *** Oversize files *)

Lemma step_oversize p st_size st_mtime :
  passes_filters p = true ->
  fi_stat (fs p) = Some (st_size, st_mtime) ->
  st_size > max_file_size c ->
  step' p = skip initial_state (oversize_record c fs p st_size).
Proof.
  intros Hf Hs Hsz. unfold step, scan_file, oversize_record.
  rewrite Hf, Hs. cbn [negb].
  destruct (negb (follow_symlinks c) && fi_is_symlink (fs p)); [reflexivity|].
  assert (H : (st_size >? max_file_size c) = true) by lia.
  now rewrite H.
Qed.

(** C6, as amended. A candidate that passes the filters and whose size
    is over [max_file_size] has no record in [files]; nothing reads it,
    neither the classifier nor a task, and no token count is computed
    for it; [skipped] holds one record for it and no other: with reason
    [symlink] when it is a symlink and symlinks are not followed, and
    with reason [too_large] and its size otherwise. *)
Theorem oversize_file_is_skipped_unread
    (candidates : list string) (prev : option pyval)
    (p : string) (st_size : Z) (st_mtime : float) :
  prev_is_object prev ->
  In p candidates ->
  passes_filters p = true ->
  fi_stat (fs p) = Some (st_size, st_mtime) ->
  st_size > max_file_size c ->
  exists r,
    scan candidates prev = Some r
    /\ (forall e, In e (r_files r) -> fr_path e <> p)
    /\ (forall ev, In ev (r_reads r) -> event_path ev <> p)
    /\ In (oversize_record c fs p st_size) (r_skipped r)
    /\ (forall x, In x (r_skipped r) -> sk_path x = p ->
        x = oversize_record c fs p st_size).
Proof.
  intros Hprev Hin Hf Hs Hsz.
  destruct (scan_directory_returns candidates prev Hprev) as [r Hscan].
  exists r. split; [exact Hscan|].
  destruct (scan_directory_state _ _ _ Hscan) as (st & Hrun & -> & -> & -> & _).
  pose proof (step_oversize p st_size st_mtime Hf Hs Hsz) as Hstep.
  destruct (loop_origin candidates) as (Hfiles & Htasks & Hskips & Hlog).
  destruct (run_tasks_origin _ _ _ _ _ _ Hrun) as (Of & Os & Ol).
  assert (Hno_task : forall t, In t (tasks (loop candidates)) -> t_rel_path t <> p).
  { intros t Ht. destruct (Htasks t Ht) as (q & Hq & Hqt).
    intros E. apply step_tasks in Hqt as Ht'. subst t. simpl in E. subst q.
    rewrite Hstep in Hqt. exact Hqt. }
  repeat split.
  - intros e He E. destruct (Of e He) as [H0|(t & Ht & Hpath)].
    + destruct (Hfiles e H0) as (q & Hq & Hqe).
      apply step_files_path in Hqe as Hpq. rewrite E in Hpq. subst q.
      rewrite Hstep in Hqe. exact Hqe.
    + apply (Hno_task t Ht). congruence.
  - intros ev Hev E. destruct (Ol ev Hev) as [H0|(t & Ht & Hpath)].
    + destruct (Hlog ev H0) as (q & Hq & Hqe).
      apply step_io_log in Hqe as Hev'. subst ev. simpl in E. subst q.
      rewrite Hstep in Hqe. exact Hqe.
    + apply (Hno_task t Ht). congruence.
  - apply (run_tasks_incl _ _ _ _ _ _ Hrun).
    apply (loop_keeps candidates p Hin). rewrite Hstep. simpl. now left.
  - intros x Hx E. destruct (Os x Hx) as [H0|(t & reads & res & Ht & _ & Hpath & _)].
    + destruct (Hskips x H0) as (q & Hq & Hqx).
      apply step_skipped_path in Hqx as Hpq. rewrite E in Hpq. subst q.
      rewrite Hstep in Hqx. simpl in Hqx. destruct Hqx as [<-|[]]. reflexivity.
    + exfalso. apply (Hno_task t Ht). congruence.
Qed.

(** *** Hash mode [mtime]: no content hash anywhere *)

Lemma record_file_hashless st e :
  hashless st -> fr_content_hash e = None -> hashless (record_file c st e).
Proof.
  intros [Hf Hc] He. split; simpl.
  - intros e' Hin. apply in_app_or in Hin as [Hin|[<-|[]]]; auto.
  - intros p ce. destruct (cache_enabled c); [|apply Hc].
    intros Hin. apply dict_set_In in Hin as [[= _ ->]|Hin]; eauto.
Qed.

Lemma scan_file_hashless st p :
  hash_mode c = "mtime" -> hashless st -> hashless (body st p).
Proof.
  intros Hmode Hst. unfold scan_file.
  repeat match goal with
         | |- context [match ?x with _ => _ end] => destruct x eqn:?
         end; try exact Hst.
  apply record_file_hashless; [exact Hst|].
  unfold hit_record. simpl. now rewrite Hmode.
Qed.

Lemma loop_hashless candidates :
  hash_mode c = "mtime" -> hashless (loop candidates).
Proof.
  intros Hmode. unfold scan_files.
  assert (H : forall st, hashless st -> hashless (fold_left body candidates st)).
  { induction candidates as [|p ps IH]; intros st Hst; simpl; auto.
    apply IH. now apply scan_file_hashless. }
  apply H. split; simpl; tauto.
Qed.

(** A task under [mtime] computes no hash. *)
Lemma process_file_task_mtime t reads p tokens h :
  t_hash_mode t = "mtime" ->
  process_file_task tiktoken_encode fs t = (reads, Some (TaskOk p tokens h)) ->
  h = None.
Proof.
  intros Hmode. unfold process_file_task.
  destruct (fi_content (fs (t_rel_path t))) as [msg|data]; [discriminate|].
  destruct (has_nul data); [discriminate|].
  destruct (decode_text data); [|discriminate].
  destruct (_ >? _); [discriminate|].
  rewrite Hmode. simpl. now intros [= _ _ _ <-].
Qed.

Lemma merge_result_hashless st r :
  hashless st ->
  (forall p tokens h, r = TaskOk p tokens h -> h = None) ->
  hashless (merge_result c st r).
Proof.
  intros Hst Hr. unfold merge_result.
  destruct r as [p err|p reason tok|p tokens h]; simpl;
    destruct (p =? "")%string; try exact Hst.
  apply record_file_hashless; [exact Hst|].
  simpl. now rewrite (Hr p tokens h eq_refl).
Qed.

(** C9. In a run under hash mode [mtime] no record of [files] and no
    entry of the cache written at the end holds a content hash,
    whatever the loaded cache held. *)
Theorem mtime_mode_keeps_no_content_hash
    (candidates : list string) (prev : option pyval) :
  hash_mode c = "mtime" ->
  prev_is_object prev ->
  exists r,
    scan candidates prev = Some r
    /\ (forall e, In e (r_files r) -> fr_content_hash e = None)
    /\ (forall entries p e,
          r_saved_cache r = Some entries -> In (p, e) entries ->
          ce_content_hash e = None).
Proof.
  intros Hmode Hprev.
  destruct (scan_directory_returns candidates prev Hprev) as [r Hscan].
  exists r. split; [exact Hscan|].
  destruct (scan_directory_state _ _ _ Hscan)
    as (st & Hrun & -> & _ & _ & Hsaved & _).
  assert (Hst : hashless st).
  { apply (run_tasks_invariant tiktoken_encode c fs hashless _ _ _) with (3 := Hrun).
    - intros s t reads res Hin Hp Hs.
      apply merge_result_hashless; [exact Hs|].
      intros p tokens h ->.
      apply (process_file_task_mtime t reads p tokens h); [|exact Hp].
      destruct (loop_origin candidates)
        as (_ & Htasks & _).
      destruct (Htasks t Hin) as (q & _ & Hq).
      apply step_tasks in Hq. subst t. exact Hmode.
    - now apply loop_hashless. }
  destruct Hst as [Hf Hc]. split; [exact Hf|].
  intros entries p e. rewrite Hsaved.
  destruct (cache_enabled c); [|discriminate].
  intros [= <-]. apply Hc.
Qed.

(** *** Text that is not valid UTF-8 *)

(** What a task returns for content without a NUL byte: a token count,
    or [too_many_tokens]; never an error and never [binary]. *)
Lemma process_file_task_text t data txt :
  fi_content (fs (t_rel_path t)) = Content data ->
  has_nul data = false ->
  decode_text data = Some txt ->
  let tokens := count_tokens tiktoken_encode txt (t_tokenizer t) (t_encoding_name t) in
  process_file_task tiktoken_encode fs t =
  ([EvRead (t_rel_path t); EvTokens (t_rel_path t)],
   if tokens >? t_max_file_tokens t
   then Some (TaskSkip (t_rel_path t) "too_many_tokens" (Some tokens))
   else Some (TaskOk (t_rel_path t) tokens
                (if (t_hash_mode t =? "full")%string then Some (hash_bytes data)
                 else if (t_hash_mode t =? "fast")%string then Some (hash_data_fast data)
                 else None))).
Proof.
  intros Hc Hn Hd. unfold process_file_task. now rewrite Hc, Hn, Hd.
Qed.

Lemma known_extension_is_text p content :
  str_in (lower (path_suffix p)) TEXT_EXTENSIONS = true ->
  is_text_file p content = (true, []).
Proof. intros H. unfold is_text_file. now rewrite H. Qed.

(** *** The hit test and the re-read *)

(** A candidate the loop serves from the cache is read by no task. *)
Lemma untasked_reads candidates prev r p ev :
  tasks (step' p) = [] ->
  scan candidates prev = Some r ->
  In ev (r_reads r) -> event_path ev = p -> ev = EvSniff p.
Proof.
  intros Hnone Hscan Hev E.
  destruct (scan_directory_state _ _ _ Hscan) as (st & Hrun & _ & _ & Hreads & _).
  rewrite Hreads in Hev.
  destruct (loop_origin candidates) as (_ & Htasks & _ & Hlog).
  destruct (run_tasks_origin _ _ _ _ _ _ Hrun) as (_ & _ & Ol).
  destruct (Ol ev Hev) as [H0|(t & Ht & Hpath)].
  - destruct (Hlog ev H0) as (q & _ & Hq).
    apply step_io_log in Hq. subst ev. simpl in E. now subst q.
  - exfalso. destruct (Htasks t Ht) as (q & _ & Hq).
    apply step_tasks in Hq as Ht'. subst t. simpl in Hpath.
    rewrite E in Hpath. subst q.
    rewrite Hnone in Hq. exact Hq.
Qed.

(** C1, as amended. For a candidate that reaches the cache lookup:
    [cache_hit] holds exactly when the cache has an entry for the path
    whose stored mtime and size equal the current ones. Under [mtime] the
    file is read again exactly when it is no hit; under [full] it is
    always read again; under any other mode, [fast] included, a hit is
    read again exactly when its entry has no content hash. A file that is
    not read again is served from the cache: it gets no task, is counted
    as a hit, and no task reads it or counts its tokens in the whole
    scan; a file that is read again gets a task and the scan reads it. *)
Theorem cache_hit_and_reread (st : ScanState) (p : string)
    (st_size : Z) (st_mtime : float) :
  reaches p st_size st_mtime ->
  let entry := dict_get cache_files p in
  let hit := cache_hit entry st_size st_mtime in
  let reread := needs_read (hash_mode c) entry hit in
  (hit = true <->
   exists e m, entry = Some e /\ ce_mtime e = Some m
               /\ PrimFloat.eqb m st_mtime = true /\ ce_size e = Some st_size)
  /\ (hash_mode c = "mtime" -> reread = negb hit)
  /\ (hash_mode c = "full" -> reread = true)
  /\ (hash_mode c <> "mtime" -> hash_mode c <> "full" -> hit = true ->
      (reread = true <->
       exists e, entry = Some e /\ truthy (ce_content_hash e) = false))
  /\ (reread = false ->
      (exists e, entry = Some e
         /\ files (body st p) = files st ++ [hit_record c p e st_size st_mtime])
      /\ tasks (body st p) = tasks st
      /\ cache_hits (body st p) = cache_hits st + 1
      /\ forall candidates prev,
           prev_is_object prev ->
           exists r, scan candidates prev = Some r
                     /\ ~ In (EvRead p) (r_reads r)
                     /\ ~ In (EvTokens p) (r_reads r))
  /\ (reread = true ->
      files (body st p) = files st
      /\ tasks (body st p) = tasks st ++ [task_of c p]
      /\ cache_hits (body st p) = cache_hits st
      /\ forall candidates prev,
           prev_is_object prev -> In p candidates ->
           exists r, scan candidates prev = Some r /\ In (EvRead p) (r_reads r)).
Proof.
  intros Hreach entry hit reread.
  pose proof (scan_file_reaches_cache passes_filters c fs cache_files
                st p st_size st_mtime Hreach) as Hbody.
  pose proof (scan_file_reaches_cache passes_filters c fs cache_files
                initial_state p st_size st_mtime Hreach) as Hstep.
  cbv zeta in Hbody, Hstep. fold entry hit reread in Hbody, Hstep.
  fold (step' p) in Hstep.
  assert (Hentry : reread = false -> exists e, entry = Some e).
  { intros Hr. destruct entry as [e|]; [eauto|].
    unfold reread, needs_read, hit in Hr. simpl in Hr. discriminate. }
  split; [|split; [|split; [|split; [|split]]]].
  - unfold hit, cache_hit. split.
    + destruct entry as [e|]; [|discriminate].
      intros H. apply andb_true_iff in H as [Hm Hs].
      unfold mtime_eq in Hm. destruct (ce_mtime e) as [m|] eqn:Em; [|discriminate].
      unfold size_eq in Hs. destruct (ce_size e) as [n|] eqn:En; [|discriminate].
      apply Z.eqb_eq in Hs. subst n. exists e, m. auto.
    + intros (e & m & He & Hm & Heq & Hs). rewrite He.
      unfold mtime_eq, size_eq. rewrite Hm, Hs, Heq, Z.eqb_refl. reflexivity.
  - intros Hmode. unfold reread, needs_read. rewrite Hmode. simpl.
    now rewrite !orb_false_r.
  - intros Hmode. unfold reread, needs_read. rewrite Hmode. simpl.
    now rewrite orb_true_r.
  - intros Hnm Hnf Hhit. unfold reread, needs_read. rewrite Hhit. simpl.
    apply String.eqb_neq in Hnm, Hnf. rewrite Hnm, Hnf. simpl. split.
    + destruct entry as [e|]; [|discriminate].
      intros Ht. exists e. split; auto. now apply negb_true_iff.
    + intros (e & -> & Ht). now rewrite Ht.
  - intros Hr. destruct (Hentry Hr) as [e He].
    rewrite Hr, He in Hbody, Hstep. rewrite Hbody.
    split; [exists e; split; [exact He|reflexivity]|].
    split; [reflexivity|]. split; [reflexivity|].
    intros candidates prev Hprev.
    destruct (scan_directory_returns candidates prev Hprev) as [r Hscan].
    exists r. split; [exact Hscan|].
    assert (Hnone : tasks (step' p) = []) by now rewrite Hstep.
    split; intros Hin;
      pose proof (untasked_reads candidates prev r p _ Hnone Hscan Hin eq_refl);
      discriminate.
  - intros Hr. rewrite Hr in Hbody, Hstep. rewrite Hbody.
    split; [reflexivity|]. split; [reflexivity|]. split; [reflexivity|].
    intros candidates prev Hprev Hin.
    destruct (scan_directory_returns candidates prev Hprev) as [r Hscan].
    exists r. split; [exact Hscan|].
    destruct (scan_directory_state _ _ _ Hscan) as (s & Hrun & _ & _ & -> & _).
    apply (run_tasks_reads tiktoken_encode c fs _ _ _ (task_of c p)) with (2 := Hrun).
    apply (loop_keeps candidates p Hin). rewrite Hstep. simpl. now left.
Qed.

(** *** Changed and removed modules of a scan *)

(** C5, as amended. When a previous result is given whose
    [module_hashes] is an object, a label is in [changed_modules]
    exactly when it has a digest now and the previous value under it is
    not that digest, whether it differs or is missing; it is in
    [removed_modules] exactly when it is a previous label with no digest
    now. So a label with a digest now and none before, a new module, is
    in [changed_modules] and not in [removed_modules]. *)
Theorem module_diff_membership
    (candidates : list string) (prev_data prev_hashes : dict pyval)
    (label : string) :
  dict_get prev_data "module_hashes" = Some (PDict prev_hashes) ->
  exists r changed removed,
    scan candidates (Some (PDict prev_data)) = Some r
    /\ r_changed_modules r = Some changed
    /\ r_removed_modules r = Some removed
    /\ (In label changed <->
        exists digest, dict_get (r_module_hashes r) label = Some digest
                       /\ py_eq_str (py_get prev_hashes label) digest = false)
    /\ (In label removed <->
        In label (dict_keys prev_hashes)
        /\ dict_get (r_module_hashes r) label = None)
    /\ (dict_get (r_module_hashes r) label <> None ->
        dict_get prev_hashes label = None ->
        In label changed /\ ~ In label removed).
Proof.
  intros Hprev. unfold scan_directory.
  destruct (run_tasks_returns tiktoken_encode c fs (tasks (loop candidates))
              (loop candidates)) as [st ->].
  simpl. rewrite Hprev.
  eexists. eexists. eexists. split; [reflexivity|].
  cbn [r_changed_modules r_removed_modules r_module_hashes].
  split; [reflexivity|]. split; [reflexivity|].
  apply diff_modules_membership.
Qed.

End WholeScan.

(** ** The sample runs *)

Abbreviation sample_scan mode token_ceiling cache candidates :=
  (scan_directory repr_of_zero no_encoder all_pass
     (sample_config mode token_ceiling 20) sample_tree cache candidates None).

(** C1, counterexample: under [full] a hit whose entry holds a content
    hash is read again. [a.py] is unchanged and cached with its hash, and
    the scan counts a miss, reads the file and counts its tokens. *)
Lemma full_mode_rereads_a_hit :
  cache_hit (dict_get sample_cache "a.py") 8 0%float = true
  /\ truthy (ce_content_hash a_py_entry) = true
  /\ needs_read "full" (dict_get sample_cache "a.py") true = true
  /\ outcome (sample_scan "full" 50000 sample_cache ["a.py"])
     = Some (["a.py"], [], 0, 1, [EvRead "a.py"; EvTokens "a.py"]).
Proof. vm_compute. repeat split; reflexivity. Qed.

(** C1, witness: [a.py], unchanged, in a run under [fast]. *)
Lemma cache_hit_and_reread_witness :
  reaches_cache all_pass (sample_config "fast" 50000 20) sample_tree "a.py" 8 0%float
  /\ (cache_hit (dict_get sample_cache "a.py") 8 0%float = true <->
      exists e m, dict_get sample_cache "a.py" = Some e /\ ce_mtime e = Some m
                  /\ PrimFloat.eqb m 0%float = true /\ ce_size e = Some 8).
Proof.
  assert (H : reaches_cache all_pass (sample_config "fast" 50000 20) sample_tree
                "a.py" 8 0%float).
  { repeat split; try reflexivity. simpl. lia. }
  split; [exact H|].
  exact (proj1 (cache_hit_and_reread repr_of_zero no_encoder all_pass
                  (sample_config "fast" 50000 20)
                  sample_tree sample_cache initial_state "a.py" 8 0%float H)).
Defined.

(** C6, counterexample: an unfollowed symlink to a file over the size
    ceiling is skipped as [symlink], not as [too_large]. *)
Lemma oversize_symlink_is_skipped_as_symlink :
  fi_stat (sample_tree "link.py") = Some (24, 0%float)
  /\ 24 > max_file_size (sample_config "mtime" 50000 20)
  /\ outcome (sample_scan "mtime" 50000 [] ["link.py"])
     = Some ([], [("link.py", "symlink")], 0, 0, []).
Proof. vm_compute. repeat split; reflexivity. Qed.

(** C6, witness: [big.py], 24 bytes under a ceiling of 16. *)
Lemma oversize_file_is_skipped_unread_witness :
  prev_is_object None
  /\ In "big.py" ["a.py"; "big.py"]
  /\ all_pass "big.py" = true
  /\ fi_stat (sample_tree "big.py") = Some (24, 0%float)
  /\ 24 > max_file_size (sample_config "mtime" 50000 20)
  /\ exists r,
       sample_scan "mtime" 50000 [] ["a.py"; "big.py"] = Some r
       /\ In {| sk_path := "big.py"; sk_reason := "too_large";
                sk_size_bytes := Some 24; sk_tokens := None |} (r_skipped r).
Proof.
  assert (Hprev : prev_is_object None) by (intros v Hv; discriminate Hv).
  assert (Hin : In "big.py" ["a.py"; "big.py"]) by (right; left; reflexivity).
  assert (Hsz : 24 > max_file_size (sample_config "mtime" 50000 20)) by (simpl; lia).
  repeat split; try assumption.
  destruct (oversize_file_is_skipped_unread repr_of_zero no_encoder all_pass
              (sample_config "mtime" 50000 20) sample_tree []
              ["a.py"; "big.py"] None "big.py" 24 0%float
              Hprev Hin eq_refl eq_refl Hsz)
    as (r & Hscan & _ & _ & Hrec & _).
  exists r. split; [exact Hscan | exact Hrec].
Defined.

(** C9, witness: a run under [mtime] over a cache whose entry for [a.py]
    holds a content hash. *)
Lemma mtime_mode_keeps_no_content_hash_witness :
  hash_mode (sample_config "mtime" 50000 20) = "mtime"
  /\ prev_is_object None
  /\ exists r,
       sample_scan "mtime" 50000 sample_cache ["a.py"; "notes.txt"] = Some r
       /\ forall e, In e (r_files r) -> fr_content_hash e = None.
Proof.
  assert (Hprev : prev_is_object None) by (intros v Hv; discriminate Hv).
  split; [reflexivity|]. split; [exact Hprev|].
  destruct (mtime_mode_keeps_no_content_hash repr_of_zero no_encoder all_pass
              (sample_config "mtime" 50000 20) sample_tree sample_cache
              ["a.py"; "notes.txt"] None eq_refl Hprev)
    as (r & Hscan & Hfiles & _).
  exists r. split; [exact Hscan | exact Hfiles].
Defined.

(** The token ceiling applies to a text file that is not UTF-8 as to any
    other: over the ceiling it is skipped as [too_many_tokens]. *)
Lemma undecodable_text_over_token_ceiling_is_skipped :
  str_in (lower (path_suffix "notes.txt")) TEXT_EXTENSIONS = true
  /\ has_nul undecodable = false
  /\ utf8_decode Strict undecodable = None
  /\ outcome (sample_scan "mtime" 1 [] ["notes.txt"])
     = Some ([], [("notes.txt", "too_many_tokens")], 0, 1,
             [EvRead "notes.txt"; EvTokens "notes.txt"]).
Proof. vm_compute. repeat split; reflexivity. Qed.

(** C5, counterexample: the previous result has no module; the module of
    [a.py], present only now, is reported in [changed_modules]. *)
Lemma new_module_is_reported_changed :
  dict_get (@nil (string * pyval)) "a.py" = None
  /\ option_map (fun r => (dict_keys (r_module_hashes r), r_changed_modules r,
                           r_removed_modules r))
       (scan_directory repr_of_zero no_encoder all_pass
          (sample_config "mtime" 50000 20) sample_tree [] ["a.py"]
          (Some first_scan))
     = Some (["a.py"], Some ["a.py"], Some []).
Proof. vm_compute. split; reflexivity. Qed.

(** C5, witness: the same run. *)
Lemma module_diff_membership_witness :
  dict_get [("module_hashes", PDict [])] "module_hashes" = Some (PDict [])
  /\ exists r changed,
       scan_directory repr_of_zero no_encoder all_pass
         (sample_config "mtime" 50000 20) sample_tree [] ["a.py"] (Some first_scan)
       = Some r
       /\ r_changed_modules r = Some changed /\ In "a.py" changed.
Proof.
  split; [reflexivity|].
  destruct (module_diff_membership repr_of_zero no_encoder all_pass
              (sample_config "mtime" 50000 20) sample_tree []
              ["a.py"] [("module_hashes", PDict [])] [] "a.py" eq_refl)
    as (r & changed & removed & Hscan & Hc & _ & _ & _ & Hnew).
  exists r, changed. split; [exact Hscan|]. split; [exact Hc|].
  apply Hnew; [|reflexivity].
  unfold scan_directory in Hscan. vm_compute in Hscan.
  injection Hscan as <-. vm_compute. discriminate.
Defined.

(* ================================================================== *)
(** * Properties of the scan as a whole, and of its helpers *)

(** ** The scan in closed form *)

Section Merge.

Variable tiktoken_encode : string -> text -> option Z.
Variable c : Config.
Variable fs : filesystem.

Lemma merge_result_closed s r :
  files (merge_result c s r) = files s ++ merged_files (task_meta s) r
  /\ skipped (merge_result c s r) = skipped s ++ merged_skips r
  /\ total_tokens (merge_result c s r) = total_tokens s + sum_tokens (merged_files (task_meta s) r)
  /\ cache_hits (merge_result c s r) = cache_hits s
  /\ cache_misses (merge_result c s r) = cache_misses s + 1
  /\ tasks (merge_result c s r) = tasks s
  /\ task_meta (merge_result c s r) = task_meta s
  /\ new_cache_files (merge_result c s r) =
     (if cache_enabled c then fold_left cache_set (merged_files (task_meta s) r) (new_cache_files s)
      else new_cache_files s).
Proof.
  unfold merge_result, merged_files, merged_skips.
  destruct r as [p e|p reason tok|p tokens h]; cbn [count_miss task_meta];
    destruct (p =? "")%string; cbn; rewrite ?app_nil_r, ?Z.add_0_r;
    repeat split; try reflexivity; try (destruct (cache_enabled c); reflexivity).
Qed.

End Merge.

Section Steps.

Variable tiktoken_encode : string -> text -> option Z.
Variable passes_filters : string -> bool.
Variable c : Config.
Variable fs : filesystem.
Variable cache_files : dict CacheEntry.

Abbreviation body := (scan_file passes_filters c fs cache_files).
Abbreviation step1 := (step passes_filters c fs cache_files).
Abbreviation loop := (scan_files passes_filters c fs cache_files).
Abbreviation reaches := (reaches_cache passes_filters c fs).

(** What a candidate does: nothing or a skip record; a record served from
    the cache; or a task. *)
Lemma step_cases p :
  (files (step1 p) = [] /\ tasks (step1 p) = [] /\ task_meta (step1 p) = []
   /\ new_cache_files (step1 p) = [] /\ cache_hits (step1 p) = 0
   /\ total_tokens (step1 p) = 0
   /\ len (skipped (step1 p)) = (if passes_filters p then 1 else 0)
   /\ forall st_size st_mtime, ~ reaches p st_size st_mtime)
  \/ (exists st_size st_mtime e,
        reaches p st_size st_mtime
        /\ dict_get cache_files p = Some e
        /\ needs_read (hash_mode c) (Some e) (cache_hit (Some e) st_size st_mtime) = false
        /\ files (step1 p) = [hit_record c p e st_size st_mtime]
        /\ tasks (step1 p) = [] /\ task_meta (step1 p) = []
        /\ skipped (step1 p) = []
        /\ new_cache_files (step1 p) =
           (if cache_enabled c
            then [(p, entry_of (hit_record c p e st_size st_mtime))] else [])
        /\ cache_hits (step1 p) = 1
        /\ total_tokens (step1 p) = fr_tokens (hit_record c p e st_size st_mtime))
  \/ (exists st_size st_mtime,
        reaches p st_size st_mtime
        /\ needs_read (hash_mode c) (dict_get cache_files p)
             (cache_hit (dict_get cache_files p) st_size st_mtime) = true
        /\ files (step1 p) = []
        /\ tasks (step1 p) = [task_of c p]
        /\ task_meta (step1 p) = [(p, (st_size, st_mtime))]
        /\ skipped (step1 p) = []
        /\ new_cache_files (step1 p) = [] /\ cache_hits (step1 p) = 0
        /\ total_tokens (step1 p) = 0).
Proof.
  unfold step, scan_file.
  destruct (passes_filters p) eqn:Hf; cbn [negb].
  2:{ left. cbn. repeat split; try reflexivity.
      intros sz m (H & _). congruence. }
  destruct (fi_stat (fs p)) as [[st_size st_mtime]|] eqn:Hs.
  2:{ left. cbn. repeat split; try reflexivity.
      intros sz m (_ & H & _). congruence. }
  destruct (negb (follow_symlinks c) && fi_is_symlink (fs p)) eqn:Hl.
  { left. cbn. repeat split; try reflexivity.
    intros sz m (_ & _ & H & _). congruence. }
  destruct (st_size >? max_file_size c) eqn:Hsz.
  { left. cbn. repeat split; try reflexivity.
    intros sz m (_ & H & _ & H' & _). rewrite Hs in H. injection H as <- <-. lia. }
  destruct (is_text_file p (fi_content (fs p))) as [is_text reads] eqn:Ht.
  destruct is_text; cbn [negb].
  2:{ left. cbn. repeat split; try reflexivity.
      intros sz m (_ & _ & _ & _ & H). rewrite Ht in H. discriminate. }
  assert (Hr : reaches p st_size st_mtime).
  { repeat split; auto. lia. rewrite Ht. reflexivity. }
  destruct (needs_read (hash_mode c) (dict_get cache_files p)
              (cache_hit (dict_get cache_files p) st_size st_mtime)) eqn:Hn.
  - right. right. exists st_size, st_mtime. split; [exact Hr|]. cbn. repeat split; auto.
  - destruct (dict_get cache_files p) as [e|] eqn:He.
    + right. left. exists st_size, st_mtime, e. split; [exact Hr|]. cbn.
      repeat split; auto.
    + discriminate Hn.
Qed.

End Steps.

Lemma sum_of_app {A} (f : A -> Z) l l' : sum_of f (l ++ l') = sum_of f l + sum_of f l'.
Proof. induction l as [|x l IH]; simpl; [reflexivity|]. rewrite IH. lia. Qed.

Lemma sum_tokens_app l l' : sum_tokens (l ++ l') = sum_tokens l + sum_tokens l'.
Proof. induction l as [|x l IH]; simpl; [reflexivity|]. rewrite IH. lia. Qed.

Lemma len_app {A} (l l' : list A) : len (l ++ l') = len l + len l'.
Proof. unfold len. rewrite List.length_app. lia. Qed.

Lemma sum_tokens_flat_map {A} (f : A -> list FileRecord) l :
  sum_tokens (flat_map f l) = sum_of (fun x => sum_tokens (f x)) l.
Proof. induction l as [|x l IH]; simpl; [reflexivity|]. now rewrite sum_tokens_app, IH. Qed.

Lemma len_flat_map {A B} (f : A -> list B) l :
  len (flat_map f l) = sum_of (fun x => len (f x)) l.
Proof. induction l as [|x l IH]; simpl; [reflexivity|]. now rewrite len_app, IH. Qed.

Lemma sum_of_ext {A} (f g : A -> Z) l :
  (forall x, In x l -> f x = g x) -> sum_of f l = sum_of g l.
Proof.
  induction l as [|x l IH]; simpl; intros H; [reflexivity|].
  rewrite (H x), IH; auto.
Qed.

Lemma sum_of_add {A} (f g : A -> Z) l :
  sum_of (fun x => f x + g x) l = sum_of f l + sum_of g l.
Proof. induction l as [|x l IH]; simpl; [reflexivity|]. rewrite IH. lia. Qed.

Lemma sum_of_filter {A} (f : A -> bool) l :
  sum_of (fun x => if f x then 1 else 0) l = len (filter f l).
Proof.
  induction l as [|x l IH]; [reflexivity|].
  unfold sum_of in *. cbn [fold_right filter]. rewrite IH.
  destruct (f x); unfold len; cbn [List.length]; lia.
Qed.

Lemma dict_update_app {V} (d : dict V) l l' :
  dict_update d (l ++ l') = dict_update (dict_update d l) l'.
Proof. unfold dict_update. apply fold_left_app. Qed.

Section ClosedForms.

Variable tiktoken_encode : string -> text -> option Z.
Variable passes_filters : string -> bool.
Variable c : Config.
Variable fs : filesystem.
Variable cache_files : dict CacheEntry.

Abbreviation body := (scan_file passes_filters c fs cache_files).
Abbreviation step1 := (step passes_filters c fs cache_files).
Abbreviation loop := (scan_files passes_filters c fs cache_files).
Abbreviation reaches := (reaches_cache passes_filters c fs).

Ltac body_cases :=
  unfold step, scan_file;
  repeat match goal with
         | |- context [match ?x with _ => _ end] => destruct x eqn:?
         end.

Lemma scan_file_counters st p :
  total_tokens (body st p) = total_tokens st + total_tokens (step1 p)
  /\ cache_hits (body st p) = cache_hits st + cache_hits (step1 p)
  /\ cache_misses (body st p) = cache_misses st
  /\ cache_misses (step1 p) = 0.
Proof. body_cases; cbn; repeat split; lia. Qed.

Lemma scan_file_dicts st p :
  task_meta (body st p) = dict_update (task_meta st) (task_meta (step1 p))
  /\ new_cache_files (body st p)
     = dict_update (new_cache_files st) (new_cache_files (step1 p)).
Proof.
  body_cases; cbn; repeat split; try reflexivity;
    destruct (cache_enabled c); reflexivity.
Qed.

Lemma loop_counters candidates : forall st,
  let st' := fold_left body candidates st in
  total_tokens st' = total_tokens st + sum_of (fun p => total_tokens (step1 p)) candidates
  /\ cache_hits st' = cache_hits st + sum_of (fun p => cache_hits (step1 p)) candidates
  /\ cache_misses st' = cache_misses st
  /\ task_meta st' = dict_update (task_meta st) (flat_map (fun p => task_meta (step1 p)) candidates)
  /\ new_cache_files st'
     = dict_update (new_cache_files st) (flat_map (fun p => new_cache_files (step1 p)) candidates).
Proof.
  induction candidates as [|p ps IH]; intros st; cbn [fold_left flat_map sum_of fold_right].
  - cbn. repeat split; lia.
  - destruct (IH (body st p)) as (H1 & H2 & H3 & H4 & H5).
    destruct (scan_file_counters st p) as (C1 & C2 & C3 & _).
    destruct (scan_file_dicts st p) as (D1 & D2).
    cbv zeta. rewrite H1, H2, H3, H4, H5, C1, C2, C3, D1, D2, !dict_update_app.
    unfold sum_of. repeat split; try reflexivity; lia.
Qed.

Abbreviation task_files := (task_files tiktoken_encode fs).
Abbreviation task_skips := (task_skips tiktoken_encode fs).

Lemma run_tasks_closed ts : forall st st',
  run_tasks tiktoken_encode c fs ts st = Some st' ->
  files st' = files st ++ flat_map (task_files (task_meta st)) ts
  /\ skipped st' = skipped st ++ flat_map task_skips ts
  /\ total_tokens st' = total_tokens st + sum_tokens (flat_map (task_files (task_meta st)) ts)
  /\ cache_hits st' = cache_hits st
  /\ cache_misses st' = cache_misses st + len ts
  /\ task_meta st' = task_meta st
  /\ new_cache_files st' =
     (if cache_enabled c
      then fold_left cache_set (flat_map (task_files (task_meta st)) ts) (new_cache_files st)
      else new_cache_files st)
  /\ io_log st' = io_log st ++ flat_map (fun t => fst (process_file_task tiktoken_encode fs t)) ts.
Proof.
  induction ts as [|t ts IH]; intros st st'; cbn [run_tasks flat_map].
  - intros [= <-]. rewrite !app_nil_r. cbn. unfold len. cbn.
    repeat split; try lia. destruct (cache_enabled c); reflexivity.
  - unfold task_files at 1 3 5, task_skips at 1.
    destruct (process_file_task tiktoken_encode fs t) as [reads [r|]] eqn:E; [|discriminate].
    intros Hrun. apply IH in Hrun as (H1 & H2 & H3 & H4 & H5 & H6 & H7 & H8).
    destruct (merge_result_closed c (log st reads) r)
      as (M1 & M2 & M3 & M4 & M5 & _ & M7 & M8).
    rewrite M7 in *. cbn [task_meta log] in *.
    rewrite H1, H2, H3, H4, H5, H6, H7, H8, M1, M2, M3, M4, M5, M8.
    rewrite merge_result_io_log.
    cbn [fst snd files skipped total_tokens cache_hits cache_misses new_cache_files io_log log].
    rewrite <- !app_assoc, sum_tokens_app, fold_left_app.
    unfold len. cbn [List.length]. 
    repeat split; try reflexivity; try lia.
    destruct (cache_enabled c); reflexivity.
Qed.

End ClosedForms.

Lemma flat_map_flat_map {A B C} (f : A -> list B) (g : B -> list C) l :
  flat_map g (flat_map f l) = flat_map (fun x => flat_map g (f x)) l.
Proof.
  induction l as [|x l IH]; simpl; [reflexivity|].
  now rewrite flat_map_app, IH.
Qed.

Lemma flat_map_ext_In {A B} (f g : A -> list B) l :
  (forall x, In x l -> f x = g x) -> flat_map f l = flat_map g l.
Proof.
  induction l as [|x l IH]; intros H; simpl; [reflexivity|].
  rewrite (H x) by now left. rewrite IH; [reflexivity|].
  intros y Hy. apply H. now right.
Qed.

Lemma map_flat_map {A B C} (f : A -> list B) (g : B -> C) l :
  map g (flat_map f l) = flat_map (fun x => map g (f x)) l.
Proof.
  induction l as [|x l IH]; simpl; [reflexivity|]. now rewrite map_app, IH.
Qed.

(** ** Updating a dictionary with a list of items *)

Lemma dict_update_get_other {V} kvs : forall (d : dict V) k,
  (forall kv, In kv kvs -> fst kv <> k) ->
  dict_get (dict_update d kvs) k = dict_get d k.
Proof.
  unfold dict_update.
  induction kvs as [|[k' v'] kvs IH]; intros d k H; simpl; [reflexivity|].
  rewrite IH by (intros kv Hkv; apply H; now right).
  apply dict_get_set_other. apply (H (k', v')). now left.
Qed.

Lemma dict_update_get_same {V} kvs : forall (d : dict V) k v,
  (forall kv, In kv kvs -> fst kv = k -> snd kv = v) ->
  (exists kv, In kv kvs /\ fst kv = k) ->
  dict_get (dict_update d kvs) k = Some v.
Proof.
  unfold dict_update.
  induction kvs as [|[k' v'] kvs IH]; intros d k v Hall (kv & Hin & Hk); [destruct Hin|].
  simpl.
  destruct (in_dec string_dec k (map fst kvs)) as [Hlater|Hlater].
  - apply IH.
    + intros kv' Hkv'. apply Hall. now right.
    + apply in_map_iff in Hlater as (kv' & E & Hkv'). eauto.
  - fold (dict_update (dict_set d k' v') kvs).
    rewrite dict_update_get_other.
    + destruct Hin as [<-|Hin].
      * simpl in Hk. subst k'. rewrite dict_get_set_same. f_equal.
        apply (Hall (k, v')); [now left|reflexivity].
      * exfalso. apply Hlater. apply in_map_iff. eauto.
    + intros kv' Hkv' E. apply Hlater. apply in_map_iff. eauto.
Qed.

Lemma dict_update_get_In {V} kvs : forall (d : dict V) k v,
  dict_get (dict_update d kvs) k = Some v ->
  dict_get d k = Some v \/ In (k, v) kvs.
Proof.
  unfold dict_update.
  induction kvs as [|[k' v'] kvs IH]; intros d k v; simpl; [auto|].
  intros H. apply IH in H as [H|H]; [|auto].
  destruct (string_dec k' k) as [->|Hne].
  - rewrite dict_get_set_same in H. injection H as ->. auto.
  - rewrite dict_get_set_other in H by exact Hne. auto.
Qed.

Lemma dict_update_keys_NoDup {V} kvs : forall (d : dict V),
  NoDup (dict_keys d) -> NoDup (dict_keys (dict_update d kvs)).
Proof.
  unfold dict_update.
  induction kvs as [|[k v] kvs IH]; intros d H; simpl; [exact H|].
  apply IH. now apply dict_set_keys_NoDup.
Qed.

Lemma dict_mem_get {V} (d : dict V) k :
  dict_mem d k = true <-> exists v, dict_get d k = Some v.
Proof.
  unfold dict_mem. destruct (dict_get d k); split; eauto; try discriminate.
  intros (v & H). discriminate.
Qed.

Lemma cache_set_update l : forall d,
  fold_left cache_set l d = dict_update d (map (fun e => (fr_path e, entry_of e)) l).
Proof.
  unfold dict_update. induction l as [|e l IH]; intros d; simpl; [reflexivity|].
  now rewrite IH.
Qed.

Section Candidates.

Variable tiktoken_encode : string -> text -> option Z.
Variable passes_filters : string -> bool.
Variable c : Config.
Variable fs : filesystem.
Variable cache_files : dict CacheEntry.

Abbreviation step1 := (step passes_filters c fs cache_files).
Abbreviation loop := (scan_files passes_filters c fs cache_files).
Abbreviation reaches := (reaches_cache passes_filters c fs).
Abbreviation process := (process_file_task tiktoken_encode fs).
Abbreviation served := (served passes_filters c fs cache_files).
Abbreviation measured := (measured tiktoken_encode passes_filters c fs cache_files).
Abbreviation refused := (refused tiktoken_encode passes_filters c fs cache_files).
Abbreviation measured_from := (measured_from tiktoken_encode c).

Lemma process_file_task_ok t reads p tokens h :
  process t = (reads, Some (TaskOk p tokens h)) ->
  p = t_rel_path t
  /\ exists data txt,
       fi_content (fs p) = Content data /\ has_nul data = false
       /\ decode_text data = Some txt
       /\ tokens = count_tokens tiktoken_encode txt (t_tokenizer t) (t_encoding_name t)
       /\ tokens <= t_max_file_tokens t
       /\ h = hash_under (t_hash_mode t) data.
Proof.
  unfold process_file_task, hash_under.
  destruct (fi_content (fs (t_rel_path t))) as [msg|data] eqn:Ec; [discriminate|].
  destruct (has_nul data) eqn:En; [discriminate|].
  destruct (decode_text data) as [txt|] eqn:Ed; [|discriminate].
  destruct (_ >? _) eqn:Eg; [discriminate|].
  intros [= _ <- <- <-]. split; [reflexivity|].
  exists data, txt. repeat split; auto. lia.
Qed.

(** A task leaves one record or one skip record, unless its path is
    empty. *)
Lemma task_outcome meta t :
  t_rel_path t <> "" ->
  len (task_files tiktoken_encode fs meta t) + len (task_skips tiktoken_encode fs t) = 1.
Proof.
  intros Hne. unfold task_files, task_skips.
  destruct (process_file_task_returns tiktoken_encode fs t) as [r Hr].
  destruct (process t) as [reads res] eqn:E. simpl in Hr. subst res. simpl.
  destruct (process_file_task_path tiktoken_encode fs t reads r E) as [Hp _].
  apply String.eqb_neq in Hne.
  destruct r as [p e|p reason tok|p tokens h]; simpl in Hp; subst p; simpl;
    rewrite Hne; reflexivity.
Qed.

(** What a candidate leaves, case by case. *)
Lemma candidate_cases p :
  (served p = [] /\ measured p = []
   /\ (p <> "" -> len (refused p) = (if passes_filters p then 1 else 0))
   /\ (forall x, In x (refused p) -> sk_path x = p))
  \/ (exists st_size st_mtime e,
        reaches p st_size st_mtime
        /\ dict_get cache_files p = Some e
        /\ needs_read (hash_mode c) (Some e) (cache_hit (Some e) st_size st_mtime) = false
        /\ served p = [hit_record c p e st_size st_mtime]
        /\ measured p = [] /\ refused p = [] /\ tasks (step1 p) = [])
  \/ (exists st_size st_mtime data txt,
        reaches p st_size st_mtime
        /\ needs_read (hash_mode c) (dict_get cache_files p)
             (cache_hit (dict_get cache_files p) st_size st_mtime) = true
        /\ p <> ""
        /\ fi_content (fs p) = Content data /\ has_nul data = false
        /\ decode_text data = Some txt
        /\ fr_tokens (measured_from p st_size st_mtime data txt) <= max_file_tokens c
        /\ served p = []
        /\ measured p = [measured_from p st_size st_mtime data txt]
        /\ refused p = [] /\ tasks (step1 p) = [task_of c p]).
Proof.
  unfold served, measured, refused.
  destruct (step_cases passes_filters c fs cache_files p)
    as [(Hf & Ht & Hm & _ & _ & _ & Hs & _)
       |[(sz & m & e & Hr & He & Hn & Hf & Ht & Hm & Hs & _)
        |(sz & m & Hr & Hn & Hf & Ht & Hm & Hs & _)]].
  - left. rewrite Hf, Ht. simpl. rewrite app_nil_r. split; [reflexivity|].
    split; [reflexivity|]. split; [intros _; exact Hs|].
    intros x Hx. eapply step_skipped_path. exact Hx.
  - right. left. exists sz, m, e. rewrite Hf, Ht, Hs. simpl.
    split; [exact Hr|]. repeat split; auto.
  - rewrite Hf, Ht, Hm, Hs. cbn [flat_map app].
    rewrite !app_nil_r.
    destruct (String.eqb_spec p "") as [Hp|Hp].
    { left. unfold task_files, task_skips.
      destruct (process_file_task_returns tiktoken_encode fs (task_of c p)) as [r Hres].
      destruct (process (task_of c p)) as [reads res] eqn:E. simpl in Hres. subst res.
      destruct (process_file_task_path tiktoken_encode fs _ reads r E) as [Hpath _].
      simpl in Hpath. rewrite Hp in Hpath. cbn [snd].
      repeat split; try contradiction.
      - destruct r; simpl in Hpath; subst; reflexivity.
      - intros x. destruct r; simpl in Hpath; subst; simpl; tauto. }
    pose proof (task_outcome [(p, (sz, m))] (task_of c p) Hp) as Hone.
    unfold task_files, task_skips in *.
    destruct (process (task_of c p)) as [reads [r|]] eqn:E; cbn [snd] in *.
    2:{ unfold len in Hone. simpl in Hone. lia. }
    destruct (process_file_task_path tiktoken_encode fs _ reads r E) as [Hpath _].
    simpl in Hpath.
    destruct r as [q err|q reason tok|q tokens h]; simpl in Hpath; subst q.
    + left. cbn [merged_files merged_skips]. repeat split; auto.
      * intros _. apply String.eqb_neq in Hp. rewrite Hp.
        destruct Hr as (-> & _). reflexivity.
      * apply String.eqb_neq in Hp. rewrite Hp. intros x [<-|[]]. reflexivity.
    + left. cbn [merged_files merged_skips]. repeat split; auto.
      * intros _. apply String.eqb_neq in Hp. rewrite Hp.
        destruct Hr as (-> & _). reflexivity.
      * apply String.eqb_neq in Hp. rewrite Hp. intros x [<-|[]]. reflexivity.
    + right. right.
      destruct (process_file_task_ok _ _ _ _ _ E)
        as (_ & data & txt & Hc & Hnul & Hd & Htok & Hle & Hh).
      simpl in Htok, Hle, Hh.
      exists sz, m, data, txt. split; [exact Hr|]. repeat split; auto.
      * simpl. rewrite <- Htok. exact Hle.
      * cbn [merged_files merged_skips dict_get].
        apply String.eqb_neq in Hp. rewrite Hp, String.eqb_refl.
        unfold measured_from. cbn [fst snd]. now rewrite Htok, Hh.
Qed.

(** The metadata the loop keeps for the tasks is what [stat] gave. *)
Lemma task_files_meta meta meta' t :
  dict_get meta (t_rel_path t) = dict_get meta' (t_rel_path t) ->
  task_files tiktoken_encode fs meta t = task_files tiktoken_encode fs meta' t.
Proof.
  intros H. unfold task_files.
  destruct (process t) as [reads [r|]] eqn:E; [|reflexivity]. cbn [snd].
  destruct (process_file_task_path tiktoken_encode fs t reads r E) as [Hp _].
  destruct r as [p e|p reason tok|p tokens h]; simpl in Hp; subst p; simpl; auto.
  now rewrite H.
Qed.

Lemma step_summary p :
  total_tokens (step1 p) = sum_tokens (files (step1 p))
  /\ cache_hits (step1 p) = len (files (step1 p))
  /\ (cache_enabled c = true ->
      new_cache_files (step1 p)
      = map (fun e => (fr_path e, entry_of e)) (files (step1 p)))
  /\ (cache_enabled c = false -> new_cache_files (step1 p) = [])
  /\ (forall kv, In kv (task_meta (step1 p)) ->
      fst kv = p /\ fi_stat (fs p) = Some (snd kv))
  /\ (forall t, In t (tasks (step1 p)) ->
      t = task_of c p /\ exists m, task_meta (step1 p) = [(p, m)]).
Proof.
  destruct (step_cases passes_filters c fs cache_files p)
    as [(Hf & Ht & Hm & Hn & Hh & Htok & _)
       |[(sz & m & e & Hr & He & Hnr & Hf & Ht & Hm & Hs & Hn & Hh & Htok)
        |(sz & m & Hr & Hnr & Hf & Ht & Hm & Hs & Hn & Hh & Htok)]];
    rewrite Hf, Ht, Hm, Hn, Hh, Htok.
  - split; [reflexivity|]. split; [reflexivity|]. split; [reflexivity|].
    split; [reflexivity|]. split; intros x [].
  - split; [simpl; lia|]. split; [reflexivity|].
    split; [intros ->; reflexivity|]. split; [intros ->; reflexivity|].
    split; intros x [].
  - split; [reflexivity|]. split; [reflexivity|]. split; [reflexivity|].
    split; [reflexivity|]. split.
    + intros kv [<-|[]]. split; [reflexivity|]. simpl.
      destruct Hr as (_ & H & _). exact H.
    + intros t [<-|[]]. split; [reflexivity|]. eauto.
Qed.

Lemma loop_meta candidates p t :
  In p candidates -> In t (tasks (step1 p)) ->
  dict_get (dict_update [] (flat_map (fun q => task_meta (step1 q)) candidates)) p
  = dict_get (task_meta (step1 p)) p.
Proof.
  intros Hin Ht.
  destruct (step_summary p) as (_ & _ & _ & _ & Hmeta & Htasks).
  destruct (Htasks t Ht) as (_ & m & Em). rewrite Em. simpl. rewrite String.eqb_refl.
  apply dict_update_get_same.
  - intros kv Hkv Hk. apply in_flat_map in Hkv as (q & _ & Hq).
    destruct (step_summary q) as (_ & _ & _ & _ & Hmq & _).
    destruct (Hmq kv Hq) as (Eq & Hstat). rewrite Eq in Hk. subst q.
    destruct (Hmeta (p, m)) as (_ & Hstat'); [rewrite Em; now left|].
    simpl in Hstat'. congruence.
  - exists (p, m). split; [|reflexivity].
    apply in_flat_map. exists p. split; [exact Hin|]. rewrite Em. now left.
Qed.

End Candidates.

Section Result.

Variable float_repr : float -> string.
Variable tiktoken_encode : string -> text -> option Z.
Variable passes_filters : string -> bool.
Variable c : Config.
Variable fs : filesystem.
Variable cache_files : dict CacheEntry.

Abbreviation scan :=
  (scan_directory float_repr tiktoken_encode passes_filters c fs cache_files).
Abbreviation step1 := (step passes_filters c fs cache_files).
Abbreviation loop := (scan_files passes_filters c fs cache_files).
Abbreviation process := (process_file_task tiktoken_encode fs).
Abbreviation served := (served passes_filters c fs cache_files).
Abbreviation measured := (measured tiktoken_encode passes_filters c fs cache_files).

(** The result in closed form. *)
Lemma scan_closed candidates prev r :
  scan candidates prev = Some r ->
  r_files r = flat_map served candidates ++ flat_map measured candidates
  /\ r_skipped r = flat_map (fun p => skipped (step1 p)) candidates
                   ++ flat_map (fun p => flat_map (task_skips tiktoken_encode fs)
                                            (tasks (step1 p))) candidates
  /\ r_total_tokens r = sum_tokens (r_files r)
  /\ r_total_files r = len (r_files r)
  /\ r_cache_hits r = len (flat_map served candidates)
  /\ r_cache_misses r = len (flat_map (fun p => tasks (step1 p)) candidates)
  /\ r_saved_cache r =
     (if cache_enabled c then Some (fold_left cache_set (r_files r) []) else None)
  /\ r_scan_hash r = compute_scan_hash float_repr (r_files r)
  /\ r_module_hashes r = compute_module_hashes float_repr (r_files r) (module_depth c)
  /\ r_reads r = flat_map (fun p => io_log (step1 p)) candidates
                 ++ flat_map (fun p => flat_map (fun t => fst (process t)) (tasks (step1 p)))
                      candidates.
Proof.
  unfold scan_directory.
  destruct (run_tasks _ _ _ _ _) as [st|] eqn:Hrun; [|discriminate].
  apply run_tasks_closed in Hrun as (Hf & Hs & Htok & Hh & Hm & _ & Hn & Hlog).
  destruct (loop_counters passes_filters c fs cache_files candidates initial_state)
    as (Ltok & Lh & Lm & Lmeta & Ln).
  cbv zeta in Ltok, Lh, Lm, Lmeta, Ln.
  fold (scan_files passes_filters c fs cache_files candidates) in Ltok, Lh, Lm, Lmeta, Ln.
  cbn [initial_state total_tokens cache_hits cache_misses task_meta new_cache_files]
    in Ltok, Lh, Lm, Lmeta, Ln.
  assert (Emeas : flat_map (task_files tiktoken_encode fs (task_meta (loop candidates)))
                    (tasks (loop candidates)) = flat_map measured candidates).
  { rewrite scan_files_tasks, flat_map_flat_map.
    apply flat_map_ext_In. intros p Hp. unfold measured.
    apply flat_map_ext_In. intros t Ht.
    apply task_files_meta. rewrite Lmeta.
    destruct (step_summary passes_filters c fs cache_files p) as (_ & _ & _ & _ & _ & Htasks).
    destruct (Htasks t Ht) as (-> & _). simpl.
    apply (loop_meta passes_filters c fs cache_files candidates p (task_of c p) Hp Ht). }
  rewrite Emeas in *.
  assert (Efiles : files st = flat_map served candidates ++ flat_map measured candidates).
  { now rewrite Hf, scan_files_files. }
  assert (Etok : total_tokens st = sum_tokens (files st)).
  { rewrite Htok, Efiles, sum_tokens_app, Ltok. f_equal.
    rewrite sum_tokens_flat_map. apply sum_of_ext. intros p _.
    apply (step_summary passes_filters c fs cache_files p). }
  assert (Ehits : cache_hits st = len (flat_map served candidates)).
  { rewrite Hh, Lh, len_flat_map. apply sum_of_ext. intros p _.
    apply (step_summary passes_filters c fs cache_files p). }
  assert (Emiss : cache_misses st = len (flat_map (fun p => tasks (step1 p)) candidates)).
  { rewrite Hm, Lm, scan_files_tasks. lia. }
  assert (Ecache : cache_enabled c = true ->
                   new_cache_files st = fold_left cache_set (files st) []).
  { intros Hen. rewrite Hn, Hen, Hf, fold_left_app. f_equal.
    rewrite Ln, scan_files_files, cache_set_update, map_flat_map. f_equal.
    apply flat_map_ext_In. intros p _. apply (step_summary passes_filters c fs cache_files p). exact Hen. }
  assert (Eskip : skipped st = flat_map (fun p => skipped (step1 p)) candidates
                   ++ flat_map (fun p => flat_map (task_skips tiktoken_encode fs)
                                            (tasks (step1 p))) candidates).
  { now rewrite Hs, scan_files_skipped, scan_files_tasks, flat_map_flat_map. }
  assert (Elog : io_log st = flat_map (fun p => io_log (step1 p)) candidates
                 ++ flat_map (fun p => flat_map (fun t => fst (process t)) (tasks (step1 p)))
                      candidates).
  { now rewrite Hlog, scan_files_io_log, scan_files_tasks, flat_map_flat_map. }
  assert (Hall : forall changed removed r,
    r = {| r_files := files st; r_total_tokens := total_tokens st;
           r_total_files := len (files st); r_skipped := skipped st;
           r_cache_hits := cache_hits st; r_cache_misses := cache_misses st;
           r_scan_hash := compute_scan_hash float_repr (files st);
           r_entrypoints := detect_entrypoints (files st) (entrypoints_limit c);
           r_top_files := top_files_by_tokens (files st) (top_files_limit c);
           r_module_hashes := compute_module_hashes float_repr (files st) (module_depth c);
           r_changed_modules := changed; r_removed_modules := removed;
           r_saved_cache := if cache_enabled c then Some (new_cache_files st) else None;
           r_reads := io_log st |} ->
    r_files r = flat_map served candidates ++ flat_map measured candidates
    /\ r_skipped r = flat_map (fun p => skipped (step1 p)) candidates
                     ++ flat_map (fun p => flat_map (task_skips tiktoken_encode fs)
                                              (tasks (step1 p))) candidates
    /\ r_total_tokens r = sum_tokens (r_files r)
    /\ r_total_files r = len (r_files r)
    /\ r_cache_hits r = len (flat_map served candidates)
    /\ r_cache_misses r = len (flat_map (fun p => tasks (step1 p)) candidates)
    /\ r_saved_cache r =
       (if cache_enabled c then Some (fold_left cache_set (r_files r) []) else None)
    /\ r_scan_hash r = compute_scan_hash float_repr (r_files r)
    /\ r_module_hashes r = compute_module_hashes float_repr (r_files r) (module_depth c)
    /\ r_reads r = flat_map (fun p => io_log (step1 p)) candidates
                   ++ flat_map (fun p => flat_map (fun t => fst (process t)) (tasks (step1 p)))
                        candidates).
  { intros changed removed r' ->.
    cbn [r_files r_skipped r_total_tokens r_total_files r_cache_hits r_cache_misses
         r_saved_cache r_scan_hash r_module_hashes r_reads].
    repeat split; auto.
    destruct (cache_enabled c); [|reflexivity]. now rewrite Ecache. }
  destruct prev as [prev_data|].
  - destruct (prev_module_hashes prev_data); [|discriminate].
    intros [= <-]. eapply Hall. reflexivity.
  - intros [= <-]. eapply Hall. reflexivity.
Qed.

End Result.

(** ** Accounting *)

Lemma flat_map_app_perm {A B} (f g : A -> list B) l :
  Permutation (flat_map (fun x => f x ++ g x) l) (flat_map f l ++ flat_map g l).
Proof.
  induction l as [|x l IH]; simpl; [constructor|].
  rewrite IH, <- !app_assoc. apply Permutation_app_head.
  rewrite !app_assoc. apply Permutation_app_tail. apply Permutation_app_comm.
Qed.

Lemma len_nonneg {A} (l : list A) : 0 <= len l.
Proof. unfold len. lia. Qed.

Section Accounting.

Variable float_repr : float -> string.
Variable tiktoken_encode : string -> text -> option Z.
Variable passes_filters : string -> bool.
Variable c : Config.
Variable fs : filesystem.
Variable cache_files : dict CacheEntry.

Abbreviation scan :=
  (scan_directory float_repr tiktoken_encode passes_filters c fs cache_files).
Abbreviation step1 := (step passes_filters c fs cache_files).
Abbreviation reaches := (reaches_cache passes_filters c fs).
Abbreviation served' := (served passes_filters c fs cache_files).
Abbreviation measured' := (measured tiktoken_encode passes_filters c fs cache_files).
Abbreviation refused' := (refused tiktoken_encode passes_filters c fs cache_files).

(** A record of the result comes from one candidate, whose path it
    bears. *)
Lemma record_origin candidates prev r e :
  scan candidates prev = Some r -> In e (r_files r) ->
  In (fr_path e) candidates
  /\ In e (served' (fr_path e) ++ measured' (fr_path e)).
Proof.
  intros Hscan He.
  destruct (scan_closed _ _ _ _ _ _ _ _ _ Hscan) as (Hf & _).
  rewrite Hf in He.
  assert (H : exists p, In p candidates /\ In e (served' p ++ measured' p)).
  { apply in_app_or in He as [He|He]; apply in_flat_map in He as (p & Hp & He);
      exists p; split; auto; apply in_or_app; auto. }
  destruct H as (p & Hp & He').
  assert (E : fr_path e = p).
  { destruct (candidate_cases tiktoken_encode passes_filters c fs cache_files p)
      as [(Hs & Hm & _)|[(sz & m & e0 & _ & _ & _ & Hs & Hm & _)
                        |(sz & m & data & txt & _ & _ & _ & _ & _ & _ & _ & Hs & Hm & _)]];
      rewrite Hs, Hm in He'; simpl in He'.
    - destruct He'.
    - destruct He' as [<-|[]]. reflexivity.
    - destruct He' as [<-|[]]. reflexivity. }
  subst p. auto.
Qed.

(** A candidate leaves at most one record. *)
Lemma candidate_records p :
  served' p ++ measured' p = [] \/ exists e, served' p ++ measured' p = [e].
Proof.
  destruct (candidate_cases tiktoken_encode passes_filters c fs cache_files p)
    as [(Hs & Hm & _)|[(sz & m & e0 & _ & _ & _ & Hs & Hm & _)
                      |(sz & m & data & txt & _ & _ & _ & _ & _ & _ & _ & Hs & Hm & _)]];
    rewrite Hs, Hm; simpl; eauto.
Qed.

(** Records of a result that share a path are the same record. *)
Lemma scan_paths_identify candidates prev r :
  scan candidates prev = Some r -> paths_identify (r_files r).
Proof.
  intros Hscan x y Hx Hy E.
  destruct (record_origin _ _ _ _ Hscan Hx) as (_ & Hx').
  destruct (record_origin _ _ _ _ Hscan Hy) as (_ & Hy').
  rewrite E in Hx'.
  destruct (candidate_records (fr_path y)) as [H|(e & H)]; rewrite H in *.
  - destruct Hx'.
  - destruct Hx' as [<-|[]]. destruct Hy' as [<-|[]]. reflexivity.
Qed.

(** The result's totals are those of its records. *)
Theorem totals_are_those_of_the_records (candidates : list string) (prev : option pyval) :
  prev_is_object prev ->
  exists r,
    scan candidates prev = Some r
    /\ r_total_tokens r = sum_tokens (r_files r)
    /\ r_total_files r = len (r_files r).
Proof.
  intros Hprev.
  destruct (scan_directory_returns float_repr tiktoken_encode passes_filters c fs
              cache_files candidates prev Hprev) as [r Hscan].
  exists r. split; [exact Hscan|].
  destruct (scan_closed _ _ _ _ _ _ _ _ _ Hscan) as (_ & _ & Ht & Hn & _).
  auto.
Qed.

(** What one candidate adds to the counts. *)
Lemma candidate_counts p :
  p <> "" ->
  len (served' p) + len (measured' p) + len (refused' p)
  = (if passes_filters p then 1 else 0)
  /\ len (served' p) + len (tasks (step1 p)) <= (if passes_filters p then 1 else 0)
  /\ len (measured' p) <= len (tasks (step1 p)).
Proof.
  intros Hne.
  destruct (candidate_cases tiktoken_encode passes_filters c fs cache_files p)
    as [(Hs & Hm & Hr & _)
       |[(sz & m & e0 & (Hf & _) & _ & _ & Hs & Hm & Hr & Ht)
        |(sz & m & data & txt & (Hf & _) & _ & _ & _ & _ & _ & _ & Hs & Hm & Hr & Ht)]].
  - rewrite Hs, Hm, (Hr Hne). unfold len at 1 2 3 4. cbn [List.length].
    split; [lia|].
    destruct (step_cases passes_filters c fs cache_files p)
      as [(_ & Ht & _)|[(sz & m & e & (Hf & _) & _ & _ & _ & Ht & _)
                       |(sz & m & (Hf & _) & _ & _ & Ht & _)]];
      rewrite Ht; try rewrite Hf; unfold len; cbn [List.length];
      destruct (passes_filters p); lia.
  - rewrite Hs, Hm, Hr, Ht, Hf. unfold len. cbn [List.length]. lia.
  - rewrite Hs, Hm, Hr, Ht, Hf. unfold len. cbn [List.length]. lia.
Qed.

(** Every candidate that passes the filters is accounted for once: it
    has a record in [files] or one in [skipped]. The hits are records of
    [files], and hits and misses together are candidates that pass the
    filters. *)
Theorem every_candidate_is_accounted_for (candidates : list string) (prev : option pyval) :
  prev_is_object prev ->
  ~ In "" candidates ->
  exists r,
    scan candidates prev = Some r
    /\ r_total_files r + len (r_skipped r) = len (filter passes_filters candidates)
    /\ r_cache_hits r <= r_total_files r
    /\ r_total_files r <= r_cache_hits r + r_cache_misses r
    /\ r_cache_hits r + r_cache_misses r <= len (filter passes_filters candidates).
Proof.
  intros Hprev Hne.
  destruct (scan_directory_returns float_repr tiktoken_encode passes_filters c fs
              cache_files candidates prev Hprev) as [r Hscan].
  exists r. split; [exact Hscan|].
  destruct (scan_closed _ _ _ _ _ _ _ _ _ Hscan)
    as (Hf & Hs & _ & Hn & Hh & Hm & _).
  rewrite Hn, Hh, Hm, Hf, Hs, !len_app, !len_flat_map, <- sum_of_filter.
  assert (H : forall p, In p candidates -> p <> "") by (intros p Hp ->; auto).
  clear Hscan Hf Hs Hn Hh Hm Hne r.
  induction candidates as [|p ps IH]; [unfold sum_of; cbn [fold_right]; lia|].
  unfold sum_of in *. cbn [fold_right].
  assert (Hp : p <> "") by (apply H; now left).
  destruct (candidate_counts p Hp) as (C1 & C2 & C3).
  unfold refused in C1. rewrite len_app in C1.
  fold (served' p) in *. fold (measured' p) in *.
  specialize (IH (fun q Hq => H q (or_intror Hq))).
  pose proof (len_nonneg (served' p)).
  pose proof (len_nonneg (measured' p)).
  pose proof (len_nonneg (tasks (step1 p))).
  unfold measured in *. lia.
Qed.

End Accounting.

(** ** The digest is 64 hexadecimal digits *)

Lemma round_length s kw : List.length (Sha256.round s kw) = List.length s.
Proof.
  unfold Sha256.round.
  destruct s as [|a [|b [|c [|d [|e [|f [|g [|h [|i s]]]]]]]]]; reflexivity.
Qed.

Lemma rounds_length kws : forall s,
  List.length (fold_left Sha256.round kws s) = List.length s.
Proof.
  induction kws as [|kw kws IH]; intros s; simpl; [reflexivity|].
  now rewrite IH, round_length.
Qed.

Lemma compress_length h block :
  List.length (Sha256.compress h block) = List.length h.
Proof.
  unfold Sha256.compress. cbv zeta.
  rewrite length_map, length_combine, rounds_length. apply Nat.min_id.
Qed.

Lemma blocks_length n : forall h bs,
  List.length (Sha256.blocks n h bs) = List.length h.
Proof.
  induction n as [|n IH]; intros h bs; simpl; [reflexivity|].
  destruct bs; [reflexivity|]. now rewrite IH, compress_length.
Qed.

Lemma hex_length n x : String.length (Sha256.hex n x) = n.
Proof. induction n as [|n IH]; simpl; congruence. Qed.

Lemma string_length_append s t :
  String.length (s ++ t) = (String.length s + String.length t)%nat.
Proof. induction s as [|ch s IH]; simpl; congruence. Qed.

Lemma concat_hex_length ws :
  String.length (String.concat "" (map (Sha256.hex 8) ws)) = (8 * List.length ws)%nat.
Proof.
  induction ws as [|w ws IH]; [reflexivity|].
  cbn [map String.concat].
  destruct (map (Sha256.hex 8) ws) as [|x xs] eqn:E.
  - destruct ws; [|discriminate]. rewrite hex_length. reflexivity.
  - rewrite string_length_append, hex_length. cbn [append].
    rewrite IH. cbn [List.length]. lia.
Qed.

Lemma sha256_hexdigest_length data : String.length (sha256_hexdigest data) = 64%nat.
Proof.
  unfold sha256_hexdigest, Sha256.digest_words. cbv zeta.
  rewrite concat_hex_length, blocks_length. reflexivity.
Qed.

Lemma sha256_hexdigest_truthy data : truthy (Some (sha256_hexdigest data)) = true.
Proof.
  pose proof (sha256_hexdigest_length data) as H. unfold truthy.
  destruct (sha256_hexdigest data); [discriminate|reflexivity].
Qed.

(** ** The records and the cache written *)

Section Records.

Variable float_repr : float -> string.
Variable tiktoken_encode : string -> text -> option Z.
Variable passes_filters : string -> bool.
Variable c : Config.
Variable fs : filesystem.
Variable cache_files : dict CacheEntry.

Abbreviation scan :=
  (scan_directory float_repr tiktoken_encode passes_filters c fs cache_files).
Abbreviation step1 := (step passes_filters c fs cache_files).
Abbreviation reaches := (reaches_cache passes_filters c fs).
Abbreviation served' := (served passes_filters c fs cache_files).
Abbreviation measured' := (measured tiktoken_encode passes_filters c fs cache_files).
Abbreviation refused' := (refused tiktoken_encode passes_filters c fs cache_files).
Abbreviation cases := (candidate_cases tiktoken_encode passes_filters c fs cache_files).

Abbreviation origin :=
  (record_origin float_repr tiktoken_encode passes_filters c fs cache_files).

Abbreviation closed :=
  (scan_closed float_repr tiktoken_encode passes_filters c fs cache_files).

Abbreviation returns :=
  (scan_directory_returns float_repr tiktoken_encode passes_filters c fs cache_files).

(** The cache written at the end of a run holds one entry for each path
    of [files] and no other: what the loaded cache held for a file that
    is not recorded in this run is gone. An entry repeats the mtime, the
    size, the token count and the content hash of a record of its path. *)
Theorem saved_cache_mirrors_files (candidates : list string) (prev : option pyval) :
  prev_is_object prev ->
  cache_enabled c = true ->
  exists r saved,
    scan candidates prev = Some r
    /\ r_saved_cache r = Some saved
    /\ NoDup (dict_keys saved)
    /\ (forall p, dict_mem saved p = true <-> exists e, In e (r_files r) /\ fr_path e = p)
    /\ (forall p entry, dict_get saved p = Some entry ->
        exists e, In e (r_files r) /\ fr_path e = p
                  /\ ce_mtime entry = Some (fr_mtime e)
                  /\ ce_size entry = Some (fr_size_bytes e)
                  /\ ce_tokens entry = Some (fr_tokens e)
                  /\ ce_content_hash entry = fr_content_hash e).
Proof.
  intros Hprev Hen.
  destruct (returns candidates prev Hprev) as [r Hscan].
  destruct (closed _ _ _ Hscan) as (_ & _ & _ & _ & _ & _ & Hc & _).
  rewrite Hen, cache_set_update in Hc.
  exists r, (dict_update [] (map (fun e => (fr_path e, entry_of e)) (r_files r))).
  split; [exact Hscan|]. split; [exact Hc|].
  assert (Hget : forall p entry,
             dict_get (dict_update [] (map (fun e => (fr_path e, entry_of e)) (r_files r))) p
             = Some entry ->
             exists e, In e (r_files r) /\ fr_path e = p /\ entry = entry_of e).
  { intros p entry H. apply dict_update_get_In in H as [H|H]; [discriminate|].
    apply in_map_iff in H as (e & [= E1 E2] & He). eauto. }
  split; [apply dict_update_keys_NoDup; constructor|]. split.
  - intros p. rewrite dict_mem_get. split.
    + intros (entry & H). destruct (Hget p entry H) as (e & He & Hp & _). eauto.
    + intros (e & He & Hp). exists (entry_of e).
      apply dict_update_get_same.
      * intros kv Hkv Hk. apply in_map_iff in Hkv as (e' & <- & He').
        simpl in *. f_equal.
        apply (scan_paths_identify _ _ _ _ _ _ _ _ _ Hscan); congruence.
      * exists (fr_path e, entry_of e). split; [|exact Hp].
        apply in_map_iff. eauto.
  - intros p entry H. destruct (Hget p entry H) as (e & He & Hp & ->).
    exists e. simpl. repeat split; auto.
Qed.

Lemma keep_truthy_hash_under mode data :
  keep_truthy (hash_under mode data) = hash_under mode data.
Proof.
  unfold keep_truthy, hash_under, hash_bytes, hash_data_fast.
  destruct (mode =? "full")%string; [now rewrite sha256_hexdigest_truthy|].
  destruct (mode =? "fast")%string; [now rewrite sha256_hexdigest_truthy|].
  reflexivity.
Qed.

(** Every record of [files] is about a candidate that passed every
    guard of the loop: the filters, [stat], the symlink guard, the size
    ceiling and the classifier; and its size and mtime are those [stat]
    reports for its path. *)
Theorem recorded_files_passed_every_guard (candidates : list string) (prev : option pyval) :
  prev_is_object prev ->
  exists r,
    scan candidates prev = Some r
    /\ forall e, In e (r_files r) ->
         In (fr_path e) candidates
         /\ passes_filters (fr_path e) = true
         /\ fi_stat (fs (fr_path e)) = Some (fr_size_bytes e, fr_mtime e)
         /\ (follow_symlinks c = true \/ fi_is_symlink (fs (fr_path e)) = false)
         /\ fr_size_bytes e <= max_file_size c
         /\ fst (is_text_file (fr_path e) (fi_content (fs (fr_path e)))) = true.
Proof.
  intros Hprev. destruct (returns candidates prev Hprev) as [r Hscan].
  exists r. split; [exact Hscan|]. intros e He.
  destruct (origin _ _ _ _ Hscan He) as (Hin & Hfrom).
  split; [exact Hin|].
  assert (Hr : reaches (fr_path e) (fr_size_bytes e) (fr_mtime e)).
  { destruct (cases (fr_path e))
      as [(Hs & Hm & _)|[(sz & m & e0 & Hr & _ & _ & Hs & Hm & _)
                        |(sz & m & data & txt & Hr & _ & _ & _ & _ & _ & _ & Hs & Hm & _)]];
      rewrite Hs, Hm in Hfrom; simpl in Hfrom.
    - destruct Hfrom.
    - destruct Hfrom as [E|[]]. rewrite <- E at 2 3. exact Hr.
    - destruct Hfrom as [E|[]]. rewrite <- E at 2 3. exact Hr. }
  destruct Hr as (H1 & H2 & H3 & H4 & H5). repeat split; auto.
  destruct (follow_symlinks c); [now left|right]. exact H3.
Qed.

(** A record whose path the loaded cache does not know, and under [full]
    every record, is measured in this run: the content of the file has no
    NUL byte, the token count is that of its decoded text and is within
    [max_file_tokens], and the content hash is the one of the hash mode. *)
Theorem uncached_records_are_measured (candidates : list string) (prev : option pyval) :
  prev_is_object prev ->
  exists r,
    scan candidates prev = Some r
    /\ forall e, In e (r_files r) ->
         dict_get cache_files (fr_path e) = None \/ hash_mode c = "full" ->
         exists data txt,
           fi_content (fs (fr_path e)) = Content data
           /\ has_nul data = false
           /\ decode_text data = Some txt
           /\ fr_tokens e = count_tokens tiktoken_encode txt (tokenizer c) (encoding_name c)
           /\ fr_tokens e <= max_file_tokens c
           /\ fr_content_hash e = hash_under (hash_mode c) data.
Proof.
  intros Hprev. destruct (returns candidates prev Hprev) as [r Hscan].
  exists r. split; [exact Hscan|]. intros e He Hmiss.
  destruct (origin _ _ _ _ Hscan He) as (_ & Hfrom).
  destruct (cases (fr_path e))
    as [(Hs & Hm & _)|[(sz & m & e0 & _ & Hget & Hn & _)
                      |(sz & m & data & txt & _ & _ & _ & Hc & Hnul & Hd & Hle & Hs & Hm & _)]].
  - rewrite Hs, Hm in Hfrom. destruct Hfrom.
  - exfalso. destruct Hmiss as [Hnone|Hfull]; [congruence|].
    unfold needs_read in Hn. rewrite Hfull in Hn. simpl in Hn.
    rewrite orb_true_r in Hn. discriminate.
  - rewrite Hs, Hm in Hfrom. destruct Hfrom as [E|[]].
    exists data, txt. rewrite <- E at 2 3 4. cbn [measured_from fr_tokens fr_content_hash].
    rewrite keep_truthy_hash_under. repeat split; auto.
Qed.

End Records.

(** ** Paths, order and content hashes *)

Lemma NoDup_flat_map_keys {A B} (key : B -> A) (f : A -> list B) l :
  NoDup l ->
  (forall x, f x = [] \/ exists y, f x = [y] /\ key y = x) ->
  NoDup (map key (flat_map f l)).
Proof.
  intros Hl Hf. induction Hl as [|x l Hx Hl IH]; simpl; [constructor|].
  rewrite map_app.
  destruct (Hf x) as [->|(y & -> & Hy)]; simpl; [exact IH|].
  constructor; [|exact IH].
  intros Hin. apply in_map_iff in Hin as (z & Hz & Hin).
  apply in_flat_map in Hin as (x' & Hx' & Hin).
  destruct (Hf x') as [E|(y' & E & Hy')]; rewrite E in Hin; [destruct Hin|].
  destruct Hin as [<-|[]]. congruence.
Qed.

Section Paths.

Variable float_repr : float -> string.
Variable tiktoken_encode : string -> text -> option Z.
Variable passes_filters : string -> bool.
Variable c : Config.
Variable fs : filesystem.
Variable cache_files : dict CacheEntry.

Abbreviation scan :=
  (scan_directory float_repr tiktoken_encode passes_filters c fs cache_files).
Abbreviation step1 := (step passes_filters c fs cache_files).
Abbreviation reaches := (reaches_cache passes_filters c fs).
Abbreviation served' := (served passes_filters c fs cache_files).
Abbreviation measured' := (measured tiktoken_encode passes_filters c fs cache_files).
Abbreviation refused' := (refused tiktoken_encode passes_filters c fs cache_files).
Abbreviation cases := (candidate_cases tiktoken_encode passes_filters c fs cache_files).

Abbreviation origin :=
  (record_origin float_repr tiktoken_encode passes_filters c fs cache_files).

Abbreviation closed :=
  (scan_closed float_repr tiktoken_encode passes_filters c fs cache_files).

Abbreviation returns :=
  (scan_directory_returns float_repr tiktoken_encode passes_filters c fs cache_files).

Lemma candidate_record_keys p :
  served' p ++ measured' p = []
  \/ exists e, served' p ++ measured' p = [e] /\ fr_path e = p.
Proof.
  destruct (cases p)
    as [(Hs & Hm & _)|[(sz & m & e0 & _ & _ & _ & Hs & Hm & _)
                      |(sz & m & data & txt & _ & _ & _ & _ & _ & _ & _ & Hs & Hm & _)]];
    rewrite Hs, Hm; simpl; eauto.
Qed.

(** A skip record of the result comes from one candidate, whose path it
    bears. *)
Lemma skip_origin candidates prev r x :
  scan candidates prev = Some r -> In x (r_skipped r) ->
  In (sk_path x) candidates /\ In x (refused' (sk_path x)).
Proof.
  intros Hscan Hx.
  destruct (closed _ _ _ Hscan) as (_ & Hs & _). rewrite Hs in Hx.
  assert (H : exists p, In p candidates /\ In x (refused' p)).
  { unfold refused.
    apply in_app_or in Hx as [Hx|Hx]; apply in_flat_map in Hx as (p & Hp & Hx);
      exists p; split; auto; apply in_or_app; auto. }
  destruct H as (p & Hp & Hx').
  assert (E : sk_path x = p).
  { destruct (cases p) as [(_ & _ & _ & Hpath)|[(sz & m & e0 & _ & _ & _ & _ & _ & Hr & _)
                      |(sz & m & data & txt & _ & _ & _ & _ & _ & _ & _ & _ & _ & Hr & _)]].
    - now apply Hpath.
    - rewrite Hr in Hx'. destruct Hx'.
    - rewrite Hr in Hx'. destruct Hx'. }
  subst p. auto.
Qed.

(** No path is both recorded and skipped; and when the enumerator
    yields no path twice, no two records of [files] share a path. *)
Theorem recorded_paths_are_distinct (candidates : list string) (prev : option pyval) :
  prev_is_object prev ->
  exists r,
    scan candidates prev = Some r
    /\ (forall e x, In e (r_files r) -> In x (r_skipped r) -> fr_path e <> sk_path x)
    /\ (NoDup candidates -> NoDup (map fr_path (r_files r))).
Proof.
  intros Hprev. destruct (returns candidates prev Hprev) as [r Hscan].
  exists r. split; [exact Hscan|]. split.
  - intros e x He Hx E.
    destruct (origin _ _ _ _ Hscan He) as (_ & He').
    destruct (skip_origin _ _ _ _ Hscan Hx) as (_ & Hx').
    rewrite <- E in Hx'.
    destruct (cases (fr_path e))
      as [(Hs & Hm & _)|[(sz & m & e0 & _ & _ & _ & _ & _ & Hr & _)
                        |(sz & m & data & txt & _ & _ & _ & _ & _ & _ & _ & _ & _ & Hr & _)]].
    + rewrite Hs, Hm in He'. destruct He'.
    + rewrite Hr in Hx'. destruct Hx'.
    + rewrite Hr in Hx'. destruct Hx'.
  - intros Hnd.
    destruct (closed _ _ _ Hscan) as (Hf & _). rewrite Hf.
    eapply Permutation_NoDup.
    + apply Permutation_map. apply flat_map_app_perm.
    + apply NoDup_flat_map_keys; [exact Hnd|]. apply candidate_record_keys.
Qed.

(** The order in which the enumerator yields the candidates does not
    matter to the scan hash, to the digests of the modules, to the
    totals, or to the records of [files] up to their order. *)
Theorem scan_hash_ignores_enumeration_order
    (candidates candidates' : list string) (prev : option pyval) :
  prev_is_object prev ->
  Permutation candidates candidates' ->
  exists r r',
    scan candidates prev = Some r
    /\ scan candidates' prev = Some r'
    /\ Permutation (r_files r) (r_files r')
    /\ r_scan_hash r = r_scan_hash r'
    /\ (forall label, dict_get (r_module_hashes r) label
                      = dict_get (r_module_hashes r') label)
    /\ r_total_tokens r = r_total_tokens r'
    /\ r_total_files r = r_total_files r'.
Proof.
  intros Hprev HP.
  destruct (returns candidates prev Hprev) as [r Hscan].
  destruct (returns candidates' prev Hprev) as [r' Hscan'].
  exists r, r'. split; [exact Hscan|]. split; [exact Hscan'|].
  destruct (closed _ _ _ Hscan) as (Hf & _ & Ht & Hn & _ & _ & _ & Hh & Hmod & _).
  destruct (closed _ _ _ Hscan') as (Hf' & _ & Ht' & Hn' & _ & _ & _ & Hh' & Hmod' & _).
  assert (Hperm : Permutation (r_files r) (r_files r')).
  { rewrite Hf, Hf'. apply Permutation_app; apply Permutation_flat_map; auto. }
  pose proof (scan_paths_identify _ _ _ _ _ _ _ _ _ Hscan) as Hid.
  split; [exact Hperm|]. split; [|split; [|split]].
  - rewrite Hh, Hh'. unfold compute_scan_hash.
    now rewrite (sorted_by_path_permutation _ _ Hperm Hid).
  - intros label. rewrite Hmod, Hmod', !compute_module_hashes_get.
    pose proof (Permutation_filter (in_module (module_depth c) label) _ _ Hperm) as HPf.
    assert (Hidf : paths_identify (filter (in_module (module_depth c) label) (r_files r))).
    { intros x y Hx Hy. apply Hid; eapply filter_In; eauto. }
    destruct (filter _ (r_files r)) as [|e es] eqn:Ef.
    + apply Permutation_nil in HPf. now rewrite HPf.
    + destruct (filter _ (r_files r')) as [|e' es'] eqn:Ef'.
      * apply Permutation_sym, Permutation_nil in HPf. discriminate.
      * unfold module_digest. now rewrite (sorted_by_path_permutation _ _ HPf Hidf).
  - rewrite Ht, Ht'. clear - Hperm.
    induction Hperm; simpl; lia.
  - rewrite Hn, Hn'. unfold len. now rewrite (Permutation_length Hperm).
Qed.

(** Under [fast] and under [full] every record of [files] holds a
    content hash, whatever the loaded cache holds. *)
Theorem hashing_modes_hash_every_record (candidates : list string) (prev : option pyval) :
  prev_is_object prev ->
  hash_mode c = "fast" \/ hash_mode c = "full" ->
  exists r,
    scan candidates prev = Some r
    /\ forall e, In e (r_files r) ->
         exists h, fr_content_hash e = Some h /\ h <> "".
Proof.
  intros Hprev Hmode. destruct (returns candidates prev Hprev) as [r Hscan].
  exists r. split; [exact Hscan|]. intros e He.
  assert (Ht : truthy (fr_content_hash e) = true).
  { destruct (origin _ _ _ _ Hscan He) as (_ & Hfrom).
    destruct (cases (fr_path e))
      as [(Hs & Hm & _)|[(sz & m & e0 & _ & Hget & Hn & Hs & Hm & _)
                        |(sz & m & data & txt & _ & _ & _ & _ & _ & _ & _ & Hs & Hm & _)]];
      rewrite Hs, Hm in Hfrom; simpl in Hfrom.
    - destruct Hfrom.
    - destruct Hfrom as [<-|[]]. unfold needs_read in Hn.
      destruct Hmode as [Hmode|Hmode]; rewrite Hmode in Hn; simpl in Hn.
      + apply orb_false_iff in Hn as (_ & Hn). apply negb_false_iff in Hn.
        unfold hit_record. cbn [fr_content_hash]. rewrite Hmode. simpl.
        unfold keep_truthy. now rewrite Hn.
      + rewrite orb_true_r in Hn. discriminate.
    - destruct Hfrom as [<-|[]]. cbn [measured_from fr_content_hash].
      rewrite keep_truthy_hash_under. unfold hash_under, hash_bytes, hash_data_fast.
      destruct Hmode as [->| ->]; simpl; apply sha256_hexdigest_truthy. }
  unfold truthy in Ht. destruct (fr_content_hash e) as [h|]; [|discriminate].
  exists h. split; [reflexivity|]. intros ->. discriminate.
Qed.

End Paths.

(** ** Hash mode [full] and the cache *)

Section FullMode.

Variable float_repr : float -> string.
Variable tiktoken_encode : string -> text -> option Z.
Variable passes_filters : string -> bool.
Variable c : Config.
Variable fs : filesystem.

Lemma needs_read_full entry hit : needs_read "full" entry hit = true.
Proof. unfold needs_read. simpl. now rewrite orb_true_r. Qed.

Lemma scan_file_full cache cache' st p :
  hash_mode c = "full" ->
  scan_file passes_filters c fs cache st p = scan_file passes_filters c fs cache' st p.
Proof.
  intros Hmode. unfold scan_file.
  destruct (negb (passes_filters p)); [reflexivity|].
  destruct (fi_stat (fs p)) as [[st_size st_mtime]|]; [|reflexivity].
  destruct (negb (follow_symlinks c) && fi_is_symlink (fs p)); [reflexivity|].
  destruct (st_size >? max_file_size c); [reflexivity|].
  destruct (is_text_file p (fi_content (fs p))) as [is_text reads].
  destruct (negb is_text); [reflexivity|].
  rewrite Hmode, !needs_read_full. reflexivity.
Qed.

Lemma scan_files_full cache cache' candidates :
  hash_mode c = "full" ->
  scan_files passes_filters c fs cache candidates
  = scan_files passes_filters c fs cache' candidates.
Proof.
  intros Hmode. unfold scan_files. generalize initial_state.
  induction candidates as [|p ps IH]; intros st; simpl; [reflexivity|].
  now rewrite IH, (scan_file_full cache cache' st p Hmode).
Qed.

(** Under [full] the loaded cache is not used: the result is the same
    for every cache, no candidate is a hit, and every record of [files]
    is read. *)
Theorem full_mode_ignores_the_cache
    (cache cache' : dict CacheEntry) (candidates : list string) (prev : option pyval) :
  hash_mode c = "full" ->
  scan_directory float_repr tiktoken_encode passes_filters c fs cache candidates prev
  = scan_directory float_repr tiktoken_encode passes_filters c fs cache' candidates prev
  /\ forall r,
       scan_directory float_repr tiktoken_encode passes_filters c fs cache candidates prev
       = Some r ->
       r_cache_hits r = 0
       /\ forall e, In e (r_files r) -> In (EvRead (fr_path e)) (r_reads r).
Proof.
  intros Hmode. split.
  - unfold scan_directory. now rewrite (scan_files_full cache cache' candidates Hmode).
  - intros r Hscan.
    destruct (scan_closed _ _ _ _ _ _ _ _ _ Hscan)
      as (Hf & _ & _ & _ & Hh & _ & _ & _ & _ & Hreads).
    assert (Hserved : forall p, served passes_filters c fs cache p = []).
    { intros p.
      destruct (candidate_cases tiktoken_encode passes_filters c fs cache p)
        as [(Hs & _)|[(sz & m & e0 & _ & _ & Hn & _)
                     |(sz & m & data & txt & _ & _ & _ & _ & _ & _ & _ & Hs & _)]]; auto.
      rewrite Hmode, needs_read_full in Hn. discriminate. }
    assert (Hnone : flat_map (served passes_filters c fs cache) candidates = []).
    { clear - Hserved. induction candidates as [|p ps IH]; simpl; [reflexivity|].
      now rewrite Hserved, IH. }
    split; [now rewrite Hh, Hnone|].
    intros e He. rewrite Hf, Hnone in He. simpl in He.
    apply in_flat_map in He as (p & Hp & He).
    assert (E : fr_path e = p /\ tasks (step passes_filters c fs cache p) = [task_of c p]).
    { destruct (candidate_cases tiktoken_encode passes_filters c fs cache p)
        as [(_ & Hm & _)|[(sz & m & e0 & _ & _ & _ & _ & Hm & _)
                     |(sz & m & data & txt & _ & _ & _ & _ & _ & _ & _ & _ & Hm & _ & Ht)]];
        rewrite Hm in He; try destruct He as [<-|[]]; try destruct He. auto. }
    destruct E as (E & Ht). subst p.
    rewrite Hreads. apply in_or_app. right.
    apply in_flat_map. exists (fr_path e). split; [exact Hp|].
    rewrite Ht. simpl. rewrite app_nil_r.
    apply (process_file_task_reads tiktoken_encode fs (task_of c (fr_path e))).
Qed.

End FullMode.

(** ** A second run over the same tree *)

Lemma flat_map_nil {A B} (f : A -> list B) l :
  (forall x, In x l -> f x = []) -> flat_map f l = [].
Proof.
  induction l as [|x l IH]; intros H; simpl; [reflexivity|].
  rewrite (H x) by now left. apply IH. intros y Hy. apply H. now right.
Qed.

Section Rescan.

Variable float_repr : float -> string.
Variable tiktoken_encode : string -> text -> option Z.
Variable passes_filters : string -> bool.
Variable c : Config.
Variable fs : filesystem.

Abbreviation reaches := (reaches_cache passes_filters c fs).

(** A candidate that does not reach the cache lookup is treated the
    same whatever the cache holds. *)
Lemma step_unreached cache cache' p :
  (forall st_size st_mtime, ~ reaches p st_size st_mtime) ->
  step passes_filters c fs cache p = step passes_filters c fs cache' p.
Proof.
  intros Hno. unfold step, scan_file.
  destruct (passes_filters p) eqn:Hf; [|reflexivity]. cbn [negb].
  destruct (fi_stat (fs p)) as [[st_size st_mtime]|] eqn:Hs; [|reflexivity].
  destruct (negb (follow_symlinks c) && fi_is_symlink (fs p)) eqn:Hl; [reflexivity|].
  destruct (st_size >? max_file_size c) eqn:Hsz; [reflexivity|].
  destruct (is_text_file p (fi_content (fs p))) as [is_text reads] eqn:Ht.
  destruct is_text; [|reflexivity].
  exfalso. apply (Hno st_size st_mtime). repeat split; auto. lia. now rewrite Ht.
Qed.

(** The body of the loop on the empty state, for a candidate that
    reaches the cache lookup. *)
Lemma step_reached cache p st_size st_mtime :
  reaches p st_size st_mtime ->
  let st1 := log initial_state (snd (is_text_file p (fi_content (fs p)))) in
  step passes_filters c fs cache p =
  match dict_get cache p with
  | Some e =>
    if needs_read (hash_mode c) (Some e) (cache_hit (Some e) st_size st_mtime)
    then dispatch c st1 p st_size st_mtime
    else record_file c (count_hit st1) (hit_record c p e st_size st_mtime)
  | None => dispatch c st1 p st_size st_mtime
  end.
Proof.
  intros Hr. unfold step.
  rewrite (scan_file_reaches_cache passes_filters c fs cache initial_state p
             st_size st_mtime Hr).
  cbv zeta. destruct (dict_get cache p); [reflexivity|].
  destruct (needs_read _ _ _); reflexivity.
Qed.

Lemma reaches_stat p st_size st_mtime st_size' st_mtime' :
  reaches p st_size st_mtime -> reaches p st_size' st_mtime' ->
  st_size' = st_size /\ st_mtime' = st_mtime.
Proof. intros (_ & H & _) (_ & H' & _). rewrite H in H'. now injection H'. Qed.

Hypothesis cache_on : cache_enabled c = true.
Hypothesis light_mode : hash_mode c = "mtime" \/ hash_mode c = "fast".

Hypothesis mtime_is_a_number :
  forall p st_size st_mtime,
    fi_stat (fs p) = Some (st_size, st_mtime) -> PrimFloat.eqb st_mtime st_mtime = true.

(** The entry written for a record serves the same record again. *)
Lemma hit_again (e : FileRecord) p st_size st_mtime :
  reaches p st_size st_mtime ->
  fr_path e = p -> fr_size_bytes e = st_size -> fr_mtime e = st_mtime ->
  (hash_mode c = "mtime" -> fr_content_hash e = None) ->
  (hash_mode c = "fast" -> truthy (fr_content_hash e) = true) ->
  needs_read (hash_mode c) (Some (entry_of e))
    (cache_hit (Some (entry_of e)) st_size st_mtime) = false
  /\ hit_record c p (entry_of e) st_size st_mtime = e.
Proof.
  intros (_ & Hs & _) Hp Hsz Hm Hmt Hfast.
  assert (Hhit : cache_hit (Some (entry_of e)) st_size st_mtime = true).
  { unfold cache_hit, entry_of, mtime_eq, size_eq. cbn [ce_mtime ce_size].
    rewrite Hsz, Hm, (mtime_is_a_number p st_size st_mtime Hs), Z.eqb_refl. reflexivity. }
  rewrite Hhit. unfold needs_read, hit_record, entry_of.
  cbn [negb orb ce_content_hash ce_tokens].
  destruct e as [q tok sz m h]. cbn [fr_path fr_size_bytes fr_mtime fr_content_hash] in *.
  subst q sz m.
  destruct light_mode as [Hmode|Hmode]; rewrite Hmode; cbn [String.eqb Ascii.eqb Bool.eqb negb andb orb].
  - rewrite (Hmt Hmode). split; reflexivity.
  - specialize (Hfast Hmode). rewrite Hfast. split; [reflexivity|].
    unfold keep_truthy. rewrite Hfast. reflexivity.
Qed.

Variable cache_files : dict CacheEntry.

Abbreviation scan1 :=
  (scan_directory float_repr tiktoken_encode passes_filters c fs cache_files).
Abbreviation step1 := (step passes_filters c fs cache_files).
Abbreviation served1 := (served passes_filters c fs cache_files).
Abbreviation measured1 := (measured tiktoken_encode passes_filters c fs cache_files).
Abbreviation cases1 := (candidate_cases tiktoken_encode passes_filters c fs cache_files).

(** A record of the first run, seen from its candidate. *)
Lemma first_run_record p e :
  In e (served1 p ++ measured1 p) ->
  served1 p ++ measured1 p = [e]
  /\ skipped (step1 p) = []
  /\ flat_map (task_skips tiktoken_encode fs) (tasks (step1 p)) = []
  /\ exists st_size st_mtime,
       reaches p st_size st_mtime
       /\ fr_path e = p /\ fr_size_bytes e = st_size /\ fr_mtime e = st_mtime
       /\ (hash_mode c = "mtime" -> fr_content_hash e = None)
       /\ (hash_mode c = "fast" -> truthy (fr_content_hash e) = true).
Proof.
  intros He.
  destruct (cases1 p)
    as [(Hs & Hm & _)|[(sz & m & e0 & Hr & Hget & Hn & Hs & Hm & Href & _)
                      |(sz & m & data & txt & Hr & _ & _ & _ & _ & _ & _ & Hs & Hm & Href & _)]];
    rewrite Hs, Hm in *; simpl in He.
  - destruct He.
  - destruct He as [<-|[]]. unfold refused in Href.
    apply app_eq_nil in Href as (Hk1 & Hk2).
    split; [reflexivity|]. split; [exact Hk1|]. split; [exact Hk2|].
    exists sz, m. split; [exact Hr|]. repeat split.
    + intros Hmode. unfold hit_record. cbn [fr_content_hash]. now rewrite Hmode.
    + intros Hmode. unfold needs_read in Hn. rewrite Hmode in Hn. simpl in Hn.
      apply orb_false_iff in Hn as (_ & Hn). apply negb_false_iff in Hn.
      unfold hit_record. cbn [fr_content_hash]. rewrite Hmode. simpl.
      unfold keep_truthy. now rewrite Hn.
  - destruct He as [<-|[]]. unfold refused in Href.
    apply app_eq_nil in Href as (Hk1 & Hk2).
    split; [reflexivity|]. split; [exact Hk1|]. split; [exact Hk2|].
    exists sz, m. split; [exact Hr|]. repeat split.
    + intros Hmode. cbn [measured_from fr_content_hash]. rewrite Hmode. reflexivity.
    + intros Hmode. cbn [measured_from fr_content_hash].
      rewrite keep_truthy_hash_under. unfold hash_under, hash_data_fast.
      rewrite Hmode. simpl. apply sha256_hexdigest_truthy.
Qed.

Section SecondRun.

Variable candidates : list string.
Variable prev : option pyval.
Variable r : ScanResult.

Hypothesis first_run : scan1 candidates prev = Some r.

Abbreviation saved := (cache_of (r_files r)).

Lemma saved_lookup p :
  In p candidates ->
  dict_get saved p = match served1 p ++ measured1 p with
                     | [] => None
                     | e :: _ => Some (entry_of e)
                     end.
Proof.
  intros Hp. unfold cache_of. rewrite cache_set_update.
  destruct (served1 p ++ measured1 p) as [|e rest] eqn:E.
  - rewrite dict_update_get_other; [reflexivity|].
    intros kv Hkv Hk. apply in_map_iff in Hkv as (e & <- & He). simpl in Hk.
    destruct (record_origin _ _ _ _ _ _ _ _ _ _ first_run He) as (_ & Hfrom).
    rewrite Hk, E in Hfrom. destruct Hfrom.
  - assert (He : In e (served1 p ++ measured1 p)) by (rewrite E; now left).
    destruct (first_run_record p e He) as (Hone & _ & _ & sz & m & _ & Hpath & _).
    apply dict_update_get_same.
    + intros kv Hkv Hk. apply in_map_iff in Hkv as (e' & <- & He'). simpl in *.
      destruct (record_origin _ _ _ _ _ _ _ _ _ _ first_run He') as (_ & Hfrom).
      rewrite Hk, Hone in Hfrom. destruct Hfrom as [<-|[]]. reflexivity.
    + exists (fr_path e, entry_of e). split; [|exact Hpath].
      apply in_map_iff. exists e. split; [reflexivity|].
      destruct (scan_closed _ _ _ _ _ _ _ _ _ first_run) as (Hf & _). rewrite Hf.
      apply in_app_or in He as [He|He]; apply in_or_app; [left|right];
        apply in_flat_map; eauto.
Qed.

Abbreviation step2 := (step passes_filters c fs saved).
Abbreviation served2 := (served passes_filters c fs saved).
Abbreviation measured2 := (measured tiktoken_encode passes_filters c fs saved).

(** What the second run does with a candidate of the first. *)
Lemma rescan_step p :
  In p candidates ->
  served2 p = served1 p ++ measured1 p
  /\ measured2 p = []
  /\ skipped (step2 p) = skipped (step1 p)
  /\ flat_map (task_skips tiktoken_encode fs) (tasks (step2 p))
     = flat_map (task_skips tiktoken_encode fs) (tasks (step1 p))
  /\ (served1 p ++ measured1 p <> [] -> tasks (step2 p) = []).
Proof.
  intros Hp. pose proof (saved_lookup p Hp) as Hget.
  destruct (served1 p ++ measured1 p) as [|e rest] eqn:E.
  - (* nothing recorded: the same skip, or the same task *)
    assert (Hsame : step2 p = step1 p).
    { destruct (step_cases passes_filters c fs cache_files p)
        as [(_ & _ & _ & _ & _ & _ & _ & Hno)
           |[(sz & m & e0 & Hr & He0 & Hn & Hf & _)|(sz & m & Hr & Hn & _)]].
      - apply step_unreached. exact Hno.
      - exfalso. unfold served in E. rewrite Hf in E. discriminate.
      - rewrite (step_reached saved p sz m Hr), (step_reached cache_files p sz m Hr).
        cbv zeta. rewrite Hget.
        destruct (dict_get cache_files p); [|reflexivity]. now rewrite Hn. }
    unfold served, measured in *. rewrite Hsame.
    apply app_eq_nil in E as (E1 & E2). rewrite E1, E2.
    repeat split; auto. intros H. now contradiction H.
  - assert (He : In e (served1 p ++ measured1 p)) by (rewrite E; now left).
    destruct (first_run_record p e He)
      as (Hone & Hk1 & Hk2 & sz & m & Hr & Hpath & Hsz & Hm & Hmt & Hfast).
    rewrite E in Hone. injection Hone as ->.
    destruct (hit_again e p sz m Hr Hpath Hsz Hm Hmt Hfast) as (Hn & Hrec).
    assert (Hstep : step2 p
                    = record_file c (count_hit (log initial_state
                                      (snd (is_text_file p (fi_content (fs p)))))) e).
    { rewrite (step_reached saved p sz m Hr). cbv zeta. now rewrite Hget, Hn, Hrec. }
    unfold served, measured. rewrite Hstep, Hk1, Hk2. cbn. auto.
Qed.

End SecondRun.

(** A second run over an unchanged tree, under [mtime] or [fast], with
    the cache the first run wrote: every file the first run recorded is
    served from the cache, no task reads it, and the records, the skip
    records, the totals and the scan hash are those of the first run. *)
Theorem rescan_is_served_from_the_cache
    (candidates : list string) (prev prev' : option pyval) :
  prev_is_object prev -> prev_is_object prev' ->
  exists r cache r',
    scan1 candidates prev = Some r
    /\ r_saved_cache r = Some cache
    /\ scan_directory float_repr tiktoken_encode passes_filters c fs cache candidates prev'
       = Some r'
    /\ Permutation (r_files r) (r_files r')
    /\ r_skipped r' = r_skipped r
    /\ r_scan_hash r' = r_scan_hash r
    /\ r_total_tokens r' = r_total_tokens r
    /\ r_total_files r' = r_total_files r
    /\ r_cache_hits r' = r_total_files r
    /\ (forall e ev, In e (r_files r) -> In ev (r_reads r') ->
        event_path ev = fr_path e -> ev = EvSniff (fr_path e)).
Proof.
  intros Hprev Hprev'.
  destruct (scan_directory_returns float_repr tiktoken_encode passes_filters c fs
              cache_files candidates prev Hprev) as [r Hscan].
  destruct (scan_directory_returns float_repr tiktoken_encode passes_filters c fs
              (cache_of (r_files r)) candidates prev' Hprev') as [r' Hscan'].
  exists r, (cache_of (r_files r)), r'.
  destruct (scan_closed _ _ _ _ _ _ _ _ _ Hscan)
    as (Hf & Hs & Ht & Hn & _ & _ & Hc & Hh & _).
  destruct (scan_closed _ _ _ _ _ _ _ _ _ Hscan')
    as (Hf' & Hs' & Ht' & Hn' & Hhits' & _ & _ & Hh' & _ & Hreads').
  pose proof (rescan_step candidates prev r Hscan) as Hstep.
  assert (Efiles : r_files r' = flat_map (fun p => served1 p ++ measured1 p) candidates).
  { rewrite Hf'. rewrite (flat_map_nil (measured tiktoken_encode passes_filters c fs (cache_of (r_files r)))).
    - rewrite app_nil_r. apply flat_map_ext_In. intros p Hp. apply (Hstep p Hp).
    - intros p Hp. apply (Hstep p Hp). }
  assert (Hperm : Permutation (r_files r) (r_files r')).
  { rewrite Efiles, Hf. symmetry. apply flat_map_app_perm. }
  split; [exact Hscan|]. split; [now rewrite Hc, cache_on|]. split; [exact Hscan'|].
  split; [exact Hperm|].
  split.
  { rewrite Hs, Hs'. f_equal; apply flat_map_ext_In; intros p Hp; apply (Hstep p Hp). }
  split.
  { rewrite Hh, Hh'. unfold compute_scan_hash. symmetry.
    now rewrite (sorted_by_path_permutation _ _ Hperm
                   (scan_paths_identify _ _ _ _ _ _ _ _ _ Hscan)). }
  split.
  { rewrite Ht, Ht'. clear - Hperm. induction Hperm; simpl; lia. }
  assert (Hlen : r_total_files r' = r_total_files r).
  { rewrite Hn, Hn'. unfold len. now rewrite (Permutation_length Hperm). }
  split; [exact Hlen|].
  split.
  { rewrite <- Hlen, Hn', Hhits', Hf'.
    rewrite (flat_map_nil (measured tiktoken_encode passes_filters c fs (cache_of (r_files r)))).
    - now rewrite app_nil_r.
    - intros p Hp. apply (Hstep p Hp). }
  intros e ev He Hev Hpath.
  destruct (record_origin _ _ _ _ _ _ _ _ _ _ Hscan He) as (Hin & Hfrom).
  rewrite Hreads' in Hev. apply in_app_or in Hev as [Hev|Hev];
    apply in_flat_map in Hev as (q & Hq & Hev).
  - apply step_io_log in Hev. subst ev. simpl in Hpath. now subst q.
  - exfalso. apply in_flat_map in Hev as (t & Ht2 & Hev).
    pose proof (step_tasks _ _ _ _ _ _ Ht2) as Et.
    destruct (process_file_task tiktoken_encode fs t) as [reads res] eqn:Ep.
    destruct (process_file_task_returns tiktoken_encode fs t) as [res' Hres].
    rewrite Ep in Hres. simpl in Hres. subst res.
    destruct (process_file_task_path _ _ _ _ _ Ep) as (_ & Hevs).
    simpl in Hev. apply Hevs in Hev. rewrite Et in Hev. simpl in Hev.
    assert (Eq : q = fr_path e) by congruence.
    rewrite Eq in Ht2.
    destruct (Hstep (fr_path e) Hin) as (_ & _ & _ & _ & Hnone).
    rewrite Hnone in Ht2; [destruct Ht2|].
    intros E. rewrite E in Hfrom. destruct Hfrom.
Qed.

End Rescan.

(** ** [fnmatch] *)

Lemma glob_star pat name :
  glob (star :: pat) name
  = glob pat name || match name with
                     | [] => false
                     | _ :: name' => glob (star :: pat) name'
                     end.
Proof. destruct name; reflexivity. Qed.

Lemma glob_char p pat name :
  p <> star ->
  glob (p :: pat) name
  = match name with
    | [] => false
    | ch :: name' => ((p =? question)%char || (p =? ch)%char) && glob pat name'
    end.
Proof.
  intros Hp. cbn [glob]. fold star.
  destruct (Ascii.eqb_spec p star); [contradiction|reflexivity].
Qed.

(** A star matches a prefix of the name. *)
Lemma glob_star_inv pat name :
  glob (star :: pat) name = true ->
  exists skipped rest, name = skipped ++ rest /\ glob pat rest = true.
Proof.
  induction name as [|ch name IH]; rewrite glob_star; intros H.
  - rewrite orb_false_r in H. exists [], []. auto.
  - apply orb_true_iff in H as [H|H].
    + exists [], (ch :: name). auto.
    + destruct (IH H) as (skipped & rest & -> & Hrest).
      exists (ch :: skipped), rest. auto.
Qed.

(** A name matched by a pattern that ends with a literal character ends
    with that character. *)
Lemma glob_last pat ch : forall name,
  ch <> star -> ch <> question ->
  glob (pat ++ [ch]) name = true -> exists name', name = name' ++ [ch].
Proof.
  intros name Hs Hq. revert name.
  induction pat as [|p pat IH]; intros name.
  - cbn [app]. rewrite glob_char by exact Hs.
    destruct name as [|ch' name]; [discriminate|].
    intros H. apply andb_true_iff in H as (H1 & H2).
    destruct name; [|discriminate].
    apply orb_true_iff in H1 as [H1|H1].
    + apply Ascii.eqb_eq in H1. contradiction.
    + apply Ascii.eqb_eq in H1. subst ch'. exists []. reflexivity.
  - cbn [app]. destruct (ascii_dec p star) as [->|Hp].
    + intros H. apply glob_star_inv in H as (skipped & rest & -> & H).
      destruct (IH rest H) as (name' & ->).
      exists (skipped ++ name'). now rewrite app_assoc.
    + rewrite glob_char by exact Hp.
      destruct name as [|ch' name]; [discriminate|].
      intros H. apply andb_true_iff in H as (_ & H).
      destruct (IH name H) as (name' & ->). exists (ch' :: name'). reflexivity.
Qed.

(** A name matched by a pattern that holds a literal character holds
    that character. *)
Lemma glob_literal pat ch : forall name,
  ch <> star -> ch <> question ->
  In ch pat -> glob pat name = true -> In ch name.
Proof.
  intros name Hs Hq. revert name.
  induction pat as [|p pat IH]; intros name Hin; [destruct Hin|].
  destruct (ascii_dec p star) as [->|Hp].
  - destruct Hin as [E|Hin]; [symmetry in E; contradiction|].
    intros H. apply glob_star_inv in H as (skipped & rest & -> & H).
    apply in_or_app. right. now apply IH.
  - rewrite glob_char by exact Hp.
    destruct name as [|ch' name]; [discriminate|].
    intros H. apply andb_true_iff in H as (H1 & H2).
    destruct Hin as [->|Hin].
    + apply orb_true_iff in H1 as [H1|H1]; apply Ascii.eqb_eq in H1;
        [contradiction|]. subst. now left.
    + right. now apply IH.
Qed.

(** ** Strings as lists of characters *)

Lemma list_ascii_of_string_app s t :
  list_ascii_of_string (s ++ t) = list_ascii_of_string s ++ list_ascii_of_string t.
Proof. induction s as [|ch s IH]; simpl; congruence. Qed.

Lemma endswith_char s ch :
  endswith s (String ch "") = true ->
  exists l, list_ascii_of_string s = l ++ [ch].
Proof.
  induction s as [|c0 s IH]; cbn [endswith]; intros H.
  - rewrite orb_false_r in H. discriminate.
  - apply orb_true_iff in H as [H|H].
    + apply String.eqb_eq in H. injection H as -> ->. exists []. reflexivity.
    + destruct (IH H) as (l & Hl). exists (c0 :: l). simpl. now rewrite Hl.
Qed.

Lemma matches_simple_pattern_unfold rel_path pattern :
  matches_simple_pattern rel_path pattern = true ->
  fnmatch rel_path (fnmatch_pattern pattern) = true
  \/ fnmatch rel_path ("**/" ++ fnmatch_pattern pattern) = true.
Proof.
  unfold matches_simple_pattern, fnmatch_pattern.
  destruct (startswith pattern "!"); [discriminate|].
  destruct (endswith pattern "/" && negb (endswith rel_path "/")); [discriminate|].
  cbv zeta. intros H. now apply orb_true_iff in H.
Qed.

(** ** Without [pathspec] *)

Lemma directory_not_matched rel_path pattern :
  ends_in_name_char (fnmatch_pattern pattern) = true ->
  endswith rel_path "/" = true ->
  matches_simple_pattern rel_path pattern = false.
Proof.
  intros Hend Hdir.
  destruct (matches_simple_pattern rel_path pattern) eqn:E; [exfalso|reflexivity].
  destruct (endswith_char _ _ Hdir) as (l & Hl).
  unfold ends_in_name_char in Hend.
  destruct (rev (list_ascii_of_string (fnmatch_pattern pattern))) as [|ch r] eqn:Er;
    [discriminate|].
  apply andb_true_iff in Hend as (Hend & Hslash).
  apply andb_true_iff in Hend as (Hstar & Hq).
  apply negb_true_iff in Hstar, Hq, Hslash.
  apply Ascii.eqb_neq in Hstar, Hq, Hslash.
  assert (Hpat : list_ascii_of_string (fnmatch_pattern pattern) = rev r ++ [ch]).
  { rewrite <- (rev_involutive (list_ascii_of_string _)), Er. reflexivity. }
  assert (Hlast : forall pat, glob (pat ++ [ch]) (list_ascii_of_string rel_path) = true -> False).
  { intros pat H. apply glob_last in H as (name' & Hn); auto.
    rewrite Hl in Hn. apply app_inj_tail in Hn as (_ & Hn).
    apply Hslash. now symmetry. }
  apply matches_simple_pattern_unfold in E as [E|E]; unfold fnmatch in E.
  - rewrite Hpat in E. exact (Hlast _ E).
  - rewrite list_ascii_of_string_app, Hpat, app_assoc in E. exact (Hlast _ E).
Qed.

Lemma top_level_not_matched rel_path pattern :
  char_in (fnmatch_pattern pattern) slash = true ->
  char_in rel_path slash = false ->
  matches_simple_pattern rel_path pattern = false.
Proof.
  intros Hpat Hrel.
  destruct (matches_simple_pattern rel_path pattern) eqn:E; [exfalso|reflexivity].
  assert (Hin : In slash (list_ascii_of_string (fnmatch_pattern pattern))).
  { unfold char_in in Hpat. apply existsb_exists in Hpat as (ch & Hch & Heq).
    apply Ascii.eqb_eq in Heq. now subst. }
  assert (Hno : ~ In slash (list_ascii_of_string rel_path)).
  { intros H. unfold char_in in Hrel.
    assert (Ht : existsb (Ascii.eqb slash) (list_ascii_of_string rel_path) = true).
    { apply existsb_exists. exists slash. split; [exact H|apply Ascii.eqb_refl]. }
    congruence. }
  apply Hno.
  apply matches_simple_pattern_unfold in E as [E|E]; unfold fnmatch in E;
    eapply glob_literal; try exact E; try discriminate.
  - exact Hin.
  - rewrite list_ascii_of_string_app. apply in_or_app. now right.
Qed.

Lemma default_patterns_shape :
  forallb (fun p => ends_in_name_char (fnmatch_pattern p)
                    && char_in (fnmatch_pattern p) slash)
          DEFAULT_IGNORE_PATTERNS = true.
Proof. vm_compute. reflexivity. Qed.

Lemma defaults_not_matched rel_path :
  endswith rel_path "/" = true \/ char_in rel_path slash = false ->
  existsb (matches_simple_pattern rel_path) DEFAULT_IGNORE_PATTERNS = false.
Proof.
  intros H.
  destruct (existsb _ DEFAULT_IGNORE_PATTERNS) eqn:E; [exfalso|reflexivity].
  apply existsb_exists in E as (p & Hp & Hm).
  pose proof default_patterns_shape as Hshape.
  rewrite forallb_forall in Hshape. specialize (Hshape p Hp).
  apply andb_true_iff in Hshape as (H1 & H2).
  destruct H as [H|H].
  - now rewrite (directory_not_matched rel_path p H1 H) in Hm.
  - now rewrite (top_level_not_matched rel_path p H2 H) in Hm.
Qed.

(** Without [pathspec] the default patterns ignore no directory and no
    file at the top of the tree: for the path of a directory (it ends
    with a slash) and for a path without a slash, [should_ignore] is
    true only through a pattern of [.gitignore] or of
    [.git/info/exclude]. *)
Theorem defaults_spare_directories_and_top_level_files
    (gitignore info_exclude : option string) (include_gitignore : bool)
    (rel_path : string) :
  endswith rel_path "/" = true \/ char_in rel_path slash = false ->
  should_ignore rel_path
    (fst (build_ignore_spec None gitignore info_exclude include_gitignore))
    (snd (build_ignore_spec None gitignore info_exclude include_gitignore))
  = existsb (matches_simple_pattern rel_path)
      (if include_gitignore
       then read_ignore_file gitignore ++ read_ignore_file info_exclude
       else []).
Proof.
  intros H. unfold build_ignore_spec, should_ignore. cbn [fst snd].
  rewrite !existsb_app, (defaults_not_matched rel_path H). reflexivity.
Qed.

(** [node_modules/] is not ignored, the patterns of the sample
    [.gitignore] being about other paths. *)
Lemma defaults_spare_directories_and_top_level_files_witness :
  (endswith "node_modules/" "/" = true \/ char_in "node_modules/" slash = false)
  /\ should_ignore "node_modules/"
       (fst (build_ignore_spec None (Some sample_gitignore) None true))
       (snd (build_ignore_spec None (Some sample_gitignore) None true)) = false.
Proof.
  assert (H : endswith "node_modules/" "/" = true \/ char_in "node_modules/" slash = false)
    by (left; reflexivity).
  split; [exact H|].
  rewrite (defaults_spare_directories_and_top_level_files
             (Some sample_gitignore) None true "node_modules/" H).
  reflexivity.
Defined.

(** ** Induction on trees *)

Lemma node_induction (P : node -> Prop) :
  P File ->
  (forall is_link entries, Forall (fun e => P (snd e)) entries -> P (Dir is_link entries)) ->
  forall n, P n.
Proof.
  intros HF HD.
  fix IH 1. intros [|is_link entries]; [exact HF|].
  apply HD. induction entries as [|e entries IHe]; constructor; [apply IH|exact IHe].
Qed.

(** ** Paths and their directories *)

Lemma char_in_app s t ch : char_in (s ++ t) ch = char_in s ch || char_in t ch.
Proof.
  unfold char_in. now rewrite list_ascii_of_string_app, existsb_app.
Qed.

Lemma char_in_cons c s ch : char_in (String c s) ch = (ch =? c)%char || char_in s ch.
Proof. reflexivity. Qed.

(** Where a path that ends with a name can be cut at a slash. *)
Lemma cut_at_slash name : forall dir d rest,
  char_in name slash = false ->
  (dir ++ "/" ++ name)%string = (d ++ "/" ++ rest)%string ->
  d = dir \/ exists rest', dir = (d ++ "/" ++ rest')%string.
Proof.
  intros dir. induction dir as [|c dir IH]; intros d rest Hname E.
  - destruct d as [|c' d]; [now left|].
    simpl in E. injection E as <- E. rewrite E in Hname.
    rewrite char_in_app in Hname. simpl in Hname.
    rewrite orb_true_r in Hname. discriminate.
  - destruct d as [|c' d].
    + simpl in E. injection E as -> E. right. exists dir. reflexivity.
    + simpl in E. injection E as <- E.
      destruct (IH d rest Hname E) as [->|(rest' & ->)]; [now left|].
      right. exists rest'. reflexivity.
Qed.

Section Walk.

Variable spec : option (string -> bool).
Variable ignore_patterns : list string.
Variable follow_symlinks : bool.

Abbreviation kept p := (should_ignore p spec ignore_patterns = false).
Abbreviation entered := (entered spec ignore_patterns).

Lemma entered_child rel_dir name :
  entered rel_dir -> is_name name = true ->
  kept (child_path rel_dir name ++ "/")%string ->
  entered (child_path rel_dir name).
Proof.
  intros Hdir Hname Hkept _ d Hd.
  apply andb_true_iff in Hname as (Hne & Hslash). apply negb_true_iff in Hslash.
  unfold child_path in *.
  destruct (String.eqb_spec rel_dir "") as [->|Hnonempty].
  - destruct Hd as [->|(rest & E)]; [exact Hkept|].
    rewrite E, !char_in_app in Hslash. simpl in Hslash.
    rewrite orb_true_r in Hslash. discriminate.
  - destruct Hd as [->|(rest & E)]; [exact Hkept|].
    apply Hdir; [exact Hnonempty|].
    eapply cut_at_slash; eauto.
Qed.

Lemma walk_keeps n : forall rel_dir,
  well_named n = true -> entered rel_dir ->
  forall p, In p (iter_files_from spec ignore_patterns follow_symlinks rel_dir n) ->
    kept p
    /\ forall d rest, p = (d ++ "/" ++ rest)%string -> d <> "" -> kept (d ++ "/")%string.
Proof.
  induction n as [|is_link entries IH] using node_induction; intros rel_dir Hwf Hdir p Hp;
    [destruct Hp|].
  cbn [iter_files_from] in Hp. cbn [well_named] in Hwf.
  rewrite forallb_forall in Hwf. rewrite Forall_forall in IH.
  apply in_app_or in Hp as [Hp|Hp]; apply in_flat_map in Hp as ([name child] & He & Hp);
    pose proof (Hwf _ He) as Hw; apply andb_true_iff in Hw as [Hname Hchild];
    cbn [fst snd] in *.
  - destruct child; [|destruct Hp].
    destruct (should_ignore (child_path rel_dir name) spec ignore_patterns) eqn:Hk;
      [destruct Hp|].
    destruct Hp as [<-|[]]. split; [exact Hk|].
    intros d rest E Hd.
    pose proof Hname as Hname'.
    apply andb_true_iff in Hname' as (_ & Hslash). apply negb_true_iff in Hslash.
    unfold child_path in E.
    destruct (String.eqb_spec rel_dir "") as [->|Hnonempty].
    + rewrite E, !char_in_app in Hslash. simpl in Hslash.
      rewrite orb_true_r in Hslash. discriminate.
    + apply Hdir; [exact Hnonempty|]. eapply cut_at_slash; eauto.
  - destruct child as [|child_link child_entries]; [destruct Hp|].
    destruct (should_ignore (child_path rel_dir name ++ "/") spec ignore_patterns) eqn:Hk;
      [destruct Hp|].
    destruct (follow_symlinks || negb child_link); [|destruct Hp].
    apply (IH _ He (child_path rel_dir name) Hchild); [|exact Hp].
    now apply entered_child.
Qed.

End Walk.

(** [iter_files_fs] yields no ignored file and no file below an ignored
    directory: every path it yields is kept by [should_ignore], and so
    is every directory above it. *)
Theorem walk_yields_nothing_ignored
    (root : list (string * node)) (spec : option (string -> bool))
    (ignore_patterns : list string) (follow_symlinks : bool) (p : string) :
  well_named (Dir false root) = true ->
  In p (iter_files_fs root spec ignore_patterns follow_symlinks) ->
  should_ignore p spec ignore_patterns = false
  /\ forall d rest, p = (d ++ "/" ++ rest)%string -> d <> "" ->
       should_ignore (d ++ "/") spec ignore_patterns = false.
Proof.
  intros Hwf Hp.
  apply (walk_keeps spec ignore_patterns follow_symlinks (Dir false root) "" Hwf); auto.
  intros H. now contradiction H.
Qed.

Lemma string_app_assoc (s t u : string) : ((s ++ t) ++ u = s ++ t ++ u)%string.
Proof. induction s as [|c s IH]; simpl; congruence. Qed.

Lemma child_path_nonempty rel_dir name : is_name name = true -> child_path rel_dir name <> "".
Proof.
  intros H. apply andb_true_iff in H as (H & _). unfold nonempty in H.
  apply negb_true_iff, String.eqb_neq in H.
  unfold child_path. destruct (rel_dir =? "")%string eqn:E; [exact H|].
  apply String.eqb_neq in E. destruct rel_dir; [contradiction|discriminate].
Qed.

Lemma walk_below n : forall rel_dir spec pats follow p,
  well_named n = true -> rel_dir <> "" ->
  In p (iter_files_from spec pats follow rel_dir n) ->
  exists rest, p = (rel_dir ++ "/" ++ rest)%string.
Proof.
  induction n as [|is_link entries IH] using node_induction;
    intros rel_dir spec pats follow p Hwf Hne Hp; [destruct Hp|].
  cbn [iter_files_from] in Hp. cbn [well_named] in Hwf.
  rewrite forallb_forall in Hwf. rewrite Forall_forall in IH.
  assert (Hchild : forall name, child_path rel_dir name = (rel_dir ++ "/" ++ name)%string).
  { intros name. unfold child_path. apply String.eqb_neq in Hne. now rewrite Hne. }
  apply in_app_or in Hp as [Hp|Hp]; apply in_flat_map in Hp as ([name child] & He & Hp);
    pose proof (Hwf _ He) as Hw; apply andb_true_iff in Hw as [Hname Hw];
    cbn [fst snd] in *.
  - destruct child; [|destruct Hp].
    destruct (should_ignore _ _ _); [destruct Hp|].
    destruct Hp as [<-|[]]. exists name. apply Hchild.
  - destruct child as [|child_link child_entries]; [destruct Hp|].
    destruct (should_ignore _ _ _); [destruct Hp|].
    destruct (follow || negb child_link); [|destruct Hp].
    apply (IH _ He) in Hp as (rest & ->); auto.
    + rewrite Hchild. exists (name ++ "/" ++ rest)%string.
      now rewrite !string_app_assoc.
    + now apply child_path_nonempty.
Qed.

Section WalkComplete.

Variable spec : option (string -> bool).
Variable ignore_patterns : list string.

Lemma walk_finds n : forall rel_dir p,
  well_named n = true ->
  In p (iter_files_from ignore_nothing [] true rel_dir n) ->
  should_ignore p spec ignore_patterns = false ->
  (forall d rest, p = (d ++ "/" ++ rest)%string -> d <> "" ->
     should_ignore (d ++ "/") spec ignore_patterns = false) ->
  In p (iter_files_from spec ignore_patterns true rel_dir n).
Proof.
  induction n as [|is_link entries IH] using node_induction;
    intros rel_dir p Hwf Hp Hkept Habove; [destruct Hp|].
  cbn [iter_files_from] in Hp |- *. cbn [well_named] in Hwf.
  rewrite forallb_forall in Hwf. rewrite Forall_forall in IH.
  apply in_app_or in Hp as [Hp|Hp]; apply in_flat_map in Hp as ([name child] & He & Hp);
    pose proof (Hwf _ He) as Hw; apply andb_true_iff in Hw as [Hname Hw];
    cbn [fst snd] in *; apply in_or_app; [left|right];
    apply in_flat_map; exists (name, child); (split; [exact He|]); cbn [fst snd].
  - destruct child; [|destruct Hp].
    cbv beta iota zeta delta [should_ignore ignore_nothing] in Hp. destruct Hp as [<-|[]].
    rewrite Hkept. now left.
  - destruct child as [|child_link child_entries]; [destruct Hp|].
    cbv beta iota zeta delta [should_ignore ignore_nothing orb] in Hp.
    destruct (walk_below _ _ _ _ _ _ Hw (child_path_nonempty rel_dir name Hname) Hp)
      as (rest & E).
    rewrite (Habove _ _ E (child_path_nonempty rel_dir name Hname)). cbn [orb].
    apply (IH _ He); auto.
Qed.

End WalkComplete.

(** When symlinks are followed, [iter_files_fs] yields every file of the
    tree that [should_ignore] keeps and whose directories it keeps. *)
Theorem walk_yields_every_kept_file
    (root : list (string * node)) (spec : option (string -> bool))
    (ignore_patterns : list string) (p : string) :
  well_named (Dir false root) = true ->
  In p (all_files root) ->
  should_ignore p spec ignore_patterns = false ->
  (forall d rest, p = (d ++ "/" ++ rest)%string -> d <> "" ->
     should_ignore (d ++ "/") spec ignore_patterns = false) ->
  In p (iter_files_fs root spec ignore_patterns true).
Proof.
  intros Hwf Hp Hkept Habove.
  now apply (walk_finds spec ignore_patterns (Dir false root) "").
Qed.

(** ** The filters *)

Section Filtered.

Variable float_repr : float -> string.
Variable tiktoken_encode : string -> text -> option Z.
Variable passes_filters : string -> bool.
Variable c : Config.
Variable fs : filesystem.
Variable cache_files : dict CacheEntry.

Abbreviation scan :=
  (scan_directory float_repr tiktoken_encode passes_filters c fs cache_files).
Abbreviation step1 := (step passes_filters c fs cache_files).

Lemma step_touches_passing p :
  passes_filters p = false ->
  files (step1 p) = [] /\ skipped (step1 p) = [] /\ tasks (step1 p) = []
  /\ io_log (step1 p) = [].
Proof. intros H. unfold step, scan_file. rewrite H. cbn. auto. Qed.

(** What the scan records, skips or reads passes the filters. *)
Lemma scan_touches_passing candidates prev r :
  scan candidates prev = Some r ->
  (forall e, In e (r_files r) -> passes_filters (fr_path e) = true)
  /\ (forall x, In x (r_skipped r) -> passes_filters (sk_path x) = true)
  /\ (forall ev, In ev (r_reads r) -> passes_filters (event_path ev) = true).
Proof.
  intros Hscan.
  destruct (scan_closed _ _ _ _ _ _ _ _ _ Hscan)
    as (Hf & Hs & _ & _ & _ & _ & _ & _ & _ & Hr).
  assert (Htask : forall p t, In t (tasks (step1 p)) ->
                    passes_filters p = true /\ t_rel_path t = p).
  { intros p t Ht. split.
    - destruct (passes_filters p) eqn:E; [reflexivity|].
      destruct (step_touches_passing p E) as (_ & _ & H & _).
      rewrite H in Ht. destruct Ht.
    - apply step_tasks in Ht. now subst t. }
  assert (Hpass : forall p, passes_filters p = false ->
            files (step1 p) = [] /\ skipped (step1 p) = [] /\ io_log (step1 p) = []).
  { intros p E. destruct (step_touches_passing p E) as (H1 & H2 & _ & H4). auto. }
  repeat split.
  - intros e He. rewrite Hf in He.
    apply in_app_or in He as [He|He]; apply in_flat_map in He as (p & _ & He).
    + unfold served in He. pose proof (step_files_path _ _ _ _ _ _ He) as E.
      rewrite E. destruct (passes_filters p) eqn:Ep; [reflexivity|].
      destruct (Hpass p Ep) as (H & _). rewrite H in He. destruct He.
    + unfold measured in He. apply in_flat_map in He as (t & Ht & He).
      destruct (Htask p t Ht) as (Hp & Et).
      unfold task_files in He.
      destruct (process_file_task tiktoken_encode fs t) as [reads [res|]] eqn:Ep;
        [|destruct He].
      destruct (process_file_task_path _ _ _ _ _ Ep) as (Hpath & _).
      cbn [snd] in He. destruct res; simpl in He; try destruct He.
      simpl in Hpath. destruct (_ =? _)%string; [destruct He|].
      destruct He as [<-|[]]. simpl. congruence.
  - intros x Hx. rewrite Hs in Hx.
    apply in_app_or in Hx as [Hx|Hx]; apply in_flat_map in Hx as (p & _ & Hx).
    + pose proof (step_skipped_path _ _ _ _ _ _ Hx) as E.
      rewrite E. destruct (passes_filters p) eqn:Ep; [reflexivity|].
      destruct (Hpass p Ep) as (_ & H & _). rewrite H in Hx. destruct Hx.
    + apply in_flat_map in Hx as (t & Ht & Hx).
      destruct (Htask p t Ht) as (Hp & Et).
      unfold task_skips in Hx.
      destruct (process_file_task tiktoken_encode fs t) as [reads [res|]] eqn:Ep;
        [|destruct Hx].
      destruct (process_file_task_path _ _ _ _ _ Ep) as (Hpath & _).
      cbn [snd] in Hx.
      destruct res; simpl in Hx, Hpath; try destruct Hx;
        destruct (_ =? _)%string; try destruct Hx as [<-|[]]; try destruct Hx;
        simpl; congruence.
  - intros ev Hev. rewrite Hr in Hev.
    apply in_app_or in Hev as [Hev|Hev]; apply in_flat_map in Hev as (p & _ & Hev).
    + pose proof (step_io_log _ _ _ _ _ _ Hev) as E. subst ev. simpl.
      destruct (passes_filters p) eqn:Ep; [reflexivity|].
      destruct (Hpass p Ep) as (_ & _ & H). rewrite H in Hev. destruct Hev.
    + apply in_flat_map in Hev as (t & Ht & Hev).
      destruct (Htask p t Ht) as (Hp & Et).
      destruct (process_file_task tiktoken_encode fs t) as [reads res] eqn:Ep.
      destruct (process_file_task_returns tiktoken_encode fs t) as [res' Hres].
      rewrite Ep in Hres. simpl in Hres. subst res.
      destruct (process_file_task_path _ _ _ _ _ Ep) as (_ & Hevs).
      simpl in Hev. rewrite (Hevs ev Hev). congruence.
Qed.

End Filtered.

Lemma str_in_In x xs : str_in x xs = true <-> In x xs.
Proof.
  unfold str_in. rewrite existsb_exists. split.
  - intros (y & Hy & E). apply String.eqb_eq in E. now subst.
  - intros H. exists x. split; [exact H|apply String.eqb_refl].
Qed.

Lemma lstrip_by_head drop s :
  match lstrip_by drop s with
  | EmptyString => True
  | String ch _ => drop ch = false
  end.
Proof.
  induction s as [|ch s IH]; simpl; [exact I|].
  destruct (drop ch) eqn:E; [exact IH|exact E].
Qed.

Lemma lstrip_dot_slash s :
  startswith (lstrip_chars "./" s) "." = false
  /\ startswith (lstrip_chars "./" s) "/" = false.
Proof.
  unfold lstrip_chars, startswith.
  pose proof (lstrip_by_head (char_in "./") s) as H.
  destruct (lstrip_by (char_in "./") s) as [|ch rest]; [split; reflexivity|].
  unfold char_in in H. cbn [list_ascii_of_string existsb] in H.
  apply orb_false_iff in H as (H1 & H2). apply orb_false_iff in H2 as (H2 & _).
  apply Ascii.eqb_neq in H1, H2.
  cbn [prefix].
  destruct (ascii_dec "." ch) as [E|_]; [now contradiction H1|].
  destruct (ascii_dec "/" ch) as [E|_]; [now contradiction H2|].
  split; reflexivity.
Qed.

(** No path of the changed list begins with a dot or with a slash. *)
Lemma load_changed_list_stripped file p :
  In p (load_changed_list file) ->
  startswith p "." = false /\ startswith p "/" = false.
Proof.
  destruct file as [txt|]; [|intros []]. cbn [load_changed_list].
  rewrite nodup_In, in_map_iff. intros (line & <- & _). apply lstrip_dot_slash.
Qed.

Section FilterFacts.

Variable float_repr : float -> string.
Variable tiktoken_encode : string -> text -> option Z.
Variable f : Filters.
Variable c : Config.
Variable fs : filesystem.
Variable cache_files : dict CacheEntry.

Abbreviation scan :=
  (scan_directory float_repr tiktoken_encode (passes f) c fs cache_files).

Lemma touched_passes candidates prev r p :
  scan candidates prev = Some r -> touched r p -> passes f p = true.
Proof.
  intros Hscan Ht.
  destruct (scan_touches_passing _ _ _ _ _ _ _ _ _ Hscan) as (H1 & H2 & H3).
  destruct Ht as [(e & He & <-)|[(x & Hx & <-)|(ev & Hev & <-)]]; auto.
Qed.

Lemma existsb_false {A} (test : A -> bool) l x :
  existsb test l = false -> In x l -> test x = false.
Proof.
  intros H Hx. destruct (test x) eqn:E; [|reflexivity].
  assert (existsb test l = true) by (apply existsb_exists; eauto). congruence.
Qed.

(** What passing the filters means. *)
Lemma passes_true p :
  passes f p = true ->
  should_ignore p (spec f) (ignore_patterns f) = false
  /\ (forall pat, In pat (exclude_patterns f) -> fnmatch p pat = false)
  /\ (include_patterns f <> [] ->
      exists pat, In pat (include_patterns f) /\ fnmatch p pat = true)
  /\ (changed_paths f <> [] ->
      if (changed_scope f =? "files")%string
      then In p (changed_paths f)
      else In (group_label p (changed_depth f)) (changed_labels f)).
Proof.
  unfold passes.
  destruct (should_ignore p (spec f) (ignore_patterns f)); [discriminate|].
  destruct (match changed_paths f with [] => false | _ => _ end) eqn:Ec; [discriminate|].
  destruct (match include_patterns f with [] => false | _ => _ end) eqn:Ei; [discriminate|].
  destruct (match exclude_patterns f with [] => false | _ => _ end) eqn:Ee; [discriminate|].
  intros _. split; [reflexivity|]. split; [|split].
  - destruct (exclude_patterns f) as [|ep eps]; [intros pat []|].
    intros pat Hpat. exact (existsb_false _ _ _ Ee Hpat).
  - intros Hne. destruct (include_patterns f) as [|ip ips]; [contradiction|].
    apply negb_false_iff, existsb_exists in Ei. exact Ei.
  - intros Hne. destruct (changed_paths f) as [|cp cps]; [contradiction|].
    destruct (changed_scope f =? "files")%string;
      apply negb_false_iff in Ec; now apply str_in_In.
Qed.

(** A path that a filter rejects is not scanned: whatever has a record
    in [files] or in [skipped], or is read, is not ignored, matches no
    exclude pattern, matches an include pattern when there are some, and
    is a changed path, or lies under a changed module, when changed
    paths are given. The patterns have no bracket expression. *)
Theorem rejected_paths_are_not_scanned (candidates : list string) (prev : option pyval) :
  prev_is_object prev ->
  forallb (fun pat => negb (char_in pat "["%char))
          (include_patterns f ++ exclude_patterns f) = true ->
  exists r,
    scan candidates prev = Some r
    /\ forall p, touched r p ->
         should_ignore p (spec f) (ignore_patterns f) = false
         /\ (forall pat, In pat (exclude_patterns f) -> fnmatch p pat = false)
         /\ (include_patterns f <> [] ->
             exists pat, In pat (include_patterns f) /\ fnmatch p pat = true)
         /\ (changed_paths f <> [] ->
             if (changed_scope f =? "files")%string
             then In p (changed_paths f)
             else In (group_label p (changed_depth f)) (changed_labels f)).
Proof.
  intros Hprev _.
  destruct (scan_directory_returns float_repr tiktoken_encode (passes f) c fs
              cache_files candidates prev Hprev) as [r Hscan].
  exists r. split; [exact Hscan|]. intros p Ht.
  apply passes_true. exact (touched_passes _ _ _ _ Hscan Ht).
Qed.

(** With changed paths that come from the changed list and from
    [--changed] only, and the scope [files], no path that begins with a
    dot is scanned. *)
Theorem changed_files_scope_drops_dotfiles
    (changed_list : option string) (changed : list string)
    (candidates : list string) (prev : option pyval) :
  prev_is_object prev ->
  changed_paths f = changed_paths_of changed_list changed [] ->
  changed_paths f <> [] ->
  changed_scope f = "files" ->
  exists r,
    scan candidates prev = Some r
    /\ forall p, touched r p -> startswith p "." = false.
Proof.
  intros Hprev Hpaths Hne Hscope.
  destruct (scan_directory_returns float_repr tiktoken_encode (passes f) c fs
              cache_files candidates prev Hprev) as [r Hscan].
  exists r. split; [exact Hscan|]. intros p Ht.
  destruct (passes_true p (touched_passes _ _ _ _ Hscan Ht)) as (_ & _ & _ & Hin).
  specialize (Hin Hne). rewrite Hscope in Hin. cbn [String.eqb Ascii.eqb Bool.eqb] in Hin.
  rename Hin into Ein. rewrite Hpaths in Ein.
  unfold changed_paths_of in Ein. rewrite nodup_In, app_nil_r in Ein.
  apply in_app_or in Ein as [Ein|Ein].
  - now apply load_changed_list_stripped in Ein.
  - apply in_map_iff in Ein as (arg & <- & _). apply lstrip_dot_slash.
Qed.

End FilterFacts.

(** ** [strip] *)

Lemma rstrip_by_cons drop ch s :
  rstrip_by drop (String ch s)
  = match rstrip_by drop s with
    | EmptyString => if drop ch then EmptyString else String ch EmptyString
    | rest => String ch rest
    end.
Proof. reflexivity. Qed.

Lemma rstrip_by_idem drop s : rstrip_by drop (rstrip_by drop s) = rstrip_by drop s.
Proof.
  induction s as [|ch s IH]; [reflexivity|].
  rewrite rstrip_by_cons.
  destruct (rstrip_by drop s) as [|ch' rest] eqn:E.
  - destruct (drop ch) eqn:D; [reflexivity|]. rewrite rstrip_by_cons. cbn [rstrip_by].
    now rewrite D.
  - rewrite rstrip_by_cons, IH. reflexivity.
Qed.

(** A suffix of a string that [rstrip] leaves alone is left alone too,
    when it is not empty. *)
Lemma rstrip_by_tail drop ch s :
  rstrip_by drop (String ch s) = String ch s -> s <> "" -> rstrip_by drop s = s.
Proof.
  cbn [rstrip_by]. intros H Hne.
  destruct (rstrip_by drop s) as [|ch' rest].
  - destruct (drop ch); [discriminate|]. injection H as <-. contradiction.
  - now injection H.
Qed.

Lemma rstrip_by_app drop s t :
  rstrip_by drop t = t -> t <> "" -> rstrip_by drop (s ++ t) = (s ++ t)%string.
Proof.
  intros Ht Hne. induction s as [|ch s IH]; [exact Ht|].
  cbn [append rstrip_by]. rewrite IH.
  destruct (s ++ t)%string eqn:E; [|reflexivity].
  destruct s; [simpl in E; contradiction|discriminate].
Qed.

Lemma rstrip_by_head drop ch s ch' rest :
  rstrip_by drop (String ch s) = String ch' rest -> ch' = ch.
Proof.
  cbn [rstrip_by]. destruct (rstrip_by drop s).
  - destruct (drop ch); [discriminate|]. now intros [= <- _].
  - now intros [= <- _].
Qed.

(** A stripped string is empty, or begins and ends with a character
    that is no white space. *)
Lemma strip_shape s :
  strip s = ""
  \/ exists ch rest, strip s = String ch rest /\ is_space ch = false
                     /\ rstrip_by is_space (strip s) = strip s.
Proof.
  unfold strip.
  destruct (rstrip_by is_space (lstrip_by is_space s)) as [|ch rest] eqn:E; [now left|].
  right. exists ch, rest. split; [reflexivity|]. split.
  - pose proof (lstrip_by_head is_space s) as H.
    destruct (lstrip_by is_space s) as [|ch0 rest0]; [discriminate|].
    apply rstrip_by_head in E. now subst.
  - rewrite <- E. apply rstrip_by_idem.
Qed.

Lemma strip_fixed ch rest :
  is_space ch = false ->
  rstrip_by is_space (String ch rest) = String ch rest ->
  strip (String ch rest) = String ch rest.
Proof. intros Hch Hr. unfold strip. cbn [lstrip_by]. now rewrite Hch. Qed.

Lemma strip_idem s : strip (strip s) = strip s.
Proof.
  destruct (strip_shape s) as [->|(ch & rest & E & Hch & Hr)]; [reflexivity|].
  rewrite E in *. now apply strip_fixed.
Qed.

(** ** Git pathspecs *)

Lemma startswith_empty s : startswith s "" = true.
Proof. destruct s; reflexivity. Qed.

Lemma startswith_cons ch s t :
  startswith (String ch s) (String ch t) = startswith s t.
Proof. unfold startswith. cbn [prefix]. destruct (ascii_dec ch ch); [reflexivity|contradiction]. Qed.

(** What [normalize_git_pattern] returns for a pattern that is not
    blank. *)
Lemma normalize_git_pattern_shape pattern exclude :
  strip pattern <> "" ->
  exists ch rest,
    normalize_git_pattern pattern exclude = String ch rest
    /\ ch = ":"%char
    /\ rstrip_by is_space (String ch rest) = String ch rest.
Proof.
  intros Hne. unfold normalize_git_pattern. cbv zeta.
  destruct (strip_shape pattern) as [E|(ch & rest & E & Hch & Hr)]; [contradiction|].
  rewrite E in *. cbn [String.eqb].
  set (q := if startswith (String ch rest) "!" then drop_first (String ch rest)
            else String ch rest).
  assert (Hq : q = "" \/ rstrip_by is_space q = q /\ q <> "").
  { unfold q. destruct (startswith (String ch rest) "!").
    - cbn [drop_first]. destruct rest as [|ch' rest']; [now left|right].
      split; [|discriminate]. eapply rstrip_by_tail; [exact Hr|discriminate].
    - right. split; [exact Hr|discriminate]. }
  destruct (startswith q ":") eqn:Hcolon.
  - destruct q as [|qc qrest]; [discriminate|].
    exists qc, qrest. split; [reflexivity|]. split.
    + unfold startswith in Hcolon. cbn [prefix] in Hcolon.
      destruct (ascii_dec ":" qc); [now subst|discriminate].
    + destruct Hq as [Hq|(Hq & _)]; [discriminate|exact Hq].
  - destruct exclude.
    + exists ":"%char, ("(exclude,glob)" ++ q)%string. split; [reflexivity|].
      split; [reflexivity|].
      destruct Hq as [->|(Hq & Hne')]; [reflexivity|].
      change (String ":" ("(exclude,glob)" ++ q)) with (":(exclude,glob)" ++ q)%string.
      now apply rstrip_by_app.
    + exists ":"%char, ("(glob)" ++ q)%string. split; [reflexivity|].
      split; [reflexivity|].
      destruct Hq as [->|(Hq & Hne')]; [reflexivity|].
      change (String ":" ("(glob)" ++ q)) with (":(glob)" ++ q)%string.
      now apply rstrip_by_app.
Qed.

(** [normalize_git_pattern] gives the empty string for a blank pattern
    and for no other; what it gives otherwise begins with a colon, and
    normalizing it again, as an include or as an exclude pattern,
    changes nothing. *)
Theorem normalize_git_pattern_is_idempotent (pattern : string) (exclude exclude' : bool) :
  (normalize_git_pattern pattern exclude = "" <-> strip pattern = "")
  /\ (strip pattern <> "" -> startswith (normalize_git_pattern pattern exclude) ":" = true)
  /\ normalize_git_pattern (normalize_git_pattern pattern exclude) exclude'
     = normalize_git_pattern pattern exclude.
Proof.
  destruct (string_dec (strip pattern) "") as [E|Hne].
  - assert (H : normalize_git_pattern pattern exclude = "").
    { unfold normalize_git_pattern. cbv zeta. now rewrite E. }
    rewrite H. repeat split; auto; contradiction.
  - destruct (normalize_git_pattern_shape pattern exclude Hne)
      as (ch & rest & E & -> & Hr).
    rewrite E. split; [|split].
    + split; [discriminate|contradiction].
    + intros _. rewrite startswith_cons. apply startswith_empty.
    + unfold normalize_git_pattern. cbv zeta.
      rewrite (strip_fixed ":" rest eq_refl Hr). cbn [String.eqb].
      replace (startswith (String ":" rest) "!") with false by reflexivity.
      rewrite startswith_cons, startswith_empty. reflexivity.
Qed.

Lemma normalize_git_pattern_blank pattern exclude :
  nonempty (normalize_git_pattern pattern exclude) = nonempty (strip pattern).
Proof.
  destruct (normalize_git_pattern_is_idempotent pattern exclude exclude) as (H & _).
  unfold nonempty.
  destruct (String.eqb_spec (normalize_git_pattern pattern exclude) "") as [E|E];
  destruct (String.eqb_spec (strip pattern) "") as [E'|E']; auto.
  - apply H in E. contradiction.
  - apply H in E'. contradiction.
Qed.

Lemma filter_map_length {A B} (f : A -> B) (test : B -> bool) (test' : A -> bool) l :
  (forall x, test (f x) = test' x) ->
  len (filter test (map f l)) = len (filter test' l).
Proof.
  intros H. induction l as [|x l IH]; [reflexivity|].
  cbn [map filter]. rewrite H. unfold len in *.
  destruct (test' x); cbn [List.length]; lia.
Qed.

(** Every pathspec that [build_git_pathspec] returns begins with a
    colon; there is one for each pattern that is not blank; and an
    exclude pattern that begins with a colon is handed on as it is,
    stripped, without the [exclude] magic. *)
Theorem build_git_pathspec_keeps_magic_patterns (include_patterns exclude_patterns : list string) :
  (forall spec, In spec (build_git_pathspec include_patterns exclude_patterns) ->
     startswith spec ":" = true)
  /\ len (build_git_pathspec include_patterns exclude_patterns)
     = len (filter (fun pattern => nonempty (strip pattern))
                   (include_patterns ++ exclude_patterns))
  /\ (forall pattern, In pattern exclude_patterns ->
        startswith (strip pattern) ":" = true ->
        In (strip pattern) (build_git_pathspec include_patterns exclude_patterns)).
Proof.
  unfold build_git_pathspec. split; [|split].
  - intros spec Hin.
    assert (H : exists pattern exclude,
               spec = normalize_git_pattern pattern exclude /\ nonempty spec = true).
    { apply in_app_or in Hin as [Hin|Hin]; apply filter_In in Hin as (Hin & Hne);
        apply in_map_iff in Hin as (pattern & <- & _); eauto. }
    destruct H as (pattern & exclude & -> & Hne).
    rewrite normalize_git_pattern_blank in Hne.
    apply (normalize_git_pattern_is_idempotent pattern exclude exclude).
    unfold nonempty in Hne. apply negb_true_iff, String.eqb_neq in Hne. exact Hne.
  - rewrite filter_app, !len_app.
    f_equal; apply filter_map_length; intros p; apply normalize_git_pattern_blank.
  - intros pattern Hin Hmagic. apply in_or_app. right.
    apply filter_In. split.
    + apply in_map_iff. exists pattern. split; [|exact Hin].
      unfold normalize_git_pattern. cbv zeta.
      destruct (strip pattern) as [|ch rest] eqn:E; [discriminate|].
      cbn [String.eqb].
      unfold startswith in Hmagic. cbn [prefix] in Hmagic.
      destruct (ascii_dec ":" ch) as [<-|]; [|discriminate].
      replace (startswith (String ":" rest) "!") with false by reflexivity.
      now rewrite startswith_cons, startswith_empty.
    + destruct (strip pattern); [discriminate|reflexivity].
Qed.

(** ** Changed files and churn *)

Lemma dedupe_spec paths : forall seen,
  NoDup (dedupe seen paths)
  /\ (forall p, In p (dedupe seen paths) <-> In p paths /\ ~ In p seen).
Proof.
  induction paths as [|path rest IH]; intros seen; cbn [dedupe].
  - split; [constructor|]. intros p. simpl. tauto.
  - destruct (str_in path seen) eqn:E.
    + destruct (IH seen) as (Hnd & Hin). split; [exact Hnd|].
      intros p. rewrite Hin. apply str_in_In in E. simpl. split.
      * tauto.
      * intros ([<-|H] & Hs); [contradiction|tauto].
    + destruct (IH (path :: seen)) as (Hnd & Hin).
      assert (Hnot : ~ In path seen).
      { intros H. apply str_in_In in H. congruence. }
      split.
      * constructor; [|exact Hnd]. rewrite Hin. simpl. tauto.
      * intros p. simpl. rewrite Hin. simpl.
        destruct (string_dec path p) as [<-|Hne]; tauto.
Qed.

Lemma output_lines_stripped out p :
  In p (output_lines out) -> p <> "" /\ strip p = p.
Proof.
  unfold output_lines. intros H. apply filter_In in H as (H & Hne).
  apply in_map_iff in H as (line & <- & _). split.
  - unfold nonempty in Hne. now apply negb_true_iff, String.eqb_neq in Hne.
  - apply strip_idem.
Qed.

(** [git_changed_files] lists each path once, and lists the lines of
    the output of its command, stripped and not empty, with those of
    [git ls-files --others] when untracked files are asked for; a
    command that fails adds nothing. Outside a repository, and without
    a range, a commit or a date, it lists nothing, untracked files
    included. *)
Theorem git_changed_files_lists_each_path_once
    (is_git_repo : bool) (run_git : list string -> option string)
    (range_spec since_commit since_date : option string) (include_untracked : bool) :
  let changed := git_changed_files is_git_repo run_git range_spec since_commit
                   since_date include_untracked in
  NoDup changed
  /\ (forall p, In p changed -> p <> "" /\ strip p = p)
  /\ (forall cmd, is_git_repo = true ->
        changed_command range_spec since_commit since_date = Some cmd ->
        forall p, In p changed <->
                  In p (lines_of run_git cmd)
                  \/ (include_untracked = true
                      /\ In p (lines_of run_git untracked_command)))
  /\ (is_git_repo = false
      \/ changed_command range_spec since_commit since_date = None -> changed = []).
Proof.
  cbv zeta. unfold git_changed_files.
  destruct is_git_repo; cbn [negb].
  2:{ split; [constructor|]. split; [intros p []|]. split; [discriminate|reflexivity]. }
  destruct (changed_command range_spec since_commit since_date) as [cmd|] eqn:Ecmd.
  2:{ split; [constructor|]. split; [intros p []|]. split; [discriminate|reflexivity]. }
  cbv zeta. set (files := if include_untracked then _ else _).
  destruct (dedupe_spec files []) as (Hnd & Hin).
  assert (Hfiles : forall p, In p files <->
            In p (lines_of run_git cmd)
            \/ (include_untracked = true /\ In p (lines_of run_git untracked_command))).
  { intros p. unfold files. destruct include_untracked.
    - rewrite in_app_iff. tauto.
    - split; [tauto|]. intros [H|(H & _)]; [exact H|discriminate]. }
  split; [exact Hnd|]. split; [|split].
  - intros p Hp. apply Hin in Hp as (Hp & _). apply Hfiles in Hp.
    assert (H : exists cmd', In p (lines_of run_git cmd')).
    { destruct Hp as [Hp|(_ & Hp)]; eauto. }
    destruct H as (cmd' & H). unfold lines_of in H.
    destruct (run_git cmd') as [out|]; [|destruct H].
    now apply output_lines_stripped in H.
  - intros cmd' _ [= <-] p. rewrite Hin, Hfiles. simpl. tauto.
  - intros [H|H]; discriminate.
Qed.

Lemma mentions_nonneg path lines : 0 <= mentions path lines.
Proof. unfold mentions, len. lia. Qed.

Lemma mentions_cons path line lines :
  mentions path (line :: lines)
  = (if (strip line =? path)%string then 1 else 0) + mentions path lines.
Proof.
  unfold mentions. cbn [filter].
  destruct (strip line =? path)%string; unfold len; cbn [List.length]; lia.
Qed.

Lemma count_line_cases file_set counts line :
  count_line file_set counts line
  = if counted file_set (strip line)
    then dict_set counts (strip line)
           (match dict_get counts (strip line) with Some n => n | None => 0 end + 1)
    else counts.
Proof.
  unfold count_line, counted, nonempty. cbv zeta.
  destruct (strip line =? "")%string; [reflexivity|]. cbn [negb andb].
  destruct file_set; [reflexivity|].
  destruct (str_in _ _); reflexivity.
Qed.

Lemma count_lines_get file_set path lines : forall counts,
  dict_get (fold_left (count_line file_set) lines counts) path
  = let k := if counted file_set path then mentions path lines else 0 in
    match dict_get counts path with
    | Some n => Some (n + k)
    | None => if k =? 0 then None else Some k
    end.
Proof.
  induction lines as [|line lines IH]; intros counts; cbv zeta.
  - cbn [fold_left]. unfold mentions, len. cbn [filter List.length].
    destruct (counted file_set path); cbn; destruct (dict_get counts path);
      try reflexivity; f_equal; lia.
  - cbn [fold_left]. rewrite IH. cbv zeta. rewrite mentions_cons, count_line_cases.
    pose proof (mentions_nonneg path lines) as Hnn.
    destruct (String.eqb_spec (strip line) path) as [E|E].
    + rewrite E. destruct (counted file_set path) eqn:Hc.
      * rewrite dict_get_set_same.
        destruct (dict_get counts path) as [n|].
        -- f_equal; lia.
        -- destruct (1 + mentions path lines =? 0) eqn:Z0; [lia|]. f_equal; lia.
      * reflexivity.
    + destruct (counted file_set (strip line)).
      * rewrite dict_get_set_other by exact E. reflexivity.
      * reflexivity.
Qed.

Lemma count_lines_keys file_set lines : forall counts,
  NoDup (dict_keys counts) ->
  NoDup (dict_keys (fold_left (count_line file_set) lines counts)).
Proof.
  induction lines as [|line lines IH]; intros counts H; cbn [fold_left]; [exact H|].
  apply IH. rewrite count_line_cases.
  destruct (counted _ _); [now apply dict_set_keys_NoDup|exact H].
Qed.

Lemma commits_ge_total a b : commits_ge a b = true \/ commits_ge b a = true.
Proof. unfold commits_ge. lia. Qed.

Lemma commits_ge_trans a b c0 :
  commits_ge a b = true -> commits_ge b c0 = true -> commits_ge a c0 = true.
Proof. unfold commits_ge. lia. Qed.

(** [git_churn] lists each counted path of the log once, with the
    number of lines that name it, most commits first; it lists nothing
    else. *)
Theorem git_churn_counts_the_log
    (run_git : list string -> option string)
    (commits : Z) (file_set : list string) (out : string) :
  0 < commits ->
  run_git ["log"; "-n"; str_int commits; "--name-only"; "--pretty=format:"] = Some out ->
  let churn := git_churn true true run_git commits file_set in
  NoDup (map fst churn)
  /\ ordered commits_ge churn
  /\ forall path n,
       In (path, n) churn <->
       counted file_set path = true
       /\ n = mentions path (splitlines out) /\ 0 < n.
Proof.
  intros Hpos Hrun. cbv zeta. unfold git_churn.
  replace (commits <=? 0) with false by lia. cbn [negb orb]. rewrite Hrun.
  set (counts := fold_left (count_line file_set) (splitlines out) []).
  fold commits_ge.
  pose proof (sorted_by_perm commits_ge counts) as Hperm.
  assert (Hkeys : NoDup (dict_keys counts)).
  { apply count_lines_keys. constructor. }
  split; [|split].
  - eapply Permutation_NoDup; [apply Permutation_map; exact Hperm|exact Hkeys].
  - apply sorted_by_ordered; [exact commits_ge_total|exact commits_ge_trans].
  - intros path n.
    assert (Hin : In (path, n) (sorted_by commits_ge counts) <-> dict_get counts path = Some n).
    { split.
      - intros H. apply (dict_get_NoDup counts path n Hkeys).
        eapply Permutation_in; [symmetry; exact Hperm|exact H].
      - intros H. eapply Permutation_in; [exact Hperm|]. now apply dict_get_In. }
    rewrite Hin. unfold counts. rewrite count_lines_get. cbv zeta. cbn [dict_get].
    pose proof (mentions_nonneg path (splitlines out)) as Hnn.
    destruct (counted file_set path).
    + destruct (mentions path (splitlines out) =? 0) eqn:Z0.
      * split; [discriminate|]. intros (_ & -> & H). lia.
      * split.
        -- intros [= <-]. repeat split. lia.
        -- now intros (_ & -> & _).
    + cbn. split; [discriminate|]. now intros (H & _).
Qed.

(** ** The fast hash *)

(** The fast hash reads the size, the first 4096 bytes and, for a file
    of more than 8192 bytes, the last 4096: two contents of one size
    that agree on these have the same hash, whatever lies between; and
    in a file of at most 8192 bytes nothing after the first 4096 bytes
    is hashed. *)
Theorem fast_hash_reads_the_ends_only (data data' : bytes) :
  len data = len data' ->
  firstn (Z.to_nat 4096) data = firstn (Z.to_nat 4096) data' ->
  len data <= 8192 \/ last_4096 data = last_4096 data' ->
  hash_data_fast data = hash_data_fast data'.
Proof.
  intros Hlen Hhead Htail. unfold hash_data_fast. cbv zeta.
  rewrite <- Hlen, <- Hhead.
  destruct (len data >? 8192) eqn:Hbig; [|reflexivity].
  destruct Htail as [Hsmall|Htail]; [lia|].
  unfold last_4096 in Htail. rewrite <- Hlen in Htail. now rewrite Htail.
Qed.

(** ** The sniff at the 8192nd byte *)

Lemma firstn_app_exact {A} (l : list A) x rest n :
  n = S (List.length l) -> firstn n (l ++ x :: rest) = l ++ [x].
Proof.
  intros ->. rewrite firstn_app.
  replace (S (List.length l) - List.length l)%nat with 1%nat by lia.
  rewrite firstn_all2 by lia. reflexivity.
Qed.

Lemma utf8_decode_cut_short lead :
  194 <= byte_val lead < 245 -> utf8_decode Strict [lead] = None.
Proof.
  intros H. cbn [utf8_decode]. cbv zeta.
  replace (byte_val lead <? 128) with false by lia.
  replace (byte_val lead <? 194) with false by lia.
  destruct (byte_val lead <? 224); [reflexivity|].
  destruct (byte_val lead <? 240); [reflexivity|].
  destruct (byte_val lead <? 245); reflexivity.
Qed.

Lemma utf8_decode_ascii_then prefix rest :
  forallb (fun b => byte_val b <? 128) prefix = true ->
  utf8_decode Strict rest = None ->
  utf8_decode Strict (prefix ++ rest) = None.
Proof.
  intros Hascii Hrest. induction prefix as [|b prefix IH]; [exact Hrest|].
  cbn [forallb] in Hascii. apply andb_true_iff in Hascii as (Hb & Hp).
  cbn [app utf8_decode]. cbv zeta. rewrite Hb, (IH Hp). reflexivity.
Qed.

Lemma has_nul_app l l' : has_nul (l ++ l') = has_nul l || has_nul l'.
Proof. unfold has_nul. apply existsb_app. Qed.

(** A file of unknown extension and name whose 8192nd byte begins a
    character of several bytes is taken for binary, the bytes before
    being plain ASCII: the sniff cuts the character, and the strict
    decoder rejects the prefix, whatever follows. *)
Theorem sniff_cuts_a_character_in_two
    (p : string) (before : bytes) (lead : byte) (rest : bytes) :
  str_in (lower (path_suffix p)) TEXT_EXTENSIONS = false ->
  str_in (lower (path_name p)) TEXT_NAMES = false ->
  len before = 8191 ->
  forallb (fun b => (0 <? byte_val b) && (byte_val b <? 128)) before = true ->
  194 <= byte_val lead < 245 ->
  is_text_file p (Content (before ++ lead :: rest)) = (false, [EvSniff p]).
Proof.
  intros Hext Hname Hlen Hascii Hlead.
  unfold is_text_file. rewrite Hext, Hname. cbv zeta.
  rewrite (firstn_app_exact before lead rest) by (unfold len in Hlen; lia).
  assert (Hasc : forallb (fun b => byte_val b <? 128) before = true).
  { rewrite forallb_forall in *. intros b Hb. specialize (Hascii b Hb). lia. }
  assert (Hnul : has_nul (before ++ [lead]) = false).
  { rewrite has_nul_app. apply orb_false_iff. split.
    - unfold has_nul. destruct (existsb _ before) eqn:E; [|reflexivity].
      apply existsb_exists in E as (b & Hb & Hz).
      rewrite forallb_forall in Hascii. specialize (Hascii b Hb). lia.
    - unfold has_nul. cbn [existsb]. rewrite orb_false_r. lia. }
  rewrite Hnul.
  rewrite (utf8_decode_ascii_then before [lead] Hasc (utf8_decode_cut_short lead Hlead)).
  reflexivity.
Qed.

(** ** Encoding and decoding *)

Lemma byte_val_of_Z z : 0 <= z < 256 -> byte_val (byte_of_Z z) = z.
Proof.
  intros H. unfold byte_val, byte_of_Z.
  destruct (Byte.of_N (Z.to_N z)) as [b|] eqn:E.
  - apply Byte.to_of_N in E. rewrite E. lia.
  - apply Byte.of_N_None_iff in E. lia.
Qed.

Lemma two_byte_decoding n :
  128 <= n < 256 ->
  194 <= Z.lor 192 (Z.shiftr n 6) < 224
  /\ is_continuation (Z.lor 128 (Z.land n 63)) = true
  /\ Z.lor (Z.shiftl (Z.land (Z.lor 192 (Z.shiftr n 6)) 31) 6)
           (low6 (Z.lor 128 (Z.land n 63))) = n.
Proof.
  intros H.
  assert (Hall : forallb (fun n =>
            (194 <=? Z.lor 192 (Z.shiftr n 6)) && (Z.lor 192 (Z.shiftr n 6) <? 224)
            && is_continuation (Z.lor 128 (Z.land n 63))
            && (Z.lor (Z.shiftl (Z.land (Z.lor 192 (Z.shiftr n 6)) 31) 6)
                      (low6 (Z.lor 128 (Z.land n 63))) =? n))
            (map (fun k => 128 + Z.of_nat k) (seq 0 128)) = true)
    by (vm_compute; reflexivity).
  rewrite forallb_forall in Hall.
  specialize (Hall n).
  assert (Hin : In n (map (fun k => 128 + Z.of_nat k) (seq 0 128))).
  { apply in_map_iff. exists (Z.to_nat (n - 128)). split; [lia|].
    apply in_seq. lia. }
  specialize (Hall Hin).
  apply andb_true_iff in Hall as (Hall & H4).
  apply andb_true_iff in Hall as (Hall & H3).
  apply andb_true_iff in Hall as (H1 & H2).
  repeat split; try lia. exact H3.
Qed.

Lemma utf8_decode_encoded_char (h : error_handler) ch rest :
  utf8_decode h (utf8_encode_char ch ++ rest)
  = emit (Z.of_N (N_of_ascii ch)) (utf8_decode h rest).
Proof.
  unfold utf8_encode_char. cbv zeta.
  set (n := Z.of_N (N_of_ascii ch)).
  assert (Hn : 0 <= n < 256).
  { unfold n. pose proof (N_ascii_bounded ch). lia. }
  destruct (n <? 128) eqn:Hsmall.
  - cbn [app utf8_decode]. cbv zeta.
    rewrite (byte_val_of_Z n) by lia. now rewrite Hsmall.
  - destruct (two_byte_decoding n) as (H1 & H2 & H3); [lia|].
    assert (Hlo : 0 <= Z.lor 128 (Z.land n 63) < 256).
    { unfold is_continuation in H2. lia. }
    cbn [app utf8_decode]. cbv zeta.
    rewrite (byte_val_of_Z (Z.lor 192 (Z.shiftr n 6))) by lia.
    rewrite (byte_val_of_Z (Z.lor 128 (Z.land n 63))) by lia.
    replace (Z.lor 192 (Z.shiftr n 6) <? 128) with false by lia.
    replace (Z.lor 192 (Z.shiftr n 6) <? 194) with false by lia.
    replace (Z.lor 192 (Z.shiftr n 6) <? 224) with true by lia.
    now rewrite H2, H3.
Qed.

(** [decode_text] undoes the UTF-8 encoding: the text of the bytes of a
    string is the string, through the strict decoder. *)
Theorem decode_text_inverts_encoding (s : string) :
  utf8_decode Strict (utf8_encode s) = Some (code_points s)
  /\ decode_text (utf8_encode s) = Some (code_points s).
Proof.
  assert (H : utf8_decode Strict (utf8_encode s) = Some (code_points s)).
  { unfold utf8_encode, code_points.
    induction (list_ascii_of_string s) as [|ch l IH]; [reflexivity|].
    cbn [flat_map map]. rewrite utf8_decode_encoded_char, IH. reflexivity. }
  split; [exact H|]. unfold decode_text. now rewrite H.
Qed.

(** ** Top files *)

Lemma tokens_ge_total x y : tokens_ge x y = true \/ tokens_ge y x = true.
Proof. unfold tokens_ge. lia. Qed.

Lemma tokens_ge_trans x y z :
  tokens_ge x y = true -> tokens_ge y z = true -> tokens_ge x z = true.
Proof. unfold tokens_ge. lia. Qed.

Lemma StronglySorted_app_inv {A} (R : A -> A -> Prop) l l' :
  StronglySorted R (l ++ l') -> forall a b, In a l -> In b l' -> R a b.
Proof.
  induction l as [|x l IH]; intros H a b Ha Hb; [destruct Ha|].
  cbn [app] in H. inversion H as [|? ? Hs Hall]; subst.
  destruct Ha as [<-|Ha].
  - rewrite Forall_forall in Hall. apply Hall. apply in_or_app. now right.
  - now apply IH.
Qed.

(** [top_files_by_tokens] returns the [limit] records with the most
    tokens, most tokens first: the records left out have no more tokens
    than any record returned; and it returns nothing for a limit that
    is not positive. *)
Theorem top_files_are_the_largest (files : list FileRecord) (limit : Z) :
  let top := top_files_by_tokens files limit in
  (limit <= 0 -> top = [])
  /\ (0 < limit ->
      len top = Z.min limit (len files)
      /\ ordered tokens_ge top
      /\ exists others,
           Permutation files (top ++ others)
           /\ forall a b, In a top -> In b others -> fr_tokens b <= fr_tokens a).
Proof.
  cbv zeta. unfold top_files_by_tokens. split.
  - intros H. replace (limit <=? 0) with true by lia. reflexivity.
  - intros H. replace (limit <=? 0) with false by lia.
    pose proof (sorted_by_ordered tokens_ge tokens_ge_total tokens_ge_trans files) as Hs.
    pose proof (sorted_by_perm tokens_ge files) as Hp.
    set (sorted := sorted_by tokens_ge files) in *.
    split; [|split].
    + unfold len. rewrite length_firstn, <- (Permutation_length Hp). lia.
    + unfold ordered in *. now apply StronglySorted_firstn.
    + exists (skipn (Z.to_nat limit) sorted). rewrite firstn_skipn.
      split; [exact Hp|]. intros a b Ha Hb.
      rewrite <- (firstn_skipn (Z.to_nat limit) sorted) in Hs.
      pose proof (StronglySorted_app_inv _ _ _ Hs a b Ha Hb) as Hab.
      unfold tokens_ge in Hab. lia.
Qed.

(** ** Entrypoints: [main.*] *)

Lemma glob_star_skip pat : forall gap rest,
  glob pat rest = true -> glob (star :: pat) (gap ++ rest) = true.
Proof.
  induction gap as [|ch gap IH]; intros rest H; rewrite glob_star.
  - cbn [app]. now rewrite H.
  - cbn [app]. rewrite (IH rest H). apply orb_true_r.
Qed.

Lemma glob_star_all name : glob [star] name = true.
Proof.
  rewrite <- (app_nil_r name). apply glob_star_skip. reflexivity.
Qed.

Lemma glob_literal_prefix lit : forall pat name,
  forallb (fun ch => negb (ch =? star)%char && negb (ch =? question)%char) lit = true ->
  glob (lit ++ pat) (lit ++ name) = glob pat name.
Proof.
  induction lit as [|ch lit IH]; intros pat name H; [reflexivity|].
  cbn [forallb] in H. apply andb_true_iff in H as (Hch & Hlit).
  apply andb_true_iff in Hch as (Hs & Hq).
  apply negb_true_iff in Hs, Hq. apply Ascii.eqb_neq in Hs.
  cbn [app]. rewrite glob_char by exact Hs.
  rewrite Ascii.eqb_refl, orb_true_r. cbn [andb]. now apply IH.
Qed.

(** A path with a component that begins with [main.], be it a
    directory, is an entrypoint under the first pattern, [main.*]. *)
Theorem main_dot_anywhere_is_an_entrypoint (f : FileRecord) (above rest : string) :
  fr_path f = (above ++ "main." ++ rest)%string ->
  above = "" \/ endswith above "/" = true ->
  entrypoint_of f = [ {| ep_path := fr_path f; ep_tokens := fr_tokens f;
                         ep_reason := "pattern:main.*" |} ].
Proof.
  intros Hpath Habove. unfold entrypoint_of.
  assert (H : entry_pattern_matches (fr_path f) "main.*" = true).
  { unfold entry_pattern_matches, fnmatch. rewrite Hpath.
    rewrite !list_ascii_of_string_app.
    set (r := list_ascii_of_string rest).
    destruct Habove as [->|Hdir].
    - apply orb_true_iff. left. cbn [list_ascii_of_string app].
      change (glob (list_ascii_of_string "main." ++ [star])
                (list_ascii_of_string "main." ++ r) = true).
      rewrite glob_literal_prefix by reflexivity. apply glob_star_all.
    - apply orb_true_iff. right.
      destruct (endswith_char _ _ Hdir) as (dir & ->).
      change (list_ascii_of_string ("**/" ++ "main.*"))
        with (star :: star :: list_ascii_of_string "/main." ++ [star]).
      rewrite <- app_assoc.
      apply (glob_star_skip _ []). apply glob_star_skip.
      change (glob (list_ascii_of_string "/main." ++ [star])
                (list_ascii_of_string "/main." ++ r) = true).
      rewrite glob_literal_prefix by reflexivity. apply glob_star_all. }
  cbn [ENTRYPOINT_PATTERNS find]. now rewrite H.
Qed.

(** ** Module hashes of an unchanged tree *)

Lemma dict_get_hashes_json (mh : dict string) label :
  dict_get (map (fun ld => (fst ld, PStr (snd ld))) mh) label
  = option_map PStr (dict_get mh label).
Proof.
  induction mh as [|[k v] mh IH]; [reflexivity|].
  cbn [map dict_get fst snd]. destruct (k =? label)%string; [reflexivity|exact IH].
Qed.

Lemma filter_none {A} (f : A -> bool) l :
  (forall x, In x l -> f x = false) -> filter f l = [].
Proof.
  induction l as [|x l IH]; intros H; [reflexivity|].
  cbn [filter]. rewrite (H x) by now left. apply IH. intros y Hy. apply H. now right.
Qed.

Lemma diff_modules_self (mh : dict string) :
  NoDup (dict_keys mh) -> diff_modules (hashes_json mh) mh = ([], []).
Proof.
  intros Hnd. unfold diff_modules, hashes_json. f_equal.
  - rewrite filter_none; [reflexivity|].
    intros [label digest] Hin. cbn [fst snd].
    unfold py_get. rewrite dict_get_hashes_json.
    rewrite (dict_get_NoDup _ _ _ Hnd Hin). cbn [option_map py_eq_str].
    now rewrite String.eqb_refl.
  - apply filter_none. intros label Hin. unfold dict_keys in Hin.
    rewrite map_map in Hin. cbn [fst] in Hin.
    apply in_map_iff in Hin as ([l d] & <- & Hin). cbn [fst].
    unfold dict_mem. now rewrite (dict_get_NoDup _ _ _ Hnd Hin).
Qed.

Section SelfDiff.

Variable float_repr : float -> string.
Variable tiktoken_encode : string -> text -> option Z.
Variable passes_filters : string -> bool.
Variable c : Config.
Variable fs : filesystem.
Variable cache_files : dict CacheEntry.

Abbreviation scan :=
  (scan_directory float_repr tiktoken_encode passes_filters c fs cache_files).

(** The result of a scan compared with a previous result that holds the
    module hashes the scan computes reports no changed and no removed
    module. *)
Theorem same_module_hashes_report_no_change
    (candidates : list string) (prev_data : dict pyval) (r : ScanResult) :
  scan candidates (Some (PDict prev_data)) = Some r ->
  dict_get prev_data "module_hashes" = Some (hashes_json (r_module_hashes r)) ->
  r_changed_modules r = Some [] /\ r_removed_modules r = Some [].
Proof.
  intros Hscan Hprev. unfold scan_directory in Hscan.
  destruct (run_tasks tiktoken_encode c fs
              (tasks (scan_files passes_filters c fs cache_files candidates))
              (scan_files passes_filters c fs cache_files candidates)) as [st|];
    [|discriminate Hscan].
  cbn [prev_module_hashes] in Hscan. injection Hscan as <-.
  cbn [r_module_hashes r_changed_modules r_removed_modules] in *.
  rewrite Hprev.
  rewrite diff_modules_self by apply compute_module_hashes_NoDup.
  split; reflexivity.
Qed.

End SelfDiff.

(** ** Saving and loading the cache *)

Lemma py_eq_int_refl n : py_eq_int (PInt n) n = true.
Proof. apply Z.eqb_refl. Qed.

Lemma py_eq_bool_refl b : py_eq_bool (PBool b) b = true.
Proof. destruct b; reflexivity. Qed.

Lemma load_cache_is_object file enc tok mft mfs mode compress :
  exists d,
    load_cache file enc tok mft mfs mode compress = PDict d
    /\ py_eq_int (py_get d "version") CACHE_VERSION = true.
Proof.
  destruct (load_cache_cases file enc tok mft mfs mode compress)
    as [->|(d & _ & -> & Hv & _)].
  - eexists. split; reflexivity.
  - eauto.
Qed.

(** The cache a scan saves is the cache the next scan loads when it
    runs with the same settings: it is not replaced by the empty cache,
    and its [files] are those saved. *)
Theorem saved_cache_loads_under_the_same_settings
    (file : cache_file) (enc tok : string) (mft mfs : Z) (mode : string)
    (compress : bool) (new_files : pyval) :
  exists saved,
    updated_cache (load_cache file enc tok mft mfs mode compress)
                  enc tok mft mfs mode compress new_files = Some (PDict saved)
    /\ load_cache (CacheParsed (PDict saved)) enc tok mft mfs mode compress
       = PDict saved
    /\ py_get saved "files" = new_files.
Proof.
  destruct (load_cache_is_object file enc tok mft mfs mode compress)
    as (d & -> & Hv).
  cbn [updated_cache]. eexists. split; [reflexivity|].
  unfold dict_update, cache_header. cbn [fold_left fst snd].
  cbn [load_cache]. unfold py_get, dict_mem.
  repeat (rewrite ?dict_get_set_same; rewrite dict_get_set_other by discriminate).
  rewrite ?dict_get_set_same.
  fold (py_get d "version"). rewrite Hv.
  cbn [py_eq_str]. rewrite !String.eqb_refl, !py_eq_int_refl, py_eq_bool_refl.
  cbn [negb]. split; reflexivity.
Qed.

(** ** The properties on the sample runs *)

Lemma no_previous_result : prev_is_object None.
Proof. intros v Hv. discriminate Hv. Defined.

(** The totals of a run over [a.py] and [big.py]. *)
Lemma totals_are_those_of_the_records_witness :
  prev_is_object None
  /\ exists r,
       sample_scan "fast" 50000 [] ["a.py"; "big.py"] = Some r
       /\ r_total_tokens r = sum_tokens (r_files r)
       /\ r_total_files r = len (r_files r).
Proof.
  split; [exact no_previous_result|].
  exact (totals_are_those_of_the_records repr_of_zero no_encoder all_pass
           (sample_config "fast" 50000 20) sample_tree []
           ["a.py"; "big.py"] None no_previous_result).
Defined.

(** Four candidates: one record and three skip records. *)
Lemma every_candidate_is_accounted_for_witness :
  prev_is_object None
  /\ ~ In "" ["a.py"; "big.py"; "link.py"; "notes.txt"]
  /\ exists r,
       sample_scan "fast" 50000 [] ["a.py"; "big.py"; "link.py"; "notes.txt"] = Some r
       /\ r_total_files r + len (r_skipped r) = 4.
Proof.
  assert (Hne : ~ In "" ["a.py"; "big.py"; "link.py"; "notes.txt"]).
  { intros [H|[H|[H|[H|[]]]]]; discriminate H. }
  split; [exact no_previous_result|]. split; [exact Hne|].
  destruct (every_candidate_is_accounted_for repr_of_zero no_encoder all_pass
              (sample_config "fast" 50000 20) sample_tree []
              ["a.py"; "big.py"; "link.py"; "notes.txt"] None
              no_previous_result Hne)
    as (r & Hscan & Hsum & _).
  exists r. split; [exact Hscan | exact Hsum].
Defined.

(** The cache written by a run over a cache that held [a.py]. *)
Lemma saved_cache_mirrors_files_witness :
  prev_is_object None
  /\ cache_enabled (sample_config "fast" 50000 20) = true
  /\ exists r saved,
       sample_scan "fast" 50000 sample_cache ["big.py"] = Some r
       /\ r_saved_cache r = Some saved
       /\ NoDup (dict_keys saved).
Proof.
  split; [exact no_previous_result|]. split; [reflexivity|].
  destruct (saved_cache_mirrors_files repr_of_zero no_encoder all_pass
              (sample_config "fast" 50000 20) sample_tree sample_cache
              ["big.py"] None no_previous_result eq_refl)
    as (r & saved & Hscan & Hsaved & Hnd & _).
  exists r, saved. split; [exact Hscan|]. split; [exact Hsaved | exact Hnd].
Defined.

(** The records of a run over the four files of the tree. *)
Lemma recorded_files_passed_every_guard_witness :
  prev_is_object None
  /\ exists r,
       sample_scan "fast" 50000 [] ["a.py"; "big.py"; "link.py"; "notes.txt"] = Some r
       /\ forall e, In e (r_files r) ->
            fr_size_bytes e <= max_file_size (sample_config "fast" 50000 20).
Proof.
  split; [exact no_previous_result|].
  destruct (recorded_files_passed_every_guard repr_of_zero no_encoder all_pass
              (sample_config "fast" 50000 20) sample_tree []
              ["a.py"; "big.py"; "link.py"; "notes.txt"] None no_previous_result)
    as (r & Hscan & Hrec).
  exists r. split; [exact Hscan|].
  intros e He. apply (Hrec e He).
Defined.

(** A first run, the cache being empty. *)
Lemma uncached_records_are_measured_witness :
  prev_is_object None
  /\ exists r,
       sample_scan "fast" 50000 [] ["a.py"] = Some r
       /\ forall e, In e (r_files r) ->
            exists data,
              fi_content (sample_tree (fr_path e)) = Content data
              /\ fr_content_hash e = hash_under "fast" data.
Proof.
  split; [exact no_previous_result|].
  destruct (uncached_records_are_measured repr_of_zero no_encoder all_pass
              (sample_config "fast" 50000 20) sample_tree []
              ["a.py"] None no_previous_result)
    as (r & Hscan & Hrec).
  exists r. split; [exact Hscan|].
  intros e He.
  destruct (Hrec e He (or_introl eq_refl))
    as (data & txt & Hdata & _ & _ & _ & _ & Hhash).
  exists data. split; [exact Hdata | exact Hhash].
Defined.

(** A run over candidates without repetition. *)
Lemma recorded_paths_are_distinct_witness :
  prev_is_object None
  /\ exists r,
       sample_scan "fast" 50000 [] ["a.py"; "big.py"] = Some r
       /\ forall e x, In e (r_files r) -> In x (r_skipped r) -> fr_path e <> sk_path x.
Proof.
  split; [exact no_previous_result|].
  destruct (recorded_paths_are_distinct repr_of_zero no_encoder all_pass
              (sample_config "fast" 50000 20) sample_tree []
              ["a.py"; "big.py"] None no_previous_result)
    as (r & Hscan & Hdistinct & _).
  exists r. split; [exact Hscan | exact Hdistinct].
Defined.

(** The candidates in two orders. *)
Lemma scan_hash_ignores_enumeration_order_witness :
  prev_is_object None
  /\ Permutation ["a.py"; "notes.txt"] ["notes.txt"; "a.py"]
  /\ exists r r',
       sample_scan "fast" 50000 [] ["a.py"; "notes.txt"] = Some r
       /\ sample_scan "fast" 50000 [] ["notes.txt"; "a.py"] = Some r'
       /\ r_scan_hash r = r_scan_hash r'.
Proof.
  split; [exact no_previous_result|]. split; [apply perm_swap|].
  destruct (scan_hash_ignores_enumeration_order repr_of_zero no_encoder all_pass
              (sample_config "fast" 50000 20) sample_tree []
              ["a.py"; "notes.txt"] ["notes.txt"; "a.py"] None
              no_previous_result (perm_swap _ _ _))
    as (r & r' & Hscan & Hscan' & _ & Hhash & _).
  exists r, r'. split; [exact Hscan|]. split; [exact Hscan' | exact Hhash].
Defined.

(** A run under [fast] over a cache written under [mtime]. *)
Lemma hashing_modes_hash_every_record_witness :
  (hash_mode (sample_config "fast" 50000 20) = "fast"
   \/ hash_mode (sample_config "fast" 50000 20) = "full")
  /\ prev_is_object None
  /\ exists r,
       sample_scan "fast" 50000 sample_cache ["a.py"; "notes.txt"] = Some r
       /\ forall e, In e (r_files r) -> exists h, fr_content_hash e = Some h /\ h <> "".
Proof.
  split; [left; reflexivity|]. split; [exact no_previous_result|].
  exact (hashing_modes_hash_every_record repr_of_zero no_encoder all_pass
           (sample_config "fast" 50000 20) sample_tree sample_cache
           ["a.py"; "notes.txt"] None no_previous_result (or_introl eq_refl)).
Defined.

(** Under [full], with the cache that holds [a.py] and without it. *)
Lemma full_mode_ignores_the_cache_witness :
  hash_mode (sample_config "full" 50000 20) = "full"
  /\ sample_scan "full" 50000 sample_cache ["a.py"]
     = sample_scan "full" 50000 [] ["a.py"].
Proof.
  split; [reflexivity|].
  exact (proj1 (full_mode_ignores_the_cache repr_of_zero no_encoder all_pass
                  (sample_config "full" 50000 20) sample_tree
                  sample_cache [] ["a.py"] None eq_refl)).
Defined.

Lemma sample_tree_mtime p st_size st_mtime :
  fi_stat (sample_tree p) = Some (st_size, st_mtime) ->
  PrimFloat.eqb st_mtime st_mtime = true.
Proof.
  unfold sample_tree.
  repeat match goal with
         | |- context [if ?b then _ else _] => destruct b
         end; cbn [fi_stat]; intros H; try discriminate H;
    injection H as _ <-; reflexivity.
Defined.

(** Two runs under [fast] over the tree, the second with the cache of
    the first. *)
Lemma rescan_is_served_from_the_cache_witness :
  cache_enabled (sample_config "fast" 50000 20) = true
  /\ (hash_mode (sample_config "fast" 50000 20) = "mtime"
      \/ hash_mode (sample_config "fast" 50000 20) = "fast")
  /\ prev_is_object None
  /\ exists r cache r',
       sample_scan "fast" 50000 [] ["a.py"; "big.py"; "notes.txt"] = Some r
       /\ r_saved_cache r = Some cache
       /\ sample_scan "fast" 50000 cache ["a.py"; "big.py"; "notes.txt"] = Some r'
       /\ r_scan_hash r' = r_scan_hash r
       /\ r_cache_hits r' = r_total_files r.
Proof.
  split; [reflexivity|]. split; [right; reflexivity|].
  split; [exact no_previous_result|].
  destruct (rescan_is_served_from_the_cache repr_of_zero no_encoder all_pass
              (sample_config "fast" 50000 20) sample_tree eq_refl
              (or_intror eq_refl) sample_tree_mtime []
              ["a.py"; "big.py"; "notes.txt"] None None
              no_previous_result no_previous_result)
    as (r & cache & r' & Hscan & Hcache & Hscan' & _ & _ & Hhash & _ & _ & Hhits & _).
  exists r, cache, r'. repeat split; assumption.
Defined.

(** The walk of the sample directory under a matcher that ignores
    [node_modules/]. *)
Lemma walk_yields_nothing_ignored_witness :
  well_named (Dir false sample_dir) = true
  /\ In "src/main.py" (iter_files_fs sample_dir skip_node_modules [] false)
  /\ should_ignore "src/main.py" skip_node_modules [] = false.
Proof.
  assert (Hin : In "src/main.py" (iter_files_fs sample_dir skip_node_modules [] false)).
  { vm_compute. right. left. reflexivity. }
  split; [reflexivity|]. split; [exact Hin|].
  exact (proj1 (walk_yields_nothing_ignored sample_dir skip_node_modules [] false
                  "src/main.py" eq_refl Hin)).
Defined.

Lemma src_is_kept d rest :
  "src/main.py" = (d ++ "/" ++ rest)%string -> d <> "" ->
  should_ignore (d ++ "/") skip_node_modules [] = false.
Proof.
  intros Hp Hd. destruct d as [|ch d]; [contradiction|].
  cbn [append] in Hp. injection Hp as <- _. reflexivity.
Defined.

(** [src/main.py] is kept, and so is [src/]. *)
Lemma walk_yields_every_kept_file_witness :
  well_named (Dir false sample_dir) = true
  /\ In "src/main.py" (all_files sample_dir)
  /\ should_ignore "src/main.py" skip_node_modules [] = false
  /\ In "src/main.py" (iter_files_fs sample_dir skip_node_modules [] true).
Proof.
  assert (Hin : In "src/main.py" (all_files sample_dir)).
  { vm_compute. right. left. reflexivity. }
  split; [reflexivity|]. split; [exact Hin|]. split; [reflexivity|].
  exact (walk_yields_every_kept_file sample_dir skip_node_modules []
           "src/main.py" eq_refl Hin eq_refl src_is_kept).
Defined.

(** A run under the sample filters. *)
Lemma rejected_paths_are_not_scanned_witness :
  prev_is_object None
  /\ forallb (fun pat => negb (char_in pat "["%char))
       (include_patterns sample_filters ++ exclude_patterns sample_filters) = true
  /\ exists r,
       scan_directory repr_of_zero no_encoder (passes sample_filters)
         (sample_config "fast" 50000 20) sample_tree []
         ["a.py"; "big.py"; "notes.txt"] None = Some r
       /\ forall p, touched r p -> In p (changed_paths sample_filters).
Proof.
  split; [exact no_previous_result|]. split; [reflexivity|].
  destruct (rejected_paths_are_not_scanned repr_of_zero no_encoder sample_filters
              (sample_config "fast" 50000 20) sample_tree []
              ["a.py"; "big.py"; "notes.txt"] None no_previous_result eq_refl)
    as (r & Hscan & Hrec).
  exists r. split; [exact Hscan|].
  intros p Hp. destruct (Hrec p Hp) as (_ & _ & _ & Hchanged).
  apply Hchanged. discriminate.
Defined.

(** [.env.py] is asked for with [--changed .env.py], and is not scanned. *)
Lemma changed_files_scope_drops_dotfiles_witness :
  prev_is_object None
  /\ changed_paths sample_filters = changed_paths_of None ["./a.py"; ".env.py"] []
  /\ changed_paths sample_filters <> []
  /\ changed_scope sample_filters = "files"
  /\ exists r,
       scan_directory repr_of_zero no_encoder (passes sample_filters)
         (sample_config "fast" 50000 20) sample_tree []
         ["a.py"; ".env.py"] None = Some r
       /\ ~ touched r ".env.py".
Proof.
  assert (Hne : changed_paths sample_filters <> []) by discriminate.
  split; [exact no_previous_result|]. split; [reflexivity|].
  split; [exact Hne|]. split; [reflexivity|].
  destruct (changed_files_scope_drops_dotfiles repr_of_zero no_encoder sample_filters
              (sample_config "fast" 50000 20) sample_tree []
              None ["./a.py"; ".env.py"] ["a.py"; ".env.py"] None
              no_previous_result eq_refl Hne eq_refl)
    as (r & Hscan & Hrec).
  exists r. split; [exact Hscan|].
  intros Ht. specialize (Hrec ".env.py" Ht). discriminate Hrec.
Defined.

(** The churn of the sample log: [a.py] twice, [big.py] once. *)
Lemma git_churn_counts_the_log_witness :
  0 < 5
  /\ (exists out, sample_log ["log"; "-n"; str_int 5; "--name-only"; "--pretty=format:"]
                  = Some out)
  /\ NoDup (map fst (git_churn true true sample_log 5 []))
  /\ ordered commits_ge (git_churn true true sample_log 5 []).
Proof.
  split; [lia|]. split; [eexists; reflexivity|].
  destruct (git_churn_counts_the_log sample_log 5 [] _ eq_refl eq_refl)
    as (Hnd & Hord & _).
  split; [exact Hnd | exact Hord].
Defined.

(** Two contents that differ in the middle have one fast hash. *)
Lemma fast_hash_reads_the_ends_only_witness :
  len (padded 1) = len (padded 2)
  /\ firstn (Z.to_nat 4096) (padded 1) = firstn (Z.to_nat 4096) (padded 2)
  /\ last_4096 (padded 1) = last_4096 (padded 2)
  /\ padded 1 <> padded 2
  /\ hash_data_fast (padded 1) = hash_data_fast (padded 2).
Proof.
  assert (Hlen : len (padded 1) = len (padded 2)) by (vm_compute; reflexivity).
  assert (Hhead : firstn (Z.to_nat 4096) (padded 1) = firstn (Z.to_nat 4096) (padded 2))
    by (vm_compute; reflexivity).
  assert (Htail : last_4096 (padded 1) = last_4096 (padded 2))
    by (vm_compute; reflexivity).
  split; [exact Hlen|]. split; [exact Hhead|]. split; [exact Htail|].
  split.
  - intros H. apply (f_equal (fun l => nth 4096 l x00)) in H. vm_compute in H.
    discriminate H.
  - exact (fast_hash_reads_the_ends_only (padded 1) (padded 2) Hlen Hhead
             (or_intror Htail)).
Defined.

(** The letters and then U+00E9, in a file named [notes.dat]. *)
Lemma sniff_cuts_a_character_in_two_witness :
  str_in (lower (path_suffix "notes.dat")) TEXT_EXTENSIONS = false
  /\ str_in (lower (path_name "notes.dat")) TEXT_NAMES = false
  /\ len (letters) = 8191
  /\ 194 <= byte_val (byte_of_Z 195) < 245
  /\ decode_text (letters ++ [byte_of_Z 195; byte_of_Z 169]) <> None
  /\ is_text_file "notes.dat"
       (Content (letters ++ [byte_of_Z 195; byte_of_Z 169]))
     = (false, [EvSniff "notes.dat"]).
Proof.
  assert (Hlen : len (letters) = 8191) by (vm_compute; reflexivity).
  assert (Hlead : 194 <= byte_val (byte_of_Z 195) < 245).
  { change (byte_val (byte_of_Z 195)) with 195. lia. }
  split; [reflexivity|]. split; [reflexivity|]. split; [exact Hlen|].
  split; [exact Hlead|]. split; [vm_compute; discriminate|].
  exact (sniff_cuts_a_character_in_two "notes.dat" (letters)
           (byte_of_Z 195) [byte_of_Z 169] eq_refl eq_refl Hlen eq_refl Hlead).
Defined.

(** [src/main.d/notes], a file under a directory named [main.d]. *)
Lemma main_dot_anywhere_is_an_entrypoint_witness :
  fr_path main_d_notes = ("src/" ++ "main." ++ "d/notes")%string
  /\ endswith "src/" "/" = true
  /\ detect_entrypoints [main_d_notes] 20
     = [ {| ep_path := "src/main.d/notes"; ep_tokens := 3;
            ep_reason := "pattern:main.*" |} ].
Proof.
  split; [reflexivity|]. split; [reflexivity|].
  unfold detect_entrypoints. cbn [flat_map].
  rewrite (main_dot_anywhere_is_an_entrypoint main_d_notes "src/" "d/notes"
             eq_refl (or_intror eq_refl)).
  reflexivity.
Defined.

(** ** Text that is not valid UTF-8 *)

Section TextCandidate.
Variable float_repr : float -> string.
Variable tiktoken_encode : string -> text -> option Z.
Variable passes_filters : string -> bool.
Variable c : Config.
Variable fs : filesystem.
Variable cache_files : dict CacheEntry.

Abbreviation scan :=
  (scan_directory float_repr tiktoken_encode passes_filters c fs cache_files).
Abbreviation step1 := (step passes_filters c fs cache_files).
Abbreviation reaches := (reaches_cache passes_filters c fs).
Abbreviation served := (served passes_filters c fs cache_files).
Abbreviation measured := (measured tiktoken_encode passes_filters c fs cache_files).
Abbreviation refused := (refused tiktoken_encode passes_filters c fs cache_files).
Abbreviation measured_from := (measured_from tiktoken_encode c).

(** What a candidate that reaches the cache lookup leaves, its content
    having no NUL byte: the record of the cache on a hit that needs no
    read; else the record of its decoded text, or the skip record of the
    token ceiling. *)
Lemma text_candidate p st_size st_mtime data txt :
  reaches p st_size st_mtime -> p <> "" ->
  fi_content (fs p) = Content data -> has_nul data = false ->
  decode_text data = Some txt ->
  let tokens := count_tokens tiktoken_encode txt (tokenizer c) (encoding_name c) in
  if needs_read (hash_mode c) (dict_get cache_files p)
       (cache_hit (dict_get cache_files p) st_size st_mtime)
  then served p = []
       /\ measured p = (if tokens >? max_file_tokens c then []
                        else [measured_from p st_size st_mtime data txt])
       /\ refused p = (if tokens >? max_file_tokens c
                       then [too_many_tokens_record p tokens] else [])
  else (exists e, dict_get cache_files p = Some e
                  /\ served p = [hit_record c p e st_size st_mtime])
       /\ measured p = [] /\ refused p = [].
Proof.
  intros Hr Hne Hc Hn Hd tokens.
  pose proof (step_reached passes_filters c fs cache_files p st_size st_mtime Hr) as Hstep.
  cbv zeta in Hstep.
  pose proof (process_file_task_text tiktoken_encode fs (task_of c p) data txt Hc Hn Hd)
    as Hproc.
  cbv zeta in Hproc.
  cbn [task_of t_rel_path t_tokenizer t_encoding_name t_max_file_tokens t_hash_mode]
    in Hproc.
  fold tokens in Hproc.
  apply String.eqb_neq in Hne.
  unfold served, measured, refused.
  destruct (needs_read (hash_mode c) (dict_get cache_files p)
              (cache_hit (dict_get cache_files p) st_size st_mtime)) eqn:Hneed.
  - assert (E : step1 p = dispatch c (log initial_state
                                       (snd (is_text_file p (fi_content (fs p)))))
                            p st_size st_mtime).
    { rewrite Hstep. destruct (dict_get cache_files p); [now rewrite Hneed|reflexivity]. }
    rewrite E. cbn [dispatch log initial_state files tasks task_meta skipped app flat_map].
    unfold task_of in Hproc.
    unfold task_files, task_skips. rewrite Hproc, !app_nil_r. cbn [snd].
    destruct (tokens >? max_file_tokens c).
    + cbn [merged_files merged_skips]. rewrite Hne.
      cbn [String.eqb Ascii.eqb Bool.eqb]. repeat split; reflexivity.
    + cbn [merged_files merged_skips dict_set dict_get]. rewrite Hne, String.eqb_refl.
      cbn [fst snd]. repeat split; reflexivity.
  - destruct (dict_get cache_files p) as [e|] eqn:He; [|discriminate Hneed].
    rewrite Hstep, Hneed.
    cbn [record_file count_hit log initial_state files tasks task_meta skipped
         app flat_map].
    repeat split; try reflexivity. exists e. split; reflexivity.
Qed.

(** C10. [decode_text] returns a string for every byte string. A file
    with a known-text extension and no NUL byte, valid UTF-8 or not,
    that passes the filters, is not an unfollowed symlink and is within
    the size ceiling, is never skipped or errored for its encoding: the
    one skip record it can have is that of the token ceiling, which it
    has when it is read in this run and the token count of its decoded
    text is over [max_file_tokens]. Within the ceiling, and on a cache
    hit that needs no read, it has a record in [files] and none in
    [skipped], and the record of a file read in this run holds the
    token count of its decoded text. *)
Theorem undecodable_text_is_recorded :
  (forall data, exists txt, decode_text data = Some txt)
  /\ forall (candidates : list string) (prev : option pyval) (p : string)
            (st_size : Z) (st_mtime : float) (data : bytes) (txt : text),
      prev_is_object prev ->
      In p candidates ->
      passes_filters p = true ->
      fi_stat (fs p) = Some (st_size, st_mtime) ->
      negb (follow_symlinks c) && fi_is_symlink (fs p) = false ->
      st_size <= max_file_size c ->
      str_in (lower (path_suffix p)) TEXT_EXTENSIONS = true ->
      fi_content (fs p) = Content data ->
      has_nul data = false ->
      decode_text data = Some txt ->
      let tokens := count_tokens tiktoken_encode txt (tokenizer c) (encoding_name c) in
      let read_again := needs_read (hash_mode c) (dict_get cache_files p)
                          (cache_hit (dict_get cache_files p) st_size st_mtime) in
      exists r,
        scan candidates prev = Some r
        /\ (forall x, In x (r_skipped r) -> sk_path x = p ->
              x = too_many_tokens_record p tokens
              /\ read_again = true /\ max_file_tokens c < tokens)
        /\ (tokens <= max_file_tokens c \/ read_again = false ->
              (exists e, In e (r_files r) /\ fr_path e = p
                         /\ (read_again = true -> fr_tokens e = tokens))
              /\ forall x, In x (r_skipped r) -> sk_path x <> p)
        /\ (max_file_tokens c < tokens -> read_again = true ->
              In (too_many_tokens_record p tokens) (r_skipped r)
              /\ forall e, In e (r_files r) -> fr_path e <> p).
Proof.
  split; [exact decode_text_total|].
  intros candidates prev p st_size st_mtime data txt
         Hprev Hin Hf Hs Hl Hsz Hext Hc Hn Hd tokens read_again.
  destruct (scan_directory_returns float_repr tiktoken_encode passes_filters c fs
              cache_files candidates prev Hprev) as [r Hscan].
  exists r. split; [exact Hscan|].
  pose proof (known_extension_is_text p (fi_content (fs p)) Hext) as Htext.
  assert (Hreach : reaches p st_size st_mtime).
  { repeat split; auto. now rewrite Htext. }
  assert (Hne : p <> "").
  { intros ->. vm_compute in Hext. discriminate. }
  pose proof (text_candidate p st_size st_mtime data txt Hreach Hne Hc Hn Hd) as Hcand.
  cbv zeta in Hcand. fold tokens in Hcand. fold read_again in Hcand.
  destruct (scan_closed float_repr tiktoken_encode passes_filters c fs cache_files
              candidates prev r Hscan) as (Hfiles & _).
  assert (Hskips : forall x, In x (r_skipped r) -> sk_path x = p -> In x (refused p)).
  { intros x Hx E.
    destruct (skip_origin float_repr tiktoken_encode passes_filters c fs cache_files
                candidates prev r x Hscan Hx) as (_ & H). now rewrite E in H. }
  assert (Hrecs : forall e, In e (r_files r) -> fr_path e = p ->
                            In e (served p ++ measured p)).
  { intros e He E.
    destruct (record_origin float_repr tiktoken_encode passes_filters c fs cache_files
                candidates prev r e Hscan He) as (_ & H). now rewrite E in H. }
  assert (Hleft : forall e, In e (served p ++ measured p) -> In e (r_files r)).
  { intros e He. rewrite Hfiles.
    apply in_app_or in He as [He|He]; apply in_or_app; [left|right];
      apply in_flat_map; eauto. }
  assert (Hrefused : forall x, In x (refused p) -> In x (r_skipped r)).
  { intros x Hx.
    destruct (scan_closed float_repr tiktoken_encode passes_filters c fs cache_files
                candidates prev r Hscan) as (_ & Hsk & _).
    rewrite Hsk. unfold refused in Hx.
    apply in_app_or in Hx as [Hx|Hx]; apply in_or_app; [left|right];
      apply in_flat_map; eauto. }
  destruct read_again eqn:Hread.
  - destruct Hcand as (Hserved & Hmeasured & Href).
    destruct (tokens >? max_file_tokens c) eqn:Hover.
    + split; [|split].
      * intros x Hx E. apply (Hskips x Hx) in E. rewrite Href in E.
        destruct E as [<-|[]]. repeat split. lia.
      * intros [Hle|Hfalse]; [lia|discriminate Hfalse].
      * intros _ _. split.
        -- apply Hrefused. rewrite Href. now left.
        -- intros e He E. apply (Hrecs e He) in E.
           rewrite Hserved, Hmeasured in E. destruct E.
    + split; [|split].
      * intros x Hx E. apply (Hskips x Hx) in E. rewrite Href in E. destruct E.
      * intros _. split.
        -- exists (measured_from p st_size st_mtime data txt). split; [|split].
           ++ apply Hleft. rewrite Hserved, Hmeasured. now left.
           ++ reflexivity.
           ++ intros _. reflexivity.
        -- intros x Hx E. apply (Hskips x Hx) in E. rewrite Href in E. destruct E.
      * intros Hgt. lia.
  - destruct Hcand as ((e & Hget & Hserved) & Hmeasured & Href).
    split; [|split].
    + intros x Hx E. apply (Hskips x Hx) in E. rewrite Href in E. destruct E.
    + intros _. split.
      * exists (hit_record c p e st_size st_mtime). split; [|split].
        -- apply Hleft. rewrite Hserved. now left.
        -- reflexivity.
        -- discriminate.
      * intros x Hx E. apply (Hskips x Hx) in E. rewrite Href in E. destruct E.
    + intros _ Hfalse. discriminate Hfalse.
Qed.

End TextCandidate.

(** C10, witness: [notes.txt], which is not UTF-8, under a ceiling of
    50000 tokens. *)
Lemma undecodable_text_is_recorded_witness :
  utf8_decode Strict undecodable = None
  /\ decode_text undecodable = Some [104; 101; 108; 108; 111; 33; 33; 33]
  /\ exists r,
       sample_scan "mtime" 50000 [] ["notes.txt"] = Some r
       /\ (exists e, In e (r_files r) /\ fr_path e = "notes.txt" /\ fr_tokens e = 2)
       /\ forall x, In x (r_skipped r) -> sk_path x <> "notes.txt".
Proof.
  assert (Hd : decode_text undecodable = Some [104; 101; 108; 108; 111; 33; 33; 33])
    by (vm_compute; reflexivity).
  assert (Hsz : 10 <= max_file_size (sample_config "mtime" 50000 20))
    by (vm_compute; discriminate).
  split; [vm_compute; reflexivity|]. split; [exact Hd|].
  destruct (proj2 (undecodable_text_is_recorded repr_of_zero no_encoder all_pass
                     (sample_config "mtime" 50000 20) sample_tree [])
              ["notes.txt"] None "notes.txt" 10 0%float undecodable _
              no_previous_result (or_introl eq_refl) eq_refl eq_refl eq_refl Hsz
              eq_refl eq_refl eq_refl Hd)
    as (r & Hscan & _ & Hrec & _).
  exists r. split; [exact Hscan|].
  destruct Hrec as ((e & He & Hp & Htokens) & Hnone).
  { left. vm_compute. discriminate. }
  split; [|exact Hnone].
  exists e. split; [exact He|]. split; [exact Hp|]. exact (Htokens eq_refl).
Defined.

(** On a hit that needs no read the ceiling is not looked at: the record
    of the cache is returned, with the token count the cache holds. *)
Lemma stale_hit_is_recorded_over_the_ceiling :
  option_map (fun r => (map (fun e => (fr_path e, fr_tokens e)) (r_files r),
                        r_skipped r, r_reads r))
    (sample_scan "mtime" 1 stale_cache ["notes.txt"])
  = Some ([("notes.txt", 99)], [], []).
Proof. vm_compute. reflexivity. Qed.

(** A run over [a.py] compared with the result of the same run. *)
Lemma same_module_hashes_report_no_change_witness :
  exists r,
    scan_directory repr_of_zero no_encoder all_pass
      (sample_config "fast" 50000 20) sample_tree [] ["a.py"]
      (Some (PDict own_result)) = Some r
    /\ dict_get own_result "module_hashes" = Some (hashes_json (r_module_hashes r))
    /\ r_changed_modules r = Some [] /\ r_removed_modules r = Some [].
Proof.
  assert (Hobj : prev_is_object (Some (PDict own_result))).
  { intros v Hv. injection Hv as <-. eexists. reflexivity. }
  destruct (scan_directory_returns repr_of_zero no_encoder all_pass
              (sample_config "fast" 50000 20) sample_tree [] ["a.py"]
              (Some (PDict own_result)) Hobj) as [r Hscan].
  assert (Hsame : dict_get own_result "module_hashes"
                  = Some (hashes_json (r_module_hashes r))).
  { unfold scan_directory in Hscan. vm_compute in Hscan.
    injection Hscan as <-. vm_compute. reflexivity. }
  exists r. split; [exact Hscan|]. split; [exact Hsame|].
  exact (same_module_hashes_report_no_change repr_of_zero no_encoder all_pass
           (sample_config "fast" 50000 20) sample_tree [] ["a.py"] own_result r
           Hscan Hsame).
Defined.
